(** * Invoicer: the invoice ledger engine

    A shallow embedding of the invoice routes of the backend
    (routes/invoices.ts, with db/schema.ts and db/index.ts) and of the
    invoice settings routes (routes/settings.ts), and the properties of
    the totals calculator, the status and payment state machine and the
    invoice number allocator.

    Conventions of the embedding.
    - A JavaScript [Number] is an exact rational ([Q]); the database
      columns declared [decimal(_, 2)] hold an integer number of
      hundredths ([Z]).  Writing a number to such a column rounds it to
      two fractional digits, ties away from zero, as PostgreSQL's
      [numeric] does ([toDecimal]); reading it back is [Number].
    - The routes compute on binary floating point, which the rationals
      follow up to the last bits only: a product that lies on a tie of the
      rounding, or a difference of sums that is compared with zero when it
      is zero, can go the other way in the routes.  The properties that
      depend on computed amounts are therefore stated where the two agree:
      on amounts with at most two decimals within the range of the
      columns, and on the sign and the order of the stored values rather
      than on the last digit of a product.
    - A numeric field of a request body is a JSON number; a body that
      sends it as a string is outside the embedding.
    - The totals are written outside any transaction; there the overflow
      of a [decimal(12, 2)] column is a failure that leaves the earlier
      commit in place, and it is modelled ([totalsFit]).  Inside a
      transaction an overflow is one more error that rolls the request
      back, and it is left out: where a property states that such a
      request succeeds, its amounts are taken to fit their columns.  The
      counter of the sequence is an [integer] column: the properties of
      the allocator are stated below its largest value ([int4_max]).
    - [new Date()] is the argument [now] of a route; a [uuid] drawn by
      [defaultRandom()] is an argument of the statement that inserts.
    - Rows carry the columns the engine reads or writes; dates, currency,
      notes, terms and footer are passed through by the routes untouched
      and are left out, as is [updatedAt], which every write of an invoice
      sets to the current time: where a property says that a row is left
      as it was, it names the columns.  The money columns and the status
      are nullable with a default and never written [NULL]: they are
      modelled without [NULL], so the [?? 0] of the routes disappear.
    - Identifiers are opaque strings; the [isUUID] checks are left out.
      Strings are sequences of ASCII characters.
    - Requests run one after the other.  What one request makes visible
      to other connections is kept as the list of the states it commits. *)

From Stdlib Require Import ZArith QArith Qround Lqa String List Lia DecimalString.
From Stdlib Require DecimalFacts DecimalPos DecimalZ.
From stdpp Require Import gmap strings list fin_maps sorting.

Local Open Scope Z_scope.
Local Open Scope string_scope.

(** ** Numbers and decimal columns *)

(** A [decimal(p, 2)] value, in hundredths. *)
Abbreviation decimal := Z.

(** [Number(row.field)] on a decimal column. *)
Definition Number (d : decimal) : Q := d # 100.

(** Rounding to the nearest integer, ties away from zero. *)
Definition roundHalfAway (x : Q) : Z :=
  if Qle_bool 0 x then Qfloor (x + (1 # 2)) else - Qfloor (- x + (1 # 2)).

(** [String(x)] written to a [decimal(_, 2)] column. *)
Definition toDecimal (x : Q) : decimal := roundHalfAway (x * 100).

(** The largest value of a [decimal(12, 2)] column, 9999999999.99, in
    hundredths. *)
Definition decimal12_max : decimal := 999999999999.

(** A value a [decimal(12, 2)] column takes; a write beyond it fails with
    a numeric field overflow. *)
Definition fitsDecimal12 (z : decimal) : bool := (Z.abs z <=? decimal12_max)%Z.

(** The largest value of an [integer] column. *)
Definition int4_max : Z := 2147483647.

(** [Math.max(a, b)] *)
Definition Math_max (a b : Q) : Q := if Qle_bool a b then b else a.

(** [x || d] on an optional number: [undefined] and [0] are falsy. *)
Definition orDefault (x : option Q) (d : Q) : Q :=
  match x with
  | Some v => if Qeq_bool v 0 then d else v
  | None => d
  end.

(** [String(n)] for an integer. *)
Definition String_of_int (n : Z) : string := NilZero.string_of_int (Z.to_int n).

Fixpoint repeatChar (c : string) (n : nat) : string :=
  match n with
  | O => ""
  | S k => c ++ repeatChar c k
  end.

(** [s.padStart(targetLength, "0")] *)
Definition padStart (s : string) (targetLength : Z) : string :=
  repeatChar "0" (Z.to_nat (targetLength - Z.of_nat (String.length s))) ++ s.

(** ** Schema (db/schema.ts) *)

Inductive InvoiceStatus := draft | sent | viewed | paid | overdue | cancelled.

Global Instance InvoiceStatus_eq_dec : EqDecision InvoiceStatus.
Proof. solve_decision. Defined.

Definition statusName (s : InvoiceStatus) : string :=
  match s with
  | draft => "draft"
  | sent => "sent"
  | viewed => "viewed"
  | paid => "paid"
  | overdue => "overdue"
  | cancelled => "cancelled"
  end.

(** A [timestamp] column; [None] is SQL [NULL]. *)
Abbreviation timestamp := (option Z).

Module Invoice.
Record t := mk {
  userId : string;
  clientId : string;
  invoiceNumber : string;
  status : InvoiceStatus;
  subtotal : decimal;
  taxRate : decimal;
  taxAmount : decimal;
  discountType : option string;
  discountValue : decimal;
  discountAmount : decimal;
  total : decimal;
  amountPaid : decimal;
  balanceDue : decimal;
  sentAt : timestamp;
  viewedAt : timestamp;
  paidAt : timestamp
}.
End Invoice.

Module InvoiceItem.
Record t := mk {
  invoiceId : string;
  description : string;
  quantity : decimal;
  rate : decimal;
  amount : decimal;
  sortOrder : Z
}.
End InvoiceItem.

Module Payment.
Record t := mk {
  invoiceId : string;
  amount : decimal
}.
End Payment.

Module InvoiceSequence.
Record t := mk {
  prefix : string;
  nextNumber : Z;
  padding : option Z
}.
(** The column defaults: [prefix 'INV'], [next_number 1], [padding 4]. *)
Definition default : t := mk "INV" 1 (Some 4).
End InvoiceSequence.

(** The tables. Rows of [invoices], [payments] and [invoice_sequences] are
    keyed by their primary key; the rows of [invoice_items] are only ever
    selected by [invoiceId], so the table is the list of its rows in
    insertion order. [clients] keeps the primary keys only. *)
Record Db := mkDb {
  clients : gset string;
  invoices : gmap string Invoice.t;
  invoiceItems : list InvoiceItem.t;
  payments : gmap string Payment.t;
  invoiceSequences : gmap string InvoiceSequence.t
}.

Definition setInvoices (f : gmap string Invoice.t -> gmap string Invoice.t) (d : Db) : Db :=
  mkDb (clients d) (f (invoices d)) (invoiceItems d) (payments d) (invoiceSequences d).
Definition setInvoiceItems (f : list InvoiceItem.t -> list InvoiceItem.t) (d : Db) : Db :=
  mkDb (clients d) (invoices d) (f (invoiceItems d)) (payments d) (invoiceSequences d).
Definition setPayments (f : gmap string Payment.t -> gmap string Payment.t) (d : Db) : Db :=
  mkDb (clients d) (invoices d) (invoiceItems d) (f (payments d)) (invoiceSequences d).
Definition setInvoiceSequences
    (f : gmap string InvoiceSequence.t -> gmap string InvoiceSequence.t) (d : Db) : Db :=
  mkDb (clients d) (invoices d) (invoiceItems d) (payments d) (f (invoiceSequences d)).

(** ** Effects

    A route is a computation over the committed database.  It can fail
    (a thrown error or a 400 answer of the [validate] middleware), and it
    records every state it commits, oldest first: these are the states
    another connection can read while the route is running. *)

Inductive Error :=
| NotFoundError (message : string)
| ValidationError (message : string)
| BadRequest
| DbError (constraint : string).

Inductive Outcome (A : Type) :=
| Ok (a : A)
| Err (e : Error).
Arguments Ok {A} a.
Arguments Err {A} e.

Record Run (S A : Type) := mkRun {
  outcome : Outcome A;
  state : S;
  commits : list Db
}.
Arguments mkRun {S A} _ _ _.
Arguments outcome {S A} _.
Arguments state {S A} _.
Arguments commits {S A} _.

Definition Eff (S A : Type) : Type := S -> Run S A.

Definition ret {S A} (a : A) : Eff S A := fun s => mkRun (Ok a) s [].

Definition throw {S A} (e : Error) : Eff S A := fun s => mkRun (Err e) s [].

Definition bind {S A B} (m : Eff S A) (k : A -> Eff S B) : Eff S B :=
  fun s =>
    let r := m s in
    match outcome r with
    | Ok a => let r' := k a (state r) in
              mkRun (outcome r') (state r') (commits r ++ commits r')
    | Err e => mkRun (Err e) (state r) (commits r)
    end.

Notation "'let*' x ':=' m 'in' k" := (bind m (fun x => k))
  (at level 10, x name, m at level 100, k at level 200, only parsing).

(** Statements on the pool connection [db]: each one commits by itself. *)
Abbreviation M := (Eff Db).

Definition select {A} (q : Db -> A) : M A := fun d => mkRun (Ok (q d)) d [].

Definition execute (f : Db -> Db) : M unit :=
  fun d => mkRun (Ok tt) (f d) [f d].

Definition executeReturning {A} (f : Db -> Db) (returning : Db -> A) : M A :=
  fun d => mkRun (Ok (returning (f d))) (f d) [f d].

(** Inside [withTransaction] the callback holds the transaction [tx] and can
    still reach the pool connection [db].  What [tx] has written is pending
    until the commit; what is written through [db] is committed at once and
    is not undone by a rollback. *)
Record TxState := mkTx {
  outer : Db;
  pending : Db -> Db
}.

Definition view (s : TxState) : Db := pending s (outer s).

Abbreviation Tx := (Eff TxState).

Definition tx_execute (f : Db -> Db) : Tx unit :=
  fun s => mkRun (Ok tt) (mkTx (outer s) (fun d => f (pending s d))) [].

(** A statement of [tx] that a constraint can reject. *)
Definition tx_try (f : Db -> Outcome Db) : Tx unit :=
  fun s =>
    match f (view s) with
    | Ok _ => mkRun (Ok tt)
                (mkTx (outer s)
                   (fun d => match f (pending s d) with Ok d' => d' | Err _ => pending s d end))
                []
    | Err e => mkRun (Err e) s []
    end.

(** A computation run on [db] from inside the callback. *)
Definition onDb {A} (m : M A) : Tx A :=
  fun s =>
    let r := m (outer s) in
    mkRun (outcome r) (mkTx (state r) (pending s)) (commits r).

(** [withTransaction(callback)]: commit when the callback returns, roll back
    when it throws. *)
Definition withTransaction {A} (callback : Tx A) : M A :=
  fun d =>
    let r := callback (mkTx d (fun x => x)) in
    match outcome r with
    | Ok a => mkRun (Ok a) (view (state r)) (commits r ++ [view (state r)])
    | Err e => mkRun (Err e) (outer (state r)) (commits r)
    end.

(** ** Invoice number allocator *)

Definition incrementNextNumber (s : InvoiceSequence.t) : InvoiceSequence.t :=
  InvoiceSequence.mk (InvoiceSequence.prefix s) (InvoiceSequence.nextNumber s + 1)
    (InvoiceSequence.padding s).

Definition formatInvoiceNumber (prefix : string) (nextNumber : Z) (padding : option Z) : string :=
  prefix ++ padStart (String_of_int nextNumber) (default 4 padding).

(** [next_number + 1] is a value of the [integer] column: the [update] of
    the allocator fails when it is not. *)
Definition counterInRange (userId : string) (d : Db) : bool :=
  match invoiceSequences d !! userId with
  | Some seq => (InvoiceSequence.nextNumber seq + 1 <=? int4_max)%Z
  | None => true
  end.

Definition generateInvoiceNumber (userId : string) : M string :=
  let* existing := select (fun d => invoiceSequences d !! userId) in
  let* _ := match existing with
            | None => execute (setInvoiceSequences (insert userId InvoiceSequence.default))
            | Some _ => ret tt
            end in
  let* inRange := select (counterInRange userId) in
  let* result :=
    if inRange : bool
    then executeReturning
           (setInvoiceSequences (alter incrementNextNumber userId))
           (fun d => invoiceSequences d !! userId)
    else throw (DbError "integer out of range") in
  match result with
  | Some seq =>
      ret (formatInvoiceNumber (InvoiceSequence.prefix seq)
             (InvoiceSequence.nextNumber seq - 1) (InvoiceSequence.padding seq))
  | None => throw (DbError "invoice_sequences: no row returned")
  end.

(** ** Totals calculator *)

(** [coalesce(sum(amount::numeric), 0)] over the items of an invoice. *)
Definition itemsOf (invoiceId : string) (items : list InvoiceItem.t) : list InvoiceItem.t :=
  filter (fun it => InvoiceItem.invoiceId it = invoiceId) items.

Definition sumAmounts (items : list InvoiceItem.t) : decimal :=
  foldr (fun it acc => InvoiceItem.amount it + acc) 0 items.

(** The unrounded values computed by [calculateInvoiceTotals] (lines
    100-117 of the route file) from the subtotal and the invoice row. *)
Record Totals := mkTotals {
  t_discountAmount : Q;
  t_taxAmount : Q;
  t_total : Q;
  t_balanceDue : Q
}.

Definition computeTotals (subtotal : Q) (invoice : Invoice.t) : Totals :=
  let taxRate := Number (Invoice.taxRate invoice) in
  let discountValue := Number (Invoice.discountValue invoice) in
  let amountPaid := Number (Invoice.amountPaid invoice) in
  let discountAmount :=
    if decide (Invoice.discountType invoice = Some "percentage")
    then (subtotal * (discountValue / 100))%Q
    else if decide (Invoice.discountType invoice = Some "fixed")
         then discountValue
         else 0%Q in
  let taxAmount := ((subtotal - discountAmount) * (taxRate / 100))%Q in
  let total := (subtotal - discountAmount + taxAmount)%Q in
  let balanceDue := (total - amountPaid)%Q in
  mkTotals discountAmount taxAmount total balanceDue.

Definition storeTotals (subtotal : Q) (t : Totals) (row : Invoice.t) : Invoice.t :=
  {| Invoice.userId := Invoice.userId row;
     Invoice.clientId := Invoice.clientId row;
     Invoice.invoiceNumber := Invoice.invoiceNumber row;
     Invoice.status := Invoice.status row;
     Invoice.subtotal := toDecimal subtotal;
     Invoice.taxRate := Invoice.taxRate row;
     Invoice.taxAmount := toDecimal (t_taxAmount t);
     Invoice.discountType := Invoice.discountType row;
     Invoice.discountValue := Invoice.discountValue row;
     Invoice.discountAmount := toDecimal (t_discountAmount t);
     Invoice.total := toDecimal (t_total t);
     Invoice.amountPaid := Invoice.amountPaid row;
     Invoice.balanceDue := toDecimal (t_balanceDue t);
     Invoice.sentAt := Invoice.sentAt row;
     Invoice.viewedAt := Invoice.viewedAt row;
     Invoice.paidAt := Invoice.paidAt row |}.

(** The values of the final [update] are accepted by their columns. *)
Definition totalsFit (row : Invoice.t) : bool :=
  fitsDecimal12 (Invoice.subtotal row) && fitsDecimal12 (Invoice.taxAmount row)
  && fitsDecimal12 (Invoice.discountAmount row) && fitsDecimal12 (Invoice.total row)
  && fitsDecimal12 (Invoice.balanceDue row).

Definition calculateInvoiceTotals (invoiceId : string) : M unit :=
  let* subtotal := select (fun d => Number (sumAmounts (itemsOf invoiceId (invoiceItems d)))) in
  let* invoiceResult := select (fun d => invoices d !! invoiceId) in
  match invoiceResult with
  | None => ret tt
  | Some invoice =>
      let totals := computeTotals subtotal invoice in
      if totalsFit (storeTotals subtotal totals invoice)
      then execute (setInvoices (alter (storeTotals subtotal totals) invoiceId))
      else throw (DbError "numeric field overflow")
  end.

(** The SQL function [calculate_invoice_totals] of the first schema, which
    the helper above replaces.  Its variables are [DECIMAL(12, 2)]: the
    arithmetic of [numeric] is exact, every assignment rounds to
    hundredths, and each later statement starts from the rounded
    variables.  The overflow of a variable is left out. *)
Definition calculate_invoice_totals (p_invoice_id : string) (d : Db) : Db :=
  match invoices d !! p_invoice_id with
  | None => d
  | Some invoice =>
      let v_subtotal := sumAmounts (itemsOf p_invoice_id (invoiceItems d)) in
      let v_tax_rate := Invoice.taxRate invoice in
      let v_discount_value := Invoice.discountValue invoice in
      let v_amount_paid := Invoice.amountPaid invoice in
      let v_discount_amount :=
        if decide (Invoice.discountType invoice = Some "percentage")
        then toDecimal (Number v_subtotal * (Number v_discount_value / 100))
        else if decide (Invoice.discountType invoice = Some "fixed")
             then v_discount_value
             else 0 in
      let v_tax_amount :=
        toDecimal ((Number v_subtotal - Number v_discount_amount)
                   * (Number v_tax_rate / 100)) in
      let v_total := v_subtotal - v_discount_amount + v_tax_amount in
      setInvoices
        (insert p_invoice_id
           {| Invoice.userId := Invoice.userId invoice;
              Invoice.clientId := Invoice.clientId invoice;
              Invoice.invoiceNumber := Invoice.invoiceNumber invoice;
              Invoice.status := Invoice.status invoice;
              Invoice.subtotal := v_subtotal;
              Invoice.taxRate := Invoice.taxRate invoice;
              Invoice.taxAmount := v_tax_amount;
              Invoice.discountType := Invoice.discountType invoice;
              Invoice.discountValue := Invoice.discountValue invoice;
              Invoice.discountAmount := v_discount_amount;
              Invoice.total := v_total;
              Invoice.amountPaid := Invoice.amountPaid invoice;
              Invoice.balanceDue := v_total - v_amount_paid;
              Invoice.sentAt := Invoice.sentAt invoice;
              Invoice.viewedAt := Invoice.viewedAt invoice;
              Invoice.paidAt := Invoice.paidAt invoice |}) d
  end.

(** ** Requests *)

Module ItemInput.
Record t := mk {
  description : option string;
  quantity : option Q;
  rate : option Q
}.
End ItemInput.

Module CreateBody.
Record t := mk {
  client_id : string;
  tax_rate : option Q;
  discount_type : option string;
  discount_value : option Q;
  items : option (list ItemInput.t)
}.
End CreateBody.

(** In an update an absent field keeps the stored value.  The discount
    type can also be sent as [null], which is stored: [Some None]. *)
Module UpdateBody.
Record t := mk {
  client_id : option string;
  tax_rate : option Q;
  discount_type : option (option string);
  discount_value : option Q;
  items : option (list ItemInput.t)
}.
End UpdateBody.

(** The express-validator chains. *)
Definition optionalOk {A} (check : A -> bool) (x : option A) : bool :=
  match x with
  | Some v => check v
  | None => true
  end.

Definition isFloatMin (lo : Q) (x : Q) : bool := Qle_bool lo x.
Definition isFloatMinMax (lo hi : Q) (x : Q) : bool := Qle_bool lo x && Qle_bool x hi.
(** [isIn(["percentage", "fixed", null])]: the values are compared as
    strings, and [null] is compared as the empty string. *)
Definition isDiscountType (s : string) : bool :=
  bool_decide (s = "percentage") || bool_decide (s = "fixed") || bool_decide (s = "").
Definition notEmpty (s : string) : bool := negb (bool_decide (s = "")).

Definition validItem (it : ItemInput.t) : bool :=
  optionalOk notEmpty (ItemInput.description it)
  && optionalOk (isFloatMin 0) (ItemInput.quantity it)
  && optionalOk (isFloatMin 0) (ItemInput.rate it).

(** The chains [POST /] and [PUT /:id] share; [discount_type] is the string
    sent, if one is sent. *)
Definition validInvoiceFields (tax_rate : option Q) (discount_type : option string)
    (discount_value : option Q) : bool :=
  optionalOk (isFloatMinMax 0 100) tax_rate
  && optionalOk isDiscountType discount_type
  && optionalOk (isFloatMin 0) discount_value.

(** [POST /] also checks the items; [PUT /:id] only asks [items] to be an
    array. *)
Definition validCreate (body : CreateBody.t) : bool :=
  validInvoiceFields (CreateBody.tax_rate body) (CreateBody.discount_type body)
    (CreateBody.discount_value body)
  && optionalOk (forallb validItem) (CreateBody.items body).

Definition validUpdate (body : UpdateBody.t) : bool :=
  validInvoiceFields (UpdateBody.tax_rate body)
    (default None (UpdateBody.discount_type body)) (UpdateBody.discount_value body).

(** ** Statements with constraints *)

(** [unique(user_id, invoice_number)] *)
Definition invoiceNumberTaken (d : Db) (userId invoiceNumber : string) : bool :=
  bool_decide (map_Exists (fun _ row => Invoice.userId row = userId
                                        /\ Invoice.invoiceNumber row = invoiceNumber)
                 (invoices d)).

Definition insertInvoice (id : string) (row : Invoice.t) (d : Db) : Outcome Db :=
  if bool_decide (is_Some (invoices d !! id)) then Err (DbError "invoices_pkey")
  else if bool_decide (Invoice.clientId row ∉ clients d)
       then Err (DbError "invoices_client_id_fkey")
       else if invoiceNumberTaken d (Invoice.userId row) (Invoice.invoiceNumber row)
            then Err (DbError "invoices_user_id_invoice_number_unique")
            else Ok (setInvoices (insert id row) d).

(** [description] is [notNull]: an item sent without one is rejected by the
    table, not by the validator. *)
Definition insertInvoiceItem (invoiceId : string) (description : option string)
    (quantity rate amount : Q) (sortOrder : Z) (d : Db) : Outcome Db :=
  match description with
  | None => Err (DbError "invoice_items.description not null")
  | Some text =>
      Ok (setInvoiceItems
            (fun rows => (rows ++ [InvoiceItem.mk invoiceId text (toDecimal quantity)
                                     (toDecimal rate) (toDecimal amount) sortOrder])%list) d)
  end.

Definition insertPayment (id : string) (row : Payment.t) (d : Db) : Outcome Db :=
  if bool_decide (is_Some (payments d !! id)) then Err (DbError "payments_pkey")
  else Ok (setPayments (insert id row) d).

(** The loop [for (let i = 0; i < items.length; i++)] of create and update. *)
Fixpoint insertItems (invoiceId : string) (items : list ItemInput.t) (i : Z) : Tx unit :=
  match items with
  | [] => ret tt
  | item :: rest =>
      let quantity := orDefault (ItemInput.quantity item) 1 in
      let rate := orDefault (ItemInput.rate item) 0 in
      let amount := (quantity * rate)%Q in
      let* _ := tx_try (insertInvoiceItem invoiceId (ItemInput.description item)
                          quantity rate amount i) in
      insertItems invoiceId rest (i + 1)
  end.

(** [where(and(eq(invoices.id, id), eq(invoices.userId, userId)))] *)
Definition findInvoice (invoiceId userId : string) (d : Db) : option Invoice.t :=
  match invoices d !! invoiceId with
  | Some row => if bool_decide (Invoice.userId row = userId) then Some row else None
  | None => None
  end.

(** ** Routes (routes/invoices.ts) *)

(** The row inserted by [POST /]: the columns not given take their
    defaults ([status 'draft'], the money columns ['0'], no timestamps). *)
Definition newInvoice (userId clientId invoiceNumber : string) (tax_rate : Q)
    (discount_type : option string) (discount_value : Q) : Invoice.t :=
  {| Invoice.userId := userId;
     Invoice.clientId := clientId;
     Invoice.invoiceNumber := invoiceNumber;
     Invoice.status := draft;
     Invoice.subtotal := 0;
     Invoice.taxRate := toDecimal tax_rate;
     Invoice.taxAmount := 0;
     Invoice.discountType := discount_type;
     Invoice.discountValue := toDecimal discount_value;
     Invoice.discountAmount := 0;
     Invoice.total := 0;
     Invoice.amountPaid := 0;
     Invoice.balanceDue := 0;
     Invoice.sentAt := None;
     Invoice.viewedAt := None;
     Invoice.paidAt := None |}.

(** [POST /]: create a new invoice; [uuid] is the id the insert draws. *)
Definition createInvoice (uuid userId : string) (body : CreateBody.t) : M (option Invoice.t) :=
  if negb (validCreate body)
  then throw BadRequest
  else
    let tax_rate := default 0%Q (CreateBody.tax_rate body) in
    let discount_value := default 0%Q (CreateBody.discount_value body) in
    let items := default [] (CreateBody.items body) in
    let* invoice :=
      withTransaction
        (let* invoiceNumber := onDb (generateInvoiceNumber userId) in
         let* _ := tx_try (insertInvoice uuid
                             (newInvoice userId (CreateBody.client_id body) invoiceNumber
                                tax_rate (CreateBody.discount_type body) discount_value)) in
         let* _ := insertItems uuid items 0 in
         ret uuid) in
    let* _ := calculateInvoiceTotals invoice in
    select (fun d => invoices d !! invoice).

Definition editInvoice (body : UpdateBody.t) (existing row : Invoice.t) : Invoice.t :=
  {| Invoice.userId := Invoice.userId row;
     Invoice.clientId := default (Invoice.clientId existing) (UpdateBody.client_id body);
     Invoice.invoiceNumber := Invoice.invoiceNumber row;
     Invoice.status := Invoice.status row;
     Invoice.subtotal := Invoice.subtotal row;
     Invoice.taxRate :=
       match UpdateBody.tax_rate body with
       | Some r => toDecimal r
       | None => Invoice.taxRate existing
       end;
     Invoice.taxAmount := Invoice.taxAmount row;
     Invoice.discountType :=
       match UpdateBody.discount_type body with
       | Some t => t
       | None => Invoice.discountType existing
       end;
     Invoice.discountValue :=
       match UpdateBody.discount_value body with
       | Some v => toDecimal v
       | None => Invoice.discountValue existing
       end;
     Invoice.discountAmount := Invoice.discountAmount row;
     Invoice.total := Invoice.total row;
     Invoice.amountPaid := Invoice.amountPaid row;
     Invoice.balanceDue := Invoice.balanceDue row;
     Invoice.sentAt := Invoice.sentAt row;
     Invoice.viewedAt := Invoice.viewedAt row;
     Invoice.paidAt := Invoice.paidAt row |}.

Definition updateInvoiceRow (invoiceId : string) (body : UpdateBody.t) (existing : Invoice.t)
    (d : Db) : Outcome Db :=
  if bool_decide (default (Invoice.clientId existing) (UpdateBody.client_id body) ∉ clients d)
  then Err (DbError "invoices_client_id_fkey")
  else Ok (setInvoices (alter (editInvoice body existing) invoiceId) d).

(** [PUT /:id]: update an invoice and, when [items] is given, replace its
    items. *)
Definition updateInvoice (userId invoiceId : string) (body : UpdateBody.t)
    : M (option Invoice.t) :=
  if negb (validUpdate body)
  then throw BadRequest
  else
    let* existingResult := select (findInvoice invoiceId userId) in
    match existingResult with
    | None => throw (NotFoundError "Invoice not found")
    | Some existing =>
        if bool_decide (Invoice.status existing = paid)
           || bool_decide (Invoice.status existing = cancelled)
        then throw (ValidationError
                      ("Cannot edit " ++ statusName (Invoice.status existing) ++ " invoices"))
        else
          let* _ :=
            withTransaction
              (let* _ := tx_try (updateInvoiceRow invoiceId body existing) in
               match UpdateBody.items body with
               | None => ret tt
               | Some items =>
                   let* _ := tx_execute
                               (setInvoiceItems
                                  (filter (fun it => InvoiceItem.invoiceId it <> invoiceId))) in
                   insertItems invoiceId items 0
               end) in
          let* _ := calculateInvoiceTotals invoiceId in
          select (fun d => invoices d !! invoiceId)
    end.

(** The [updateFields] of [PATCH /:id/status], applied to the stored row. *)
Definition statusFields (now : Z) (status : InvoiceStatus) (existing row : Invoice.t)
    : Invoice.t :=
  let markPaid := bool_decide (status = paid) && bool_decide (Invoice.paidAt existing = None) in
  {| Invoice.userId := Invoice.userId row;
     Invoice.clientId := Invoice.clientId row;
     Invoice.invoiceNumber := Invoice.invoiceNumber row;
     Invoice.status := status;
     Invoice.subtotal := Invoice.subtotal row;
     Invoice.taxRate := Invoice.taxRate row;
     Invoice.taxAmount := Invoice.taxAmount row;
     Invoice.discountType := Invoice.discountType row;
     Invoice.discountValue := Invoice.discountValue row;
     Invoice.discountAmount := Invoice.discountAmount row;
     Invoice.total := Invoice.total row;
     Invoice.amountPaid := if markPaid then Invoice.total existing else Invoice.amountPaid row;
     Invoice.balanceDue := if markPaid then 0 else Invoice.balanceDue row;
     Invoice.sentAt :=
       if bool_decide (status = sent) && bool_decide (Invoice.sentAt existing = None)
       then Some now else Invoice.sentAt row;
     Invoice.viewedAt :=
       if bool_decide (status = viewed) && bool_decide (Invoice.viewedAt existing = None)
       then Some now else Invoice.viewedAt row;
     Invoice.paidAt := if markPaid then Some now else Invoice.paidAt row |}.

(** [PATCH /:id/status]: update invoice status. *)
Definition setStatus (now : Z) (userId invoiceId : string) (status : InvoiceStatus)
    : M (option Invoice.t) :=
  let* existingResult := select (findInvoice invoiceId userId) in
  match existingResult with
  | None => throw (NotFoundError "Invoice not found")
  | Some existing =>
      executeReturning
        (setInvoices (alter (statusFields now status existing) invoiceId))
        (fun d => invoices d !! invoiceId)
  end.

Definition paymentAdded (now : Z) (amount : Q) (invoice row : Invoice.t) : Invoice.t :=
  let newAmountPaid := (Number (Invoice.amountPaid invoice) + amount)%Q in
  let newBalanceDue := (Number (Invoice.total invoice) - newAmountPaid)%Q in
  let newStatus := if Qle_bool newBalanceDue 0 then paid else Invoice.status invoice in
  {| Invoice.userId := Invoice.userId row;
     Invoice.clientId := Invoice.clientId row;
     Invoice.invoiceNumber := Invoice.invoiceNumber row;
     Invoice.status := newStatus;
     Invoice.subtotal := Invoice.subtotal row;
     Invoice.taxRate := Invoice.taxRate row;
     Invoice.taxAmount := Invoice.taxAmount row;
     Invoice.discountType := Invoice.discountType row;
     Invoice.discountValue := Invoice.discountValue row;
     Invoice.discountAmount := Invoice.discountAmount row;
     Invoice.total := Invoice.total row;
     Invoice.amountPaid := toDecimal newAmountPaid;
     Invoice.balanceDue := toDecimal (Math_max 0 newBalanceDue);
     Invoice.sentAt := Invoice.sentAt row;
     Invoice.viewedAt := Invoice.viewedAt row;
     Invoice.paidAt :=
       if bool_decide (newStatus = paid) then Some now else Invoice.paidAt invoice |}.

(** [POST /:id/payments]: add a payment to an invoice; [uuid] is the id of
    the new payment row. *)
Definition addPayment (now : Z) (uuid userId invoiceId : string) (amount : Q)
    : M Payment.t :=
  if negb (isFloatMin (1 # 100) amount) then throw BadRequest
  else
    let* invoiceResult := select (findInvoice invoiceId userId) in
    match invoiceResult with
    | None => throw (NotFoundError "Invoice not found")
    | Some invoice =>
        if bool_decide (Invoice.status invoice = cancelled)
        then throw (ValidationError "Cannot add payment to cancelled invoice")
        else
          withTransaction
            (let payment := Payment.mk invoiceId (toDecimal amount) in
             let* _ := tx_try (insertPayment uuid payment) in
             let* _ := tx_execute
                         (setInvoices (alter (paymentAdded now amount invoice) invoiceId)) in
             ret payment)
    end.

Definition paymentDeleted (payment : Payment.t) (invoice row : Invoice.t) : Invoice.t :=
  let newAmountPaid := (Number (Invoice.amountPaid invoice) - Number (Payment.amount payment))%Q in
  let newBalanceDue := (Number (Invoice.total invoice) - newAmountPaid)%Q in
  let newStatus :=
    if bool_decide (Invoice.status invoice = paid) && negb (Qle_bool newBalanceDue 0)
    then match Invoice.sentAt invoice with Some _ => sent | None => draft end
    else Invoice.status invoice in
  {| Invoice.userId := Invoice.userId row;
     Invoice.clientId := Invoice.clientId row;
     Invoice.invoiceNumber := Invoice.invoiceNumber row;
     Invoice.status := newStatus;
     Invoice.subtotal := Invoice.subtotal row;
     Invoice.taxRate := Invoice.taxRate row;
     Invoice.taxAmount := Invoice.taxAmount row;
     Invoice.discountType := Invoice.discountType row;
     Invoice.discountValue := Invoice.discountValue row;
     Invoice.discountAmount := Invoice.discountAmount row;
     Invoice.total := Invoice.total row;
     Invoice.amountPaid := toDecimal (Math_max 0 newAmountPaid);
     Invoice.balanceDue := toDecimal newBalanceDue;
     Invoice.sentAt := Invoice.sentAt row;
     Invoice.viewedAt := Invoice.viewedAt row;
     Invoice.paidAt :=
       if bool_decide (newStatus <> paid) then None else Invoice.paidAt invoice |}.

Definition findPayment (paymentId invoiceId : string) (d : Db) : option Payment.t :=
  match payments d !! paymentId with
  | Some row => if bool_decide (Payment.invoiceId row = invoiceId) then Some row else None
  | None => None
  end.

(** [DELETE /:invoiceId/payments/:paymentId]: delete a payment. *)
Definition deletePayment (userId invoiceId paymentId : string) : M unit :=
  let* invoiceResult := select (findInvoice invoiceId userId) in
  match invoiceResult with
  | None => throw (NotFoundError "Invoice not found")
  | Some invoice =>
      let* paymentResult := select (findPayment paymentId invoiceId) in
      match paymentResult with
      | None => throw (NotFoundError "Payment not found")
      | Some payment =>
          withTransaction
            (let* _ := tx_execute (setPayments (delete paymentId)) in
             tx_execute (setInvoices (alter (paymentDeleted payment invoice) invoiceId)))
      end
  end.

(** The mutations of the engine, as one request type. *)
Inductive Request :=
| CreateInvoice (uuid : string) (body : CreateBody.t)
| UpdateInvoice (invoiceId : string) (body : UpdateBody.t)
| SetStatus (invoiceId : string) (status : InvoiceStatus)
| AddPayment (uuid invoiceId : string) (amount : Q)
| DeletePayment (invoiceId paymentId : string).

(** Run a request of [userId] at time [now]: the error if any, the
    database it leaves and the states it committed on the way. *)
Definition handle (now : Z) (userId : string) (r : Request) (d : Db) : Run Db unit :=
  match r with
  | CreateInvoice uuid body => (let* _ := createInvoice uuid userId body in ret tt) d
  | UpdateInvoice invoiceId body => (let* _ := updateInvoice userId invoiceId body in ret tt) d
  | SetStatus invoiceId status => (let* _ := setStatus now userId invoiceId status in ret tt) d
  | AddPayment uuid invoiceId amount =>
      (let* _ := addPayment now uuid userId invoiceId amount in ret tt) d
  | DeletePayment invoiceId paymentId => deletePayment userId invoiceId paymentId d
  end.

(** A sequence of requests, each at its own time. *)
Fixpoint handleAll (userId : string) (rs : list (Z * Request)) (d : Db) : Db :=
  match rs with
  | [] => d
  | (now, r) :: rest => handleAll userId rest (state (handle now userId r d))
  end.

(** ** The specification's formulas

    The definitions of this section follow the words of the specification,
    not the code; the properties compare the routes with them. *)

(** Follows the specification (section 3): [balanceDue = max(0, total -
    amountPaid)], on a stored row. *)
Definition spec_balanceDue (row : Invoice.t) : decimal :=
  Z.max 0 (Invoice.total row - Invoice.amountPaid row).

(** Follows the specification (section 3): the sum of the amounts of the
    payments recorded for an invoice. *)
Definition paymentsTotal (d : Db) (invoiceId : string) : decimal :=
  map_fold (fun _ p acc =>
              if bool_decide (Payment.invoiceId p = invoiceId)
              then Payment.amount p + acc else acc)
    0 (payments d).

(** Follows the specification (section 4.3): the status changes a request
    may make.  Setting the current status again is a no-op; [sent] is
    entered from [draft]; [viewed] from [sent] (from [draft] is not
    forbidden); [cancelled] from [draft], [sent], [viewed], [overdue];
    [paid] from any status that is neither [paid] nor [cancelled]; nothing
    leaves [cancelled], and [paid] is left only by a payment deletion. *)
Definition spec_permitted (from to : InvoiceStatus) : bool :=
  bool_decide (from = to)
  || match from, to with
     | draft, sent => true
     | (draft | sent), viewed => true
     | (draft | sent | viewed | overdue), cancelled => true
     | (draft | sent | viewed | overdue), paid => true
     | _, _ => false
     end.




(** Rounding to the nearest integer, ties to even: the other rule the
    specification allows. *)
Definition roundHalfEven (x : Q) : Z :=
  let f := Qfloor x in
  let r := (x - inject_Z f)%Q in
  if Qle_bool r (1 # 2)
  then (if Qle_bool (1 # 2) r then (if Z.even f then f else f + 1) else f)
  else f + 1.

Definition toDecimalHalfEven (x : Q) : decimal := roundHalfEven (x * 100).

(** Follows the specification (section 4.2): every derived field is
    rounded to hundredths by [round2] as soon as it is computed, and each
    later step starts from the rounded values. *)
Record SpecTotals := mkSpecTotals {
  s_discountAmount : decimal;
  s_taxAmount : decimal;
  s_total : decimal;
  s_balanceDue : decimal
}.

Definition spec_roundedTotals (round2 : Q -> decimal) (subtotal : decimal) (invoice : Invoice.t)
    : SpecTotals :=
  let discountAmount :=
    if decide (Invoice.discountType invoice = Some "percentage")
    then round2 (Number subtotal * Number (Invoice.discountValue invoice) / 100)%Q
    else if decide (Invoice.discountType invoice = Some "fixed")
         then Invoice.discountValue invoice
         else 0 in
  let taxableBase := Z.max 0 (subtotal - discountAmount) in
  let taxAmount :=
    round2 (Number taxableBase * Number (Invoice.taxRate invoice) / 100)%Q in
  let total := taxableBase + taxAmount in
  let balanceDue := Z.max 0 (total - Invoice.amountPaid invoice) in
  mkSpecTotals discountAmount taxAmount total balanceDue.

(** Follows the specification (section 8, amountPaid consistency): every
    stored invoice has [amountPaid] equal to the sum of its payments. *)
Definition amountPaidConsistent (d : Db) : Prop :=
  map_Forall (fun id row => Invoice.amountPaid row = paymentsTotal d id) (invoices d).

(** Every recorded payment has a positive amount (section 3). *)
Definition paymentsPositive (d : Db) : Prop :=
  map_Forall (fun _ p => 0 < Payment.amount p) (payments d).

(** The foreign key of [payments.invoice_id]. *)
Definition paymentsReferToInvoices (d : Db) : Prop :=
  map_Forall (fun _ p => is_Some (invoices d !! Payment.invoiceId p)) (payments d).

(** What the payment routes maintain between requests. *)
Definition ledgerInvariant (d : Db) : Prop :=
  amountPaidConsistent d /\ paymentsPositive d /\ paymentsReferToInvoices d.


(** The totals of a stored invoice agree with its items: the state a reader
    expects to see. *)
Definition subtotalMatchesItems (d : Db) (invoiceId : string) : bool :=
  match invoices d !! invoiceId with
  | Some row => bool_decide (Invoice.subtotal row = sumAmounts (itemsOf invoiceId (invoiceItems d)))
  | None => true
  end.

(** The invoice numbers held by the invoices of a user. *)
Definition invoiceNumbersOf (d : Db) (userId : string) : list string :=
  (Invoice.invoiceNumber ∘ snd) <$>
    filter (fun kv => Invoice.userId (snd kv) = userId) (map_to_list (invoices d)).

(** ** Further routes of routes/invoices.ts *)

(** A statement whose [returning] clause reports the rows it found before
    it changed them. *)
Definition executeReturningOld {A} (f : Db -> Db) (returning : Db -> A) : M A :=
  fun d => mkRun (Ok (returning d)) (f d) [f d].

(** [delete(invoices)] of one row, with the [onDelete: 'cascade'] of
    [invoice_items.invoice_id] and [payments.invoice_id]. *)
Definition deleteInvoiceRows (invoiceId : string) (d : Db) : Db :=
  mkDb (clients d)
    (delete invoiceId (invoices d))
    (filter (fun it => InvoiceItem.invoiceId it <> invoiceId) (invoiceItems d))
    (filter (fun kv => Payment.invoiceId (snd kv) <> invoiceId) (payments d))
    (invoiceSequences d).

(** [DELETE /:id]: delete an invoice. *)
Definition deleteInvoice (userId invoiceId : string) : M unit :=
  let* result :=
    executeReturningOld
      (fun d => match findInvoice invoiceId userId d with
                | Some _ => deleteInvoiceRows invoiceId d
                | None => d
                end)
      (findInvoice invoiceId userId) in
  match result with
  | None => throw (NotFoundError "Invoice not found")
  | Some _ => ret tt
  end.

(** [orderBy(asc(invoiceItems.sortOrder))].  The routes number the items of
    an invoice 0, 1, 2, ...; where two rows carry the same [sortOrder] the
    database may return them in any order, and the model keeps them in
    insertion order. *)
Definition bySortOrder (a b : InvoiceItem.t) : Prop :=
  InvoiceItem.sortOrder a <= InvoiceItem.sortOrder b.

Global Instance bySortOrder_dec : RelDecision bySortOrder.
Proof. intros a b. unfold bySortOrder. apply _. Defined.

Definition orderBySortOrder (items : list InvoiceItem.t) : list InvoiceItem.t :=
  merge_sort bySortOrder items.

(** The row inserted by [POST /:id/duplicate]. *)
Definition duplicateRow (userId invoiceNumber : string) (original : Invoice.t) : Invoice.t :=
  {| Invoice.userId := userId;
     Invoice.clientId := Invoice.clientId original;
     Invoice.invoiceNumber := invoiceNumber;
     Invoice.status := draft;
     Invoice.subtotal := 0;
     Invoice.taxRate := Invoice.taxRate original;
     Invoice.taxAmount := 0;
     Invoice.discountType := Invoice.discountType original;
     Invoice.discountValue := Invoice.discountValue original;
     Invoice.discountAmount := 0;
     Invoice.total := 0;
     Invoice.amountPaid := 0;
     Invoice.balanceDue := 0;
     Invoice.sentAt := None;
     Invoice.viewedAt := None;
     Invoice.paidAt := None |}.

Definition copyItem (newId : string) (item : InvoiceItem.t) : InvoiceItem.t :=
  InvoiceItem.mk newId (InvoiceItem.description item) (InvoiceItem.quantity item)
    (InvoiceItem.rate item) (InvoiceItem.amount item) (InvoiceItem.sortOrder item).

(** The loop [for (const item of itemsResult)]. *)
Fixpoint copyItems (newId : string) (items : list InvoiceItem.t) : Tx unit :=
  match items with
  | [] => ret tt
  | item :: rest =>
      let* _ := tx_execute (setInvoiceItems (fun rows => (rows ++ [copyItem newId item])%list)) in
      copyItems newId rest
  end.

(** [POST /:id/duplicate]: duplicate an invoice; [uuid] is the id of the
    copy. *)
Definition duplicateInvoice (uuid userId invoiceId : string) : M (option Invoice.t) :=
  let* originalResult := select (findInvoice invoiceId userId) in
  match originalResult with
  | None => throw (NotFoundError "Invoice not found")
  | Some original =>
      let* itemsResult :=
        select (fun d => orderBySortOrder (itemsOf invoiceId (invoiceItems d))) in
      let* newInvoice :=
        withTransaction
          (let* invoiceNumber := onDb (generateInvoiceNumber userId) in
           let* _ := tx_try (insertInvoice uuid (duplicateRow userId invoiceNumber original)) in
           let* _ := copyItems uuid itemsResult in
           ret uuid) in
      let* _ := calculateInvoiceTotals newInvoice in
      select (fun d => invoices d !! newInvoice)
  end.

Module Pagination.
Record t := mk {
  page : Z;
  limit : Z;
  total : Z;
  totalPages : Z
}.
End Pagination.

(** [Math.ceil(x)] *)
Definition Math_ceil (x : Q) : Z := Qceiling x.

(** The paging of [GET /].  [rows] are the invoices the filters of the
    request select, in the order the request asks for; [pageNum] and
    [limitNum] are the parsed [page] and [limit].  The query ends with
    [.limit(limitNum).offset(offset)] and the answer carries the page with
    the [pagination] object.  The model covers [pageNum >= 1] and
    [limitNum >= 1]; what the query builder and the database make of other
    values is not modelled ([None]). *)
Definition listPage {A} (pageNum limitNum : Z) (rows : list A)
    : option (list A * Pagination.t) :=
  let offset := (pageNum - 1) * limitNum in
  if (1 <=? pageNum)%Z && (1 <=? limitNum)%Z
  then
    let result := take (Z.to_nat limitNum) (drop (Z.to_nat offset) rows) in
    let total := Z.of_nat (length rows) in
    Some (result,
          Pagination.mk pageNum limitNum total
            (Math_ceil (inject_Z total / inject_Z limitNum)))
  else None.

(** ** Invoice settings (routes/settings.ts) *)

Module InvoiceSettings.
Record t := mk {
  prefix : string;
  nextNumber : Z;
  padding : option Z;
  previewNumber : string
}.
End InvoiceSettings.

(** [GET /invoice]: the settings of the numbering, with the number the next
    invoice would get; a user without a sequence row gets one. *)
Definition getInvoiceSettings (userId : string) : M InvoiceSettings.t :=
  let* result := select (fun d => invoiceSequences d !! userId) in
  match result with
  | None =>
      let* _ := execute (setInvoiceSequences (insert userId InvoiceSequence.default)) in
      ret (InvoiceSettings.mk "INV" 1 (Some 4) "INV0001")
  | Some settings =>
      ret (InvoiceSettings.mk (InvoiceSequence.prefix settings)
             (InvoiceSequence.nextNumber settings) (InvoiceSequence.padding settings)
             (formatInvoiceNumber (InvoiceSequence.prefix settings)
                (InvoiceSequence.nextNumber settings) (InvoiceSequence.padding settings)))
  end.

(** The [trim()] sanitizer, on the white space of ASCII. *)
Definition isSpace (c : Ascii.ascii) : bool :=
  bool_decide (c ∈ map Ascii.ascii_of_nat [32; 9; 10; 11; 12; 13]%nat).

Fixpoint ltrim (s : list Ascii.ascii) : list Ascii.ascii :=
  match s with
  | c :: rest => if isSpace c then ltrim rest else s
  | [] => []
  end.

Definition trim (s : string) : string :=
  string_of_list_ascii (rev (ltrim (rev (ltrim (list_ascii_of_string s))))).

Module SettingsBody.
Record t := mk {
  prefix : option string;
  padding : option Z
}.
End SettingsBody.

Definition validSettings (prefix : option string) (padding : option Z) : bool :=
  optionalOk (fun p => bool_decide (String.length p <= 20)%nat) prefix
  && optionalOk (fun n => (1 <=? n)%Z && (n <=? 10)%Z) padding.

(** [x || d] on an optional string: [undefined] and [""] are falsy. *)
Definition orDefaultString (x : option string) (d : string) : string :=
  match x with
  | Some v => if bool_decide (v = "") then d else v
  | None => d
  end.

(** [x || d] on an optional integer: [undefined] and [0] are falsy. *)
Definition orDefaultInt (x : option Z) (d : Z) : Z :=
  match x with
  | Some v => if (v =? 0)%Z then d else v
  | None => d
  end.

Definition editSequence (prefix : option string) (padding : option Z)
    (current row : InvoiceSequence.t) : InvoiceSequence.t :=
  InvoiceSequence.mk
    (default (InvoiceSequence.prefix current) prefix)
    (InvoiceSequence.nextNumber row)
    (match padding with
     | Some p => Some p
     | None => InvoiceSequence.padding current
     end).

(** [PUT /invoice]: update the prefix and the padding of the numbering. *)
Definition updateInvoiceSettings (userId : string) (body : SettingsBody.t)
    : M InvoiceSettings.t :=
  let prefix := trim <$> SettingsBody.prefix body in
  let padding := SettingsBody.padding body in
  if negb (validSettings prefix padding) then throw BadRequest
  else
    let* currentResult := select (fun d => invoiceSequences d !! userId) in
    let* _ :=
      match currentResult with
      | None =>
          execute (setInvoiceSequences
                     (insert userId
                        (InvoiceSequence.mk (orDefaultString prefix "INV") 1
                           (Some (orDefaultInt padding 4)))))
      | Some current =>
          execute (setInvoiceSequences (alter (editSequence prefix padding current) userId))
      end in
    let* result := select (fun d => invoiceSequences d !! userId) in
    match result with
    | Some settings =>
        ret (InvoiceSettings.mk (InvoiceSequence.prefix settings)
               (InvoiceSequence.nextNumber settings) (InvoiceSequence.padding settings)
               (formatInvoiceNumber (InvoiceSequence.prefix settings)
                  (InvoiceSequence.nextNumber settings) (InvoiceSequence.padding settings)))
    | None => throw (DbError "invoice_sequences: no row returned")
    end.

(** ** Operations of several users *)

Inductive Operation :=
| Engine (r : Request)
| DeleteInvoice (invoiceId : string)
| DuplicateInvoice (uuid invoiceId : string)
| GetInvoiceSettings
| UpdateInvoiceSettings (body : SettingsBody.t).

(** The database an operation of [userId] at time [now] leaves. *)
Definition run (now : Z) (userId : string) (op : Operation) (d : Db) : Db :=
  match op with
  | Engine r => state (handle now userId r d)
  | DeleteInvoice invoiceId => state (deleteInvoice userId invoiceId d)
  | DuplicateInvoice uuid invoiceId => state (duplicateInvoice uuid userId invoiceId d)
  | GetInvoiceSettings => state (getInvoiceSettings userId d)
  | UpdateInvoiceSettings body => state (updateInvoiceSettings userId body d)
  end.

Fixpoint runAll (steps : list (Z * string * Operation)) (d : Db) : Db :=
  match steps with
  | [] => d
  | (now, userId, op) :: rest => runAll rest (run now userId op d)
  end.

(** ** What a request can change

    The properties that hold across all the operations are proved from a
    summary of what one operation of a user can do to the tables: every
    operation either deletes an invoice of the user or makes a
    [transition] ([run_cases]). *)

(** The sequence row the allocator of a user works from: the stored row,
    or the column defaults. *)
Definition sequenceOf (d : Db) (userId : string) : InvoiceSequence.t :=
  default InvoiceSequence.default (invoiceSequences d !! userId).

(** The columns of an invoice no operation rewrites: the owner and the
    number, and the [sentAt] and [viewedAt] timestamps once they are set. *)
Record keptFields (row row' : Invoice.t) : Prop := mkKeptFields {
  kept_userId : Invoice.userId row' = Invoice.userId row;
  kept_invoiceNumber : Invoice.invoiceNumber row' = Invoice.invoiceNumber row;
  kept_sentAt : Invoice.sentAt row <> None -> Invoice.sentAt row' = Invoice.sentAt row;
  kept_viewedAt : Invoice.viewedAt row <> None -> Invoice.viewedAt row' = Invoice.viewedAt row
}.

(** The columns the totals are computed from, and the computed totals. *)
Record keptTotals (row row' : Invoice.t) : Prop := mkKeptTotals {
  kept_subtotal : Invoice.subtotal row' = Invoice.subtotal row;
  kept_taxRate : Invoice.taxRate row' = Invoice.taxRate row;
  kept_taxAmount : Invoice.taxAmount row' = Invoice.taxAmount row;
  kept_discountType : Invoice.discountType row' = Invoice.discountType row;
  kept_discountValue : Invoice.discountValue row' = Invoice.discountValue row;
  kept_discountAmount : Invoice.discountAmount row' = Invoice.discountAmount row;
  kept_total : Invoice.total row' = Invoice.total row
}.

(** The sequence table after an operation of [userId]: as it was, or with
    the row of [userId] written with a counter that is not smaller. *)
Definition sequenceStep (userId : string) (m m' : gmap string InvoiceSequence.t) : Prop :=
  m' = m
  \/ exists s, InvoiceSequence.nextNumber (default InvoiceSequence.default (m !! userId))
               <= InvoiceSequence.nextNumber s
               /\ m' = <[userId := s]> m.

(** The invoice row an operation of [userId] writes at [id]: a rewrite of
    an invoice of the user, or a new invoice of the user with a number the
    user does not hold yet. *)
Definition writes (userId : string) (d : Db) (id : string) (row : Invoice.t) : Prop :=
  match invoices d !! id with
  | Some existing => Invoice.userId existing = userId /\ keptFields existing row
  | None => Invoice.userId row = userId
            /\ invoiceNumberTaken d userId (Invoice.invoiceNumber row) = false
  end.

Inductive transition (userId : string) (d : Db) : Db -> Prop :=
| transition_sequence (seqs : gmap string InvoiceSequence.t) :
    sequenceStep userId (invoiceSequences d) seqs ->
    transition userId d (mkDb (clients d) (invoices d) (invoiceItems d) (payments d) seqs)
| transition_written (id : string) (row : Invoice.t) (items : list InvoiceItem.t)
    (seqs : gmap string InvoiceSequence.t) :
    sequenceStep userId (invoiceSequences d) seqs ->
    writes userId d id row ->
    (forall j, j <> id -> itemsOf j items = itemsOf j (invoiceItems d)) ->
    transition userId d
      (state (calculateInvoiceTotals id
                (mkDb (clients d) (<[id := row]> (invoices d)) items (payments d) seqs)))
| transition_rewritten (id : string) (existing row : Invoice.t)
    (pays : gmap string Payment.t) :
    findInvoice id userId d = Some existing ->
    keptFields existing row -> keptTotals existing row ->
    (forall pid p, Payment.invoiceId p <> id ->
                   pays !! pid = Some p <-> payments d !! pid = Some p) ->
    transition userId d
      (mkDb (clients d) (<[id := row]> (invoices d)) (invoiceItems d) pays (invoiceSequences d)).

(** The invoices of [userId]. *)
Definition ownedBy (d : Db) (userId invoiceId : string) : Prop :=
  exists row, invoices d !! invoiceId = Some row /\ Invoice.userId row = userId.

(** [d'] holds for [userId] what [d] holds: the same invoices, with the
    same items and payments, and the same sequence row. *)
Record sameDataOf (userId : string) (d d' : Db) : Prop := mkSameDataOf {
  same_invoices : forall id row,
    Invoice.userId row = userId ->
    invoices d' !! id = Some row <-> invoices d !! id = Some row;
  same_items : forall id,
    ownedBy d userId id -> itemsOf id (invoiceItems d') = itemsOf id (invoiceItems d);
  same_payments : forall pid p,
    ownedBy d userId (Payment.invoiceId p) ->
    payments d' !! pid = Some p <-> payments d !! pid = Some p;
  same_sequence : invoiceSequences d' !! userId = invoiceSequences d !! userId
}.

(** [unique(user_id, invoice_number)], as a property of the table. *)
Definition uniqueInvoiceNumbers (d : Db) : Prop :=
  forall i j r1 r2,
    invoices d !! i = Some r1 -> invoices d !! j = Some r2 ->
    Invoice.userId r1 = Invoice.userId r2 ->
    Invoice.invoiceNumber r1 = Invoice.invoiceNumber r2 ->
    i = j.

(** The stored totals of an invoice are the ones [calculateInvoiceTotals]
    would store now, from its items and its tax and discount settings. *)
Definition upToDate (d : Db) (invoiceId : string) (row : Invoice.t) : Prop :=
  let subtotal := Number (sumAmounts (itemsOf invoiceId (invoiceItems d))) in
  let t := computeTotals subtotal row in
  Invoice.subtotal row = toDecimal subtotal
  /\ Invoice.discountAmount row = toDecimal (t_discountAmount t)
  /\ Invoice.taxAmount row = toDecimal (t_taxAmount t)
  /\ Invoice.total row = toDecimal (t_total t).

(** The user and the operation of a step. *)
Definition stepUser (step : Z * string * Operation) : string := snd (fst step).
Definition stepOperation (step : Z * string * Operation) : Operation := snd step.

(** A number with at most two decimals: a [decimal(_, 2)] column stores it
    as it is. *)
Definition wholeHundredths (x : Q) : Prop := (Number (toDecimal x) == x)%Q.

(** * Properties *)

(** ** Rounding *)

Section Rounding.

Lemma Qfloor_unique (x : Q) (k : Z) :
  (inject_Z k <= x)%Q -> (x < inject_Z (k + 1))%Q -> Qfloor x = k.
Proof.
  intros Hle Hlt.
  pose proof (Qfloor_le x) as H1.
  pose proof (Qlt_floor x) as H2.
  assert (inject_Z k < inject_Z (Qfloor x + 1))%Q as A by (eapply Qle_lt_trans; eauto).
  assert (inject_Z (Qfloor x) < inject_Z (k + 1))%Q as B by (eapply Qle_lt_trans; eauto).
  rewrite <- Zlt_Qlt in A, B. lia.
Qed.

Lemma Qfloor_plus_Z (k : Z) (x : Q) : Qfloor (inject_Z k + x) = k + Qfloor x.
Proof.
  apply Qfloor_unique.
  - rewrite inject_Z_plus. apply Qplus_le_r, Qfloor_le.
  - replace (k + Qfloor x + 1) with (k + (Qfloor x + 1)) by lia.
    rewrite inject_Z_plus. apply Qplus_lt_r, Qlt_floor.
Qed.

Lemma roundHalfAway_comp (x y : Q) : (x == y)%Q -> roundHalfAway x = roundHalfAway y.
Proof.
  intros E. unfold roundHalfAway.
  rewrite (Qleb_comp 0%Q 0%Q (Qeq_refl 0%Q) x y E).
  destruct (Qle_bool 0%Q y).
  - apply Qfloor_comp. rewrite E. reflexivity.
  - f_equal. apply Qfloor_comp. rewrite E. reflexivity.
Qed.


Lemma roundHalfAway_inject_Z (z : Z) : roundHalfAway (inject_Z z) = z.
Proof.
  unfold roundHalfAway. destruct (Qle_bool 0%Q (inject_Z z)).
  - rewrite Qfloor_plus_Z. change (Qfloor (1 # 2)) with 0. lia.
  - rewrite <- inject_Z_opp, Qfloor_plus_Z.
    change (Qfloor (1 # 2)) with 0. lia.
Qed.


Lemma Number_scaled (z : Z) : (Number z * 100 == inject_Z z)%Q.
Proof. unfold Number, Qeq, inject_Z. simpl. lia. Qed.

Lemma toDecimal_Number (z : Z) : toDecimal (Number z) = z.
Proof.
  unfold toDecimal. rewrite (roundHalfAway_comp _ _ (Number_scaled z)).
  apply roundHalfAway_inject_Z.
Qed.

Lemma toDecimal_comp (x y : Q) : (x == y)%Q -> toDecimal x = toDecimal y.
Proof. intros E. unfold toDecimal. apply roundHalfAway_comp. rewrite E. reflexivity. Qed.

Lemma Number_minus (a b : Z) : (Number a - Number b == Number (a - b))%Q.
Proof. unfold Number, Qeq. simpl. lia. Qed.


End Rounding.

Section Monad.

Context {S A B : Type}.

Lemma bind_ok (m : Eff S A) (k : A -> Eff S B) (s : S) (a : A) :
  outcome (m s) = Ok a ->
  bind m k s = mkRun (outcome (k a (state (m s)))) (state (k a (state (m s))))
                 (commits (m s) ++ commits (k a (state (m s)))).
Proof. intros E. unfold bind. rewrite E. reflexivity. Qed.

Lemma bind_err (m : Eff S A) (k : A -> Eff S B) (s : S) (e : Error) :
  outcome (m s) = Err e ->
  bind m k s = mkRun (Err e) (state (m s)) (commits (m s)).
Proof. intros E. unfold bind. rewrite E. reflexivity. Qed.

End Monad.

Lemma withTransaction_ok {A} (callback : Tx A) (d : Db) (a : A) :
  outcome (callback (mkTx d (fun x => x))) = Ok a ->
  let s := state (callback (mkTx d (fun x => x))) in
  withTransaction callback d
  = mkRun (Ok a) (view s) (commits (callback (mkTx d (fun x => x))) ++ [view s]).
Proof. intros E. unfold withTransaction. rewrite E. reflexivity. Qed.

Lemma withTransaction_err {A} (callback : Tx A) (d : Db) (e : Error) :
  outcome (callback (mkTx d (fun x => x))) = Err e ->
  withTransaction callback d
  = mkRun (Err e) (outer (state (callback (mkTx d (fun x => x)))))
      (commits (callback (mkTx d (fun x => x)))).
Proof. intros E. unfold withTransaction. rewrite E. reflexivity. Qed.

Section Transactions.

Lemma tx_try_ok (f : Db -> Outcome Db) (s : TxState) (d' : Db) :
  f (view s) = Ok d' ->
  exists s', tx_try f s = mkRun (Ok tt) s' [] /\ view s' = d' /\ outer s' = outer s.
Proof.
  intros E. unfold tx_try. rewrite E. eexists. split; [reflexivity |].
  unfold view in *. simpl. rewrite E. split; reflexivity.
Qed.

Lemma tx_try_err (f : Db -> Outcome Db) (s : TxState) (e : Error) :
  f (view s) = Err e -> tx_try f s = mkRun (Err e) s [].
Proof. intros E. unfold tx_try. rewrite E. reflexivity. Qed.

(** The item loop writes through [tx] only: it commits nothing, leaves
    the committed database alone, and when it succeeds it has appended
    rows of this invoice to [invoice_items]. *)
Lemma insertItems_run (invoiceId : string) (items : list ItemInput.t) :
  forall (i : Z) (s : TxState),
    let r := insertItems invoiceId items i s in
    commits r = [] /\ outer (state r) = outer s
    /\ match outcome r with
       | Ok _ => exists rows,
           Forall (fun it => InvoiceItem.invoiceId it = invoiceId) rows
           /\ view (state r) = setInvoiceItems (fun old => (old ++ rows)%list) (view s)
       | Err _ => True
       end.
Proof.
  induction items as [|item rest IH]; intros i s; simpl.
  - repeat split. exists []. split; [constructor |].
    unfold setInvoiceItems. rewrite app_nil_r. destruct (view s); reflexivity.
  - unfold bind.
    destruct (ItemInput.description item) as [text|] eqn:D.
    + edestruct (tx_try_ok (insertInvoiceItem invoiceId (Some text)
                   (orDefault (ItemInput.quantity item) 1)
                   (orDefault (ItemInput.rate item) 0)
                   (orDefault (ItemInput.quantity item) 1 * orDefault (ItemInput.rate item) 0)
                   i) s) as (s' & E & V & O); [reflexivity |].
      rewrite E. simpl.
      specialize (IH (i + 1) s'). simpl in IH. destruct IH as (C & O' & R).
      rewrite C, O', O. repeat split.
      destruct (outcome (insertItems invoiceId rest (i + 1) s')); [| exact I].
      destruct R as (rows & F & R). eexists (_ :: rows). split; cycle 1.
      * rewrite R, V. unfold setInvoiceItems. simpl. rewrite <- app_assoc. reflexivity.
      * constructor; [reflexivity | exact F].
    + rewrite tx_try_err with (e := DbError "invoice_items.description not null")
        by reflexivity.
      simpl. repeat split.
Qed.

End Transactions.

(** ** Invoice number allocator *)

Section Allocator.

Variables (userId : string) (d : Db).

Let seq := default InvoiceSequence.default (invoiceSequences d !! userId).

(** The allocator formats the counter it finds and leaves it incremented,
    or fails on the largest value of the column and changes nothing. *)
Lemma generateInvoiceNumber_cases :
  let r := generateInvoiceNumber userId d in
  if (InvoiceSequence.nextNumber seq <? int4_max)%Z
  then outcome r = Ok (formatInvoiceNumber (InvoiceSequence.prefix seq)
                         (InvoiceSequence.nextNumber seq) (InvoiceSequence.padding seq))
       /\ state r = setInvoiceSequences (insert userId (incrementNextNumber seq)) d
  else r = mkRun (Err (DbError "integer out of range")) d [].
Proof.
  subst seq. unfold generateInvoiceNumber, bind, select, execute, executeReturning, throw, ret.
  cbn [outcome state commits].
  destruct (invoiceSequences d !! userId) as [row|] eqn:E;
    cbn [outcome state commits default from_option]; unfold id.
  - unfold counterInRange. rewrite E.
    destruct (InvoiceSequence.nextNumber row <? int4_max)%Z eqn:B.
    + rewrite (proj2 (Z.leb_le _ _)) by (apply Z.ltb_lt in B; lia).
      cbn [outcome state commits setInvoiceSequences invoiceSequences].
      rewrite lookup_alter_eq, E. cbn [fmap option_fmap option_map outcome state commits
        incrementNextNumber InvoiceSequence.prefix InvoiceSequence.nextNumber
        InvoiceSequence.padding].
      replace (InvoiceSequence.nextNumber row + 1 - 1) with (InvoiceSequence.nextNumber row)
        by lia.
      split; [reflexivity |].
      unfold setInvoiceSequences. f_equal.
      apply map_eq. intros k. destruct (decide (k = userId)) as [->|Hne].
      * rewrite lookup_alter_eq, lookup_insert_eq, E. reflexivity.
      * rewrite lookup_alter_ne, lookup_insert_ne by congruence. reflexivity.
    + rewrite (proj2 (Z.leb_gt _ _)) by (apply Z.ltb_ge in B; lia).
      reflexivity.
  - unfold counterInRange. cbn [setInvoiceSequences invoiceSequences].
    rewrite lookup_insert_eq.
    cbn [InvoiceSequence.default InvoiceSequence.nextNumber].
    change (1 + 1 <=? int4_max)%Z with true. change (1 <? int4_max)%Z with true.
    cbn [outcome state commits setInvoiceSequences invoiceSequences].
    rewrite lookup_alter_eq, lookup_insert_eq.
    cbn [fmap option_fmap option_map outcome state commits].
    split; [reflexivity |].
    unfold setInvoiceSequences. cbn [clients invoices invoiceItems payments invoiceSequences].
    f_equal.
    apply map_eq. intros k. destruct (decide (k = userId)) as [->|Hne].
    + rewrite lookup_alter_eq, !lookup_insert_eq. reflexivity.
    + rewrite lookup_alter_ne, !lookup_insert_ne by congruence. reflexivity.
Qed.

Lemma generateInvoiceNumber_run :
  InvoiceSequence.nextNumber seq < int4_max ->
  let r := generateInvoiceNumber userId d in
  outcome r = Ok (formatInvoiceNumber (InvoiceSequence.prefix seq)
                    (InvoiceSequence.nextNumber seq) (InvoiceSequence.padding seq))
  /\ state r = setInvoiceSequences (insert userId (incrementNextNumber seq)) d.
Proof.
  intros H. pose proof generateInvoiceNumber_cases as C. cbv zeta in C.
  rewrite (proj2 (Z.ltb_lt _ _) H) in C. exact C.
Qed.

Lemma generateInvoiceNumber_overflow :
  int4_max <= InvoiceSequence.nextNumber seq ->
  generateInvoiceNumber userId d = mkRun (Err (DbError "integer out of range")) d [].
Proof.
  intros H. pose proof generateInvoiceNumber_cases as C. cbv zeta in C.
  rewrite (proj2 (Z.ltb_ge _ _) H) in C. exact C.
Qed.

(** An allocation that succeeds was in range. *)
Lemma generateInvoiceNumber_ok (number : string) :
  outcome (generateInvoiceNumber userId d) = Ok number ->
  InvoiceSequence.nextNumber seq < int4_max
  /\ number = formatInvoiceNumber (InvoiceSequence.prefix seq)
                (InvoiceSequence.nextNumber seq) (InvoiceSequence.padding seq)
  /\ state (generateInvoiceNumber userId d)
     = setInvoiceSequences (insert userId (incrementNextNumber seq)) d.
Proof.
  intros Hok. pose proof generateInvoiceNumber_cases as C. cbv zeta in C.
  destruct (InvoiceSequence.nextNumber seq <? int4_max)%Z eqn:B.
  - destruct C as [Ho Hs]. rewrite Ho in Hok. injection Hok as <-.
    apply Z.ltb_lt in B. repeat split; assumption.
  - rewrite C in Hok. discriminate.
Qed.

(** The allocator writes the sequence table only. *)
Lemma generateInvoiceNumber_tables :
  let g := state (generateInvoiceNumber userId d) in
  clients g = clients d /\ invoices g = invoices d /\ invoiceItems g = invoiceItems d
  /\ payments g = payments d.
Proof.
  pose proof generateInvoiceNumber_cases as C. cbv zeta in C |- *.
  destruct (InvoiceSequence.nextNumber seq <? int4_max)%Z.
  - destruct C as [_ ->]. repeat split.
  - rewrite C. repeat split.
Qed.

End Allocator.

Lemma alter_found {V} (f : V -> V) (k : string) (m : gmap string V) (v : V) :
  m !! k = Some v -> alter f k m = <[k := f v]> m.
Proof.
  intros E. apply map_eq. intros j. destruct (decide (j = k)) as [->|Hne].
  - rewrite lookup_alter_eq, lookup_insert_eq, E. reflexivity.
  - rewrite lookup_alter_ne, lookup_insert_ne by congruence. reflexivity.
Qed.

Section TotalsRoute.

Variables (invoiceId : string) (d : Db).

(** The totals of an invoice that exists are written in one commit, or
    the write is refused and nothing changes. *)
Lemma calculateInvoiceTotals_run (invoice : Invoice.t) :
  invoices d !! invoiceId = Some invoice ->
  let subtotal := Number (sumAmounts (itemsOf invoiceId (invoiceItems d))) in
  let totals := computeTotals subtotal invoice in
  let d' := setInvoices (alter (storeTotals subtotal totals) invoiceId) d in
  calculateInvoiceTotals invoiceId d
  = if totalsFit (storeTotals subtotal totals invoice)
    then mkRun (Ok tt) d' [d']
    else mkRun (Err (DbError "numeric field overflow")) d [].
Proof.
  intros E. unfold calculateInvoiceTotals, bind, select, execute, throw, ret.
  cbn [outcome state commits]. rewrite E. cbv zeta.
  destruct (totalsFit _); reflexivity.
Qed.


Lemma calculateInvoiceTotals_overflow (invoice : Invoice.t) :
  invoices d !! invoiceId = Some invoice ->
  let subtotal := Number (sumAmounts (itemsOf invoiceId (invoiceItems d))) in
  let totals := computeTotals subtotal invoice in
  totalsFit (storeTotals subtotal totals invoice) = false ->
  calculateInvoiceTotals invoiceId d
  = mkRun (Err (DbError "numeric field overflow")) d [].
Proof.
  intros E subtotal totals Hfit. rewrite (calculateInvoiceTotals_run _ E).
  fold subtotal. fold totals. rewrite Hfit. reflexivity.
Qed.

Lemma calculateInvoiceTotals_missing :
  invoices d !! invoiceId = None ->
  calculateInvoiceTotals invoiceId d = mkRun (Ok tt) d [].
Proof.
  intros E. unfold calculateInvoiceTotals, bind, select, execute, ret. simpl.
  rewrite E. reflexivity.
Qed.

(** A run that fails has written nothing; a run that succeeds has
    committed the state it leaves, or found no invoice. *)
Lemma calculateInvoiceTotals_cases :
  let c := calculateInvoiceTotals invoiceId d in
  (exists e, outcome c = Err e /\ state c = d /\ commits c = [])
  \/ (outcome c = Ok tt /\ commits c = [state c])
  \/ (outcome c = Ok tt /\ state c = d /\ commits c = []).
Proof.
  cbv zeta. destruct (invoices d !! invoiceId) as [invoice|] eqn:E.
  - rewrite (calculateInvoiceTotals_run _ E). destruct (totalsFit _).
    + right. left. split; reflexivity.
    + left. eexists. repeat split.
  - rewrite (calculateInvoiceTotals_missing E). right. right. repeat split.
Qed.

(** The state a run leaves when it finds the invoice. *)
Lemma written_state (row : Invoice.t) :
  invoices d !! invoiceId = Some row ->
  let subtotal := Number (sumAmounts (itemsOf invoiceId (invoiceItems d))) in
  let stored := storeTotals subtotal (computeTotals subtotal row) row in
  state (calculateInvoiceTotals invoiceId d)
  = mkDb (clients d)
      (<[invoiceId := if totalsFit stored then stored else row]> (invoices d))
      (invoiceItems d) (payments d) (invoiceSequences d).
Proof.
  intros Hrow subtotal stored. rewrite (calculateInvoiceTotals_run _ Hrow).
  fold subtotal. fold stored. destruct (totalsFit stored); cbn [state].
  - unfold setInvoices. rewrite (alter_found _ _ _ _ Hrow). reflexivity.
  - rewrite (insert_id _ _ _ Hrow). destruct d; reflexivity.
Qed.

(** A run that succeeds on an invoice it finds has stored the totals. *)
Lemma calculateInvoiceTotals_ok_fit (row : Invoice.t) :
  invoices d !! invoiceId = Some row ->
  outcome (calculateInvoiceTotals invoiceId d) = Ok tt ->
  let subtotal := Number (sumAmounts (itemsOf invoiceId (invoiceItems d))) in
  totalsFit (storeTotals subtotal (computeTotals subtotal row) row) = true.
Proof.
  intros Hrow Hok subtotal. rewrite (calculateInvoiceTotals_run _ Hrow) in Hok.
  fold subtotal in Hok. destruct (totalsFit _); [reflexivity | discriminate].
Qed.

End TotalsRoute.

Lemma insertInvoice_Ok (id : string) (row : Invoice.t) (d d' : Db) :
  insertInvoice id row d = Ok d' ->
  d' = setInvoices (insert id row) d /\ invoices d !! id = None.
Proof.
  unfold insertInvoice. intros H.
  destruct (invoices d !! id) as [x|] eqn:E.
  - rewrite bool_decide_eq_true_2 in H by (eexists; reflexivity). discriminate.
  - repeat match type of H with
           | (if ?c then _ else _) = _ => destruct c; [discriminate |]
           end.
    split; congruence.
Qed.

Section CreateRoute.

Variables (uuid userId : string) (body : CreateBody.t) (d : Db).

Local Opaque generateInvoiceNumber insertItems insertInvoice calculateInvoiceTotals.

Let g := generateInvoiceNumber userId d.
Let seq := default InvoiceSequence.default (invoiceSequences d !! userId).
Let number :=
  formatInvoiceNumber (InvoiceSequence.prefix seq) (InvoiceSequence.nextNumber seq)
    (InvoiceSequence.padding seq).
Let row :=
  newInvoice userId (CreateBody.client_id body) number
    (default 0%Q (CreateBody.tax_rate body)) (CreateBody.discount_type body)
    (default 0%Q (CreateBody.discount_value body)).

(** The callback of the transaction of [POST /]. *)
Let callback : Tx string :=
  let* invoiceNumber := onDb (generateInvoiceNumber userId) in
  let* _ := tx_try (insertInvoice uuid
                      (newInvoice userId (CreateBody.client_id body) invoiceNumber
                         (default 0%Q (CreateBody.tax_rate body))
                         (CreateBody.discount_type body)
                         (default 0%Q (CreateBody.discount_value body)))) in
  let* _ := insertItems uuid (default [] (CreateBody.items body)) 0 in
  ret uuid.

Lemma createInvoice_callback :
  let r := callback (mkTx d (fun x => x)) in
  outer (state r) = state g
  /\ commits r = commits g
  /\ match outcome r with
     | Ok a =>
         a = uuid
         /\ outcome g = Ok number
         /\ insertInvoice uuid row (state g) = Ok (setInvoices (insert uuid row) (state g))
         /\ exists rows,
             Forall (fun it => InvoiceItem.invoiceId it = uuid) rows
             /\ view (state r) = setInvoiceItems (fun old => (old ++ rows)%list)
                                   (setInvoices (insert uuid row) (state g))
     | Err _ => True
     end.
Proof.
  unfold callback.
  destruct (outcome g) as [n|e] eqn:Hout; cycle 1.
  { rewrite (bind_err _ _ _ e) by exact Hout. simpl. repeat split. }
  destruct (generateInvoiceNumber_ok userId d n Hout) as (_ & Hn & _).
  fold seq in Hn. fold number in Hn. subst n.
  rewrite (bind_ok _ _ _ number) by exact Hout.
  simpl. fold g row.
  destruct (insertInvoice uuid row (state g)) as [d'|e] eqn:Hins.
  - assert (d' = setInvoices (insert uuid row) (state g)) as ->
      by apply (insertInvoice_Ok _ _ _ _ Hins).
    destruct (tx_try_ok (insertInvoice uuid row) (mkTx (state g) (fun x => x)) _ Hins)
      as (s' & E & V & O).
    rewrite (bind_ok _ _ _ tt) by (rewrite E; reflexivity).
    rewrite E. simpl.
    destruct (insertItems_run uuid (default [] (CreateBody.items body)) 0 s')
      as (C & O' & R).
    destruct (outcome (insertItems uuid (default [] (CreateBody.items body)) 0 s'))
      as [[]|e] eqn:Hitems.
    + rewrite (bind_ok _ _ _ tt) by exact Hitems. simpl.
      rewrite C, !app_nil_r, O', O. repeat split.
      destruct R as (rows & F & R). exists rows. rewrite R, V. split; [exact F | reflexivity].
    + rewrite (bind_err _ _ _ e) by exact Hitems. simpl.
      rewrite C, !app_nil_r, O', O. repeat split.
  - pose proof (tx_try_err (insertInvoice uuid row) (mkTx (state g) (fun x => x)) e Hins)
      as E.
    rewrite (bind_err _ _ _ e) by (rewrite E; reflexivity).
    rewrite E. simpl. rewrite app_nil_r. repeat split.
Qed.

(** What [POST /] commits.  The allocator commits first, on its own; a
    failure of the transaction leaves the database as the allocator left
    it; otherwise the invoice is committed with its items, and then the
    totals are written, which can fail in its turn. *)
Lemma createInvoice_run :
  validCreate body = true ->
  let r := createInvoice uuid userId body d in
  (exists e, outcome r = Err e /\ state r = state g /\ commits r = commits g)
  \/ exists rows,
       let d1 := setInvoiceItems (fun old => (old ++ rows)%list)
                   (setInvoices (insert uuid row) (state g)) in
       let c := calculateInvoiceTotals uuid d1 in
       outcome g = Ok number
       /\ insertInvoice uuid row (state g) = Ok (setInvoices (insert uuid row) (state g))
       /\ Forall (fun it => InvoiceItem.invoiceId it = uuid) rows
       /\ commits r = (commits g ++ d1 :: commits c)%list
       /\ state r = state c
       /\ outcome r = match outcome c with
                      | Ok _ => Ok (invoices (state c) !! uuid)
                      | Err e => Err e
                      end.
Proof.
  intros Hvalid. unfold createInvoice. rewrite Hvalid. simpl. fold callback.
  destruct createInvoice_callback as (HO & HC & HR).
  destruct (outcome (callback (mkTx d (fun x => x)))) as [a|e] eqn:Hcb.
  - right. destruct HR as (-> & Hg & Hins & rows & F & V).
    rewrite (bind_ok _ _ _ uuid)
      by (rewrite (withTransaction_ok _ _ _ Hcb); reflexivity).
    rewrite (withTransaction_ok _ _ _ Hcb). cbn [state commits outcome]. rewrite V, HC.
    set (d1 := setInvoiceItems _ _).
    exists rows. fold d1. cbv zeta.
    split; [exact Hg |]. split; [exact Hins |]. split; [exact F |].
    destruct (outcome (calculateInvoiceTotals uuid d1)) as [[]|e] eqn:Hc.
    + rewrite (bind_ok _ _ _ tt) by exact Hc. cbn [state commits outcome select].
      rewrite app_nil_r, <- app_assoc. repeat split.
    + rewrite (bind_err _ _ _ e) by exact Hc. cbn [state commits outcome].
      rewrite <- app_assoc. repeat split.
  - left. exists e. rewrite (bind_err _ _ _ e)
      by (rewrite (withTransaction_err _ _ _ Hcb); reflexivity).
    rewrite (withTransaction_err _ _ _ Hcb). simpl. repeat split; assumption.
Qed.

End CreateRoute.

Section CreatedNumber.

Variables (uuid userId : string) (body : CreateBody.t) (d : Db).

(** A created invoice carries the number the allocator formatted from the
    sequence row it found (or the defaults), and the creation leaves the
    sequence tables as the allocator left them. *)
Lemma createInvoice_ok_number (inv : Invoice.t) :
  outcome (createInvoice uuid userId body d) = Ok (Some inv) ->
  let seq := default InvoiceSequence.default (invoiceSequences d !! userId) in
  Invoice.invoiceNumber inv
  = formatInvoiceNumber (InvoiceSequence.prefix seq) (InvoiceSequence.nextNumber seq)
      (InvoiceSequence.padding seq)
  /\ invoiceSequences (state (createInvoice uuid userId body d))
     = <[userId := incrementNextNumber seq]> (invoiceSequences d).
Proof.
  intros Hok seq.
  destruct (validCreate body) eqn:Hvalid.
  - destruct (createInvoice_run uuid userId body d Hvalid)
      as [(e & He & _) | (rows & Hnumber & _ & _ & _ & Hst & Hres)].
    { rewrite He in Hok. discriminate. }
    cbv zeta in Hst, Hres.
    destruct (generateInvoiceNumber_ok userId d _ Hnumber) as (_ & _ & Hg).
    fold seq in Hg.
    set (row := newInvoice _ _ _ _ _ _) in *.
    set (d1 := setInvoiceItems _ _) in *.
    assert (invoices d1 !! uuid = Some row) as Hrow.
    { subst d1. simpl. apply lookup_insert_eq. }
    rewrite Hok in Hres.
    destruct (outcome (calculateInvoiceTotals uuid d1)); [| discriminate].
    rewrite (written_state _ _ _ Hrow) in Hst, Hres. cbv zeta in Hst, Hres.
    cbn [invoices] in Hres. rewrite lookup_insert_eq in Hres.
    injection Hres as ->.
    split; [destruct (totalsFit _); reflexivity |].
    rewrite Hst. subst d1. unfold setInvoices, setInvoiceItems. cbn [invoiceSequences].
    rewrite Hg. reflexivity.
  - unfold createInvoice in Hok. rewrite Hvalid in Hok. discriminate.
Qed.

End CreatedNumber.

(** C9. For a user whose counter is below the largest value of its
    [integer] column, [generateInvoiceNumber(userId)] returns [prefix +
    zeroPad(nextNumber, padding)] taken from the user's sequence row, or
    from the defaults [INV], 1, 4 when the user has no row, and leaves the
    row with [nextNumber] incremented by one; two invoices created
    back-to-back for a user without a sequence row are numbered [INV0001]
    and [INV0002]. *)
Theorem C9_invoice_number_format_and_increment (userId : string) (d : Db) :
  let seq := default InvoiceSequence.default (invoiceSequences d !! userId) in
  let r := generateInvoiceNumber userId d in
  InvoiceSequence.nextNumber seq < int4_max ->
  InvoiceSequence.default = InvoiceSequence.mk "INV" 1 (Some 4)
  /\ outcome r
     = Ok (InvoiceSequence.prefix seq
           ++ padStart (String_of_int (InvoiceSequence.nextNumber seq))
                (default 4 (InvoiceSequence.padding seq)))
  /\ invoiceSequences (state r) !! userId
     = Some (InvoiceSequence.mk (InvoiceSequence.prefix seq)
               (InvoiceSequence.nextNumber seq + 1) (InvoiceSequence.padding seq))
  /\ (forall uuid1 uuid2 body1 body2 inv1 inv2,
        invoiceSequences d !! userId = None ->
        let r1 := createInvoice uuid1 userId body1 d in
        outcome r1 = Ok (Some inv1) ->
        outcome (createInvoice uuid2 userId body2 (state r1)) = Ok (Some inv2) ->
        Invoice.invoiceNumber inv1 = "INV0001" /\ Invoice.invoiceNumber inv2 = "INV0002").
Proof.
  intros seq r Hbound. split; [reflexivity |].
  destruct (generateInvoiceNumber_run userId d Hbound) as [Hout Hst].
  fold seq r in Hout, Hst.
  split; [exact Hout |]. split.
  - rewrite Hst. simpl. apply lookup_insert_eq.
  - intros uuid1 uuid2 body1 body2 inv1 inv2 Hfresh r1 H1 H2.
    destruct (createInvoice_ok_number _ _ _ _ _ H1) as [N1 S1].
    destruct (createInvoice_ok_number _ _ _ _ _ H2) as [N2 _].
    fold r1 in S1. rewrite S1, lookup_insert_eq in N2.
    rewrite Hfresh in N1, N2. split; [exact N1 | exact N2].
Qed.

(** The scenario of C9 run on a database with one client and nothing else:
    the counter starts from the default, 1. *)
Lemma C9_scenario_E :
  let d := mkDb {["c1"]} ∅ [] ∅ ∅ in
  let body := CreateBody.mk "c1" None None None None in
  let r1 := createInvoice "i1" "u1" body d in
  let r2 := createInvoice "i2" "u1" body (state r1) in
  InvoiceSequence.nextNumber (default InvoiceSequence.default (invoiceSequences d !! "u1"))
  < int4_max
  /\ exists inv1 inv2,
       outcome r1 = Ok (Some inv1) /\ outcome r2 = Ok (Some inv2)
       /\ Invoice.invoiceNumber inv1 = "INV0001" /\ Invoice.invoiceNumber inv2 = "INV0002".
Proof.
  intros d body r1 r2.
  assert (InvoiceSequence.nextNumber
            (default InvoiceSequence.default (invoiceSequences d !! "u1")) < int4_max)
    as Hbound by reflexivity.
  split; [exact Hbound |].
  assert (exists inv1, outcome r1 = Ok (Some inv1)) as [inv1 H1]
    by (eexists; vm_compute; reflexivity).
  assert (exists inv2, outcome r2 = Ok (Some inv2)) as [inv2 H2]
    by (eexists; vm_compute; reflexivity).
  exists inv1, inv2. split; [exact H1 |]. split; [exact H2 |].
  destruct (C9_invoice_number_format_and_increment "u1" d Hbound) as (_ & _ & _ & H).
  exact (H "i1" "i2" body body inv1 inv2 eq_refl H1 H2).
Defined.

(** ** Status changes *)

Section StatusRoute.

Variables (now : Z) (userId invoiceId : string) (status : InvoiceStatus) (d : Db).

Lemma setStatus_found (existing : Invoice.t) :
  findInvoice invoiceId userId d = Some existing ->
  let row := statusFields now status existing existing in
  let d' := setInvoices (insert invoiceId row) d in
  setStatus now userId invoiceId status d = mkRun (Ok (Some row)) d' [d'].
Proof.
  intros E. unfold setStatus, bind, select, executeReturning.
  cbn [outcome state commits]. rewrite E.
  assert (invoices d !! invoiceId = Some existing) as Hrow.
  { unfold findInvoice in E. destruct (invoices d !! invoiceId); [| discriminate].
    destruct (bool_decide _); congruence. }
  unfold setInvoices. cbn [invoices].
  rewrite (alter_found _ _ _ _ Hrow), lookup_insert_eq. reflexivity.
Qed.

Lemma setStatus_missing :
  findInvoice invoiceId userId d = None ->
  setStatus now userId invoiceId status d
  = mkRun (Err (NotFoundError "Invoice not found")) d [].
Proof.
  intros E. unfold setStatus, bind, select, throw.
  cbn [outcome state commits]. rewrite E. reflexivity.
Qed.

End StatusRoute.

(** C2 (as the specification states it, refuted).  A cancelled invoice is
    reopened: the status change from [cancelled] to [draft], which the state
    machine of section 4.3 does not permit, is accepted and stored. *)
Lemma C2_cancelled_invoice_reopened :
  let d := handleAll "u1"
             [(1, CreateInvoice "i1" (CreateBody.mk "c1" None None None None));
              (2, SetStatus "i1" cancelled)]
             (mkDb {["c1"]} ∅ [] ∅ ∅) in
  let r := setStatus 3 "u1" "i1" draft d in
  (Invoice.status <$> invoices d !! "i1") = Some cancelled
  /\ spec_permitted cancelled draft = false
  /\ (exists row, outcome r = Ok (Some row) /\ Invoice.status row = draft)
  /\ (Invoice.status <$> invoices (state r) !! "i1") = Some draft
  /\ state r <> d.
Proof.
  cbv zeta. split; [vm_compute; reflexivity |]. split; [reflexivity |].
  split; [eexists; split; vm_compute; reflexivity |].
  split; [vm_compute; reflexivity |].
  intros E. apply (f_equal (fun x => Invoice.status <$> invoices x !! "i1")) in E.
  vm_compute in E. discriminate.
Qed.

(** C2 (amended).  [setStatus] validates no transition: for an invoice of
    the requesting user it accepts every one of the six statuses from every
    current status and stores it, changing beside the status only the
    timestamp of the new status when unset and, for a first [paid], the
    amount paid and the balance; the only rejection is [NotFound], for an
    invoice that does not exist or belongs to another user, and it leaves
    the database unchanged. *)
Theorem C2_setStatus_accepts_every_status
    (now : Z) (userId invoiceId : string) (status : InvoiceStatus) (d : Db) :
  let r := setStatus now userId invoiceId status d in
  match findInvoice invoiceId userId d with
  | Some existing =>
      exists row,
        outcome r = Ok (Some row)
        /\ invoices (state r) !! invoiceId = Some row
        /\ Invoice.status row = status
        /\ row = statusFields now status existing existing
  | None =>
      outcome r = Err (NotFoundError "Invoice not found") /\ state r = d /\ commits r = []
  end.
Proof.
  intros r. subst r.
  destruct (findInvoice invoiceId userId d) as [existing|] eqn:E.
  - rewrite (setStatus_found _ _ _ _ _ _ E). cbn [outcome state].
    eexists. split; [reflexivity |]. split; [apply lookup_insert_eq |].
    split; reflexivity.
  - rewrite (setStatus_missing _ _ _ _ _ E). repeat split.
Qed.

(** ** Totals *)

Section TotalsFacts.

Lemma Number_0 : (Number 0 == 0)%Q.
Proof. reflexivity. Qed.

Lemma toDecimal_zero (x : Q) : (x == 0)%Q -> toDecimal x = 0.
Proof. intros E. rewrite (toDecimal_comp _ _ E). reflexivity. Qed.

Lemma Math_max_0_nonneg (x : Q) : (0 <= x)%Q -> Math_max 0 x = x.
Proof. intros H. unfold Math_max. apply Qle_bool_iff in H. rewrite H. reflexivity. Qed.

Lemma Math_max_0_nonpos (x : Q) : (x <= 0)%Q -> (Math_max 0 x == 0)%Q.
Proof.
  intros H. unfold Math_max. destruct (Qle_bool 0 x) eqn:E; [| reflexivity].
  apply Qle_bool_iff in E. apply Qle_antisym; assumption.
Qed.



Lemma computeTotals_balanceDue (subtotal : Q) (invoice : Invoice.t) :
  t_balanceDue (computeTotals subtotal invoice)
  = (t_total (computeTotals subtotal invoice) - Number (Invoice.amountPaid invoice))%Q.
Proof. reflexivity. Qed.










End TotalsFacts.




(** ** Rounding of the stored totals *)

(** C5.  One item of 11.12, a 30% discount and 3% tax.  The route carries
    the unrounded discount 3.336 into the tax and the unrounded tax into
    the total: it stores 3.34, 0.23 and a total of 8.02, which is not the
    stored subtotal less the stored discount plus the stored tax.  Rounding
    at each derived-field boundary, under either rounding rule, gives
    11.12 - 3.34 = 7.78, tax 0.23 and total 8.01, and so does the SQL
    function [calculate_invoice_totals] that the route's helper
    replaces. *)
Theorem C5_total_not_from_rounded_steps :
  let item := ItemInput.mk (Some "work") (Some 1%Q) (Some (1112 # 100)%Q) in
  let r := createInvoice "i1" "u1"
             (CreateBody.mk "c1" (Some 3%Q) (Some "percentage") (Some 30%Q) (Some [item]))
             (mkDb {["c1"]} ∅ [] ∅ ∅) in
  exists row procedure,
    outcome r = Ok (Some row)
    /\ Invoice.subtotal row = 1112 /\ Invoice.discountAmount row = 334
    /\ Invoice.taxAmount row = 23 /\ Invoice.total row = 802
    /\ s_total (spec_roundedTotals toDecimal 1112 row) = 801
    /\ s_total (spec_roundedTotals toDecimalHalfEven 1112 row) = 801
    /\ invoices (calculate_invoice_totals "i1" (state r)) !! "i1" = Some procedure
    /\ Invoice.discountAmount procedure = 334 /\ Invoice.taxAmount procedure = 23
    /\ Invoice.total procedure = 801
    /\ Invoice.total row
       <> Invoice.subtotal row - Invoice.discountAmount row + Invoice.taxAmount row.
Proof.
  cbv zeta. do 2 eexists. split; [vm_compute; reflexivity |].
  do 6 (split; [vm_compute; reflexivity |]).
  split; [vm_compute; reflexivity |].
  do 3 (split; [vm_compute; reflexivity |]).
  vm_compute. discriminate.
Qed.

(** ** Runs that break the specification *)

(** C1.  The stored balance goes negative.  After a payment of 150.00 and
    one of 10.00 on an invoice of 100.00, deleting the second payment stores
    a balance of -50.00 where [max(0, total - amountPaid)] is 0.00: the
    deletion clamps the amount paid, not the balance, although the addition
    clamps the balance.  And replacing the items of an invoice of 100.00 on
    which 50.00 was paid by one item of 30.00 stores a balance of -20.00:
    [calculateInvoiceTotals] does not clamp either. *)
Theorem C1_balanceDue_negative :
  let d := mkDb {["c1"]} ∅ [] ∅ ∅ in
  let create :=
    CreateInvoice "i1"
      (CreateBody.mk "c1" None None None
         (Some [ItemInput.mk (Some "work") (Some 1%Q) (Some 100%Q)])) in
  let afterDelete :=
    handleAll "u1"
      [(1, create); (2, AddPayment "p1" "i1" 150); (3, AddPayment "p2" "i1" 10);
       (4, DeletePayment "i1" "p2")] d in
  let afterUpdate :=
    handleAll "u1"
      [(1, create); (2, AddPayment "p1" "i1" 50);
       (3, UpdateInvoice "i1"
             (UpdateBody.mk None None None None
                (Some [ItemInput.mk (Some "less") (Some 1%Q) (Some 30%Q)])))] d in
  (exists row,
     invoices afterDelete !! "i1" = Some row
     /\ Invoice.total row = 10000 /\ Invoice.amountPaid row = 15000
     /\ Invoice.balanceDue row = -5000 /\ spec_balanceDue row = 0)
  /\ (exists row,
        invoices afterUpdate !! "i1" = Some row
        /\ Invoice.total row = 3000 /\ Invoice.amountPaid row = 5000
        /\ Invoice.balanceDue row = -2000 /\ spec_balanceDue row = 0).
Proof.
  cbv zeta. split; eexists; (split; [vm_compute; reflexivity |]); repeat split.
Qed.

(** C7.  A further payment on a paid invoice overwrites [paidAt].  The
    invoice of 100.00 is paid in full at time 5; a payment of 20.00 recorded
    at time 9 leaves the status [paid] and sets [paidAt] to 9.  The status
    route guards the timestamp with [!existing.paidAt]; the payment route
    has no such guard. *)
Theorem C7_paidAt_overwritten_by_further_payment :
  let d := mkDb {["c1"]} ∅ [] ∅ ∅ in
  let create :=
    CreateInvoice "i1"
      (CreateBody.mk "c1" None None None
         (Some [ItemInput.mk (Some "work") (Some 1%Q) (Some 100%Q)])) in
  let paidInFull := handleAll "u1" [(1, create); (5, AddPayment "p1" "i1" 100)] d in
  let paidAgain := handleAll "u1" [(9, AddPayment "p2" "i1" 20)] paidInFull in
  (exists row,
     invoices paidInFull !! "i1" = Some row
     /\ Invoice.status row = paid /\ Invoice.paidAt row = Some 5)
  /\ (exists row,
        invoices paidAgain !! "i1" = Some row
        /\ Invoice.status row = paid /\ Invoice.paidAt row = Some 9).
Proof.
  cbv zeta. split; eexists; (split; [vm_compute; reflexivity |]); repeat split.
Qed.

(** C8.  A failed creation consumes a number.  For a user without a
    sequence row, a creation whose item has no description passes the
    validators and fails on the insert of the item; the transaction rolls
    back and no invoice is stored, but the sequence row stays at 2, because
    the allocator runs on the pool connection and not on the transaction.
    The next creation is numbered [INV0002]: the user's only invoice, and
    [INV0001] was never issued. *)
Theorem C8_failed_creation_leaves_gap :
  let d := mkDb {["c1"]} ∅ [] ∅ ∅ in
  let noDescription :=
    CreateBody.mk "c1" None None None (Some [ItemInput.mk None (Some 1%Q) (Some 10%Q)]) in
  let good :=
    CreateBody.mk "c1" None None None
      (Some [ItemInput.mk (Some "work") (Some 1%Q) (Some 10%Q)]) in
  let failed := createInvoice "i1" "u1" noDescription d in
  let created := createInvoice "i2" "u1" good (state failed) in
  validCreate noDescription = true
  /\ outcome failed = Err (DbError "invoice_items.description not null")
  /\ invoices (state failed) = ∅
  /\ invoiceItems (state failed) = []
  /\ (InvoiceSequence.nextNumber <$> invoiceSequences (state failed) !! "u1") = Some 2
  /\ (exists row, outcome created = Ok (Some row) /\ Invoice.invoiceNumber row = "INV0002")
  /\ invoiceNumbersOf (state created) "u1" = ["INV0002"].
Proof.
  cbv zeta. split; [reflexivity |]. split; [vm_compute; reflexivity |].
  split; [vm_compute; reflexivity |]. split; [vm_compute; reflexivity |].
  split; [vm_compute; reflexivity |].
  split; [eexists; split; vm_compute; reflexivity |].
  vm_compute. reflexivity.
Qed.

(** C10 (as the specification states it, refuted).  Creating an invoice
    with one item of 100.00 commits four states in turn.  In the third one
    the invoice and its item are written and the stored subtotal and total
    are still 0.00: the totals are computed after the transaction has
    committed. *)
Lemma C10_items_committed_before_totals :
  let d := mkDb {["c1"]} ∅ [] ∅ ∅ in
  let r := createInvoice "i1" "u1"
             (CreateBody.mk "c1" None None None
                (Some [ItemInput.mk (Some "work") (Some 1%Q) (Some 100%Q)])) d in
  exists d0 d1 d2 d3 row,
    commits r = [d0; d1; d2; d3]
    /\ state r = d3
    /\ invoices d2 !! "i1" = Some row
    /\ sumAmounts (itemsOf "i1" (invoiceItems d2)) = 10000
    /\ Invoice.subtotal row = 0 /\ Invoice.total row = 0
    /\ subtotalMatchesItems d2 "i1" = false
    /\ subtotalMatchesItems d3 "i1" = true.
Proof.
  cbv zeta. do 5 eexists. split; [vm_compute; reflexivity |].
  split; [vm_compute; reflexivity |]. split; [vm_compute; reflexivity |].
  repeat split.
Qed.

(** ** Payments *)

Lemma findInvoice_lookup (invoiceId userId : string) (d : Db) (invoice : Invoice.t) :
  findInvoice invoiceId userId d = Some invoice ->
  invoices d !! invoiceId = Some invoice /\ Invoice.userId invoice = userId.
Proof.
  unfold findInvoice. destruct (invoices d !! invoiceId) as [row|]; [| discriminate].
  destruct (bool_decide (Invoice.userId row = userId)) eqn:B; [| discriminate].
  intros [= ->]. apply bool_decide_eq_true in B. split; [reflexivity | exact B].
Qed.

Lemma findPayment_lookup (paymentId invoiceId : string) (d : Db) (payment : Payment.t) :
  findPayment paymentId invoiceId d = Some payment ->
  payments d !! paymentId = Some payment /\ Payment.invoiceId payment = invoiceId.
Proof.
  unfold findPayment. destruct (payments d !! paymentId) as [row|]; [| discriminate].
  destruct (bool_decide (Payment.invoiceId row = invoiceId)) eqn:B; [| discriminate].
  intros [= ->]. apply bool_decide_eq_true in B. split; [reflexivity | exact B].
Qed.

Lemma bind_select {A B} (q : Db -> A) (k : A -> M B) (d : Db) :
  bind (select q) k d = k (q d) d.
Proof. unfold bind, select. cbn [outcome state commits app]. destruct (k (q d) d); reflexivity. Qed.

Section PaymentRoutes.

Variables (userId invoiceId : string) (d : Db).

(** A payment that passes the checks is recorded, with the invoice
    update, in one commit. *)
Lemma addPayment_ok (now : Z) (uuid : string) (amount : Q) (invoice : Invoice.t) :
  isFloatMin (1 # 100) amount = true ->
  findInvoice invoiceId userId d = Some invoice ->
  Invoice.status invoice <> cancelled ->
  payments d !! uuid = None ->
  let payment := Payment.mk invoiceId (toDecimal amount) in
  let d' := setInvoices (insert invoiceId (paymentAdded now amount invoice invoice))
              (setPayments (insert uuid payment) d) in
  addPayment now uuid userId invoiceId amount d = mkRun (Ok payment) d' [d'].
Proof.
  intros Hamount Hfind Hstatus Hfresh payment d'.
  destruct (findInvoice_lookup _ _ _ _ Hfind) as [Hrow _].
  unfold addPayment. rewrite Hamount. cbn [negb].
  rewrite bind_select, Hfind.
  rewrite bool_decide_eq_false_2 by exact Hstatus.
  cbv zeta. fold payment.
  assert (insertPayment uuid payment d = Ok (setPayments (insert uuid payment) d)) as Hins.
  { unfold insertPayment. rewrite Hfresh. reflexivity. }
  destruct (tx_try_ok (insertPayment uuid payment) (mkTx d (fun x => x)) _ Hins)
    as (s' & E & V & O).
  set (callback := bind (tx_try _) _).
  assert (callback (mkTx d (fun x => x))
          = mkRun (Ok payment)
              (mkTx (outer s')
                 (fun x => setInvoices (alter (paymentAdded now amount invoice) invoiceId)
                             (pending s' x)))
              []) as Hcb.
  { subst callback. rewrite (bind_ok _ _ _ tt) by (rewrite E; reflexivity).
    rewrite E. reflexivity. }
  rewrite (withTransaction_ok callback d payment) by (rewrite Hcb; reflexivity).
  rewrite Hcb. unfold view. cbn [outcome state commits app outer pending].
  change (pending s' (outer s')) with (view s'). rewrite V.
  unfold setInvoices, setPayments. cbn [invoices payments clients invoiceItems
                                          invoiceSequences].
  rewrite (alter_found _ _ _ _ Hrow). reflexivity.
Qed.

(** Deleting a payment of the invoice removes the row and updates the
    invoice in one commit. *)
Lemma deletePayment_ok (paymentId : string) (invoice : Invoice.t) (payment : Payment.t) :
  findInvoice invoiceId userId d = Some invoice ->
  findPayment paymentId invoiceId d = Some payment ->
  let d' := setInvoices (insert invoiceId (paymentDeleted payment invoice invoice))
              (setPayments (delete paymentId) d) in
  deletePayment userId invoiceId paymentId d = mkRun (Ok tt) d' [d'].
Proof.
  intros Hfind Hpay d'.
  destruct (findInvoice_lookup _ _ _ _ Hfind) as [Hrow _].
  unfold deletePayment.
  rewrite bind_select, Hfind, bind_select, Hpay.
  set (callback := bind (tx_execute _) _).
  assert (callback (mkTx d (fun x => x))
          = mkRun (Ok tt)
              (mkTx d
                 (fun x => setInvoices (alter (paymentDeleted payment invoice) invoiceId)
                             (setPayments (delete paymentId) x)))
              []) as Hcb by reflexivity.
  rewrite (withTransaction_ok callback d tt) by (rewrite Hcb; reflexivity).
  rewrite Hcb. unfold view. cbn [outcome state commits app outer pending].
  unfold setInvoices, setPayments. cbn [invoices payments clients invoiceItems
                                          invoiceSequences].
  rewrite (alter_found _ _ _ _ Hrow). reflexivity.
Qed.

End PaymentRoutes.

Section RoundTrip.

Variables (now : Z) (invoice : Invoice.t).
Hypothesis Hunpaid : Invoice.amountPaid invoice = 0.

Let paidInvoice := paymentAdded now (Number (Invoice.total invoice)) invoice invoice.

Lemma paymentAdded_in_full :
  Invoice.status paidInvoice = paid
  /\ Invoice.balanceDue paidInvoice = 0
  /\ Invoice.amountPaid paidInvoice = Invoice.total invoice
  /\ Invoice.paidAt paidInvoice = Some now
  /\ Invoice.total paidInvoice = Invoice.total invoice
  /\ Invoice.sentAt paidInvoice = Invoice.sentAt invoice
  /\ Invoice.userId paidInvoice = Invoice.userId invoice.
Proof.
  subst paidInvoice. unfold paymentAdded. rewrite Hunpaid.
  set (t := Number (Invoice.total invoice)).
  assert (Number 0 + t == t)%Q as Epaid by (rewrite Number_0; ring).
  assert (t - (Number 0 + t) == 0)%Q as Ebal by (rewrite Number_0; ring).
  assert (Qle_bool (t - (Number 0 + t)) 0 = true) as Hle
    by (apply Qle_bool_iff; rewrite Ebal; apply Qle_refl).
  cbn [Invoice.status Invoice.balanceDue Invoice.amountPaid Invoice.paidAt Invoice.total
         Invoice.sentAt Invoice.userId].
  rewrite Hle. rewrite bool_decide_eq_true_2 by reflexivity.
  repeat split.
  - apply toDecimal_zero, Math_max_0_nonpos. rewrite Ebal. apply Qle_refl.
  - rewrite (toDecimal_comp _ _ Epaid). apply toDecimal_Number.
Qed.

Hypothesis Hpositive : 1 <= Invoice.total invoice.

Variable payment : Payment.t.
Hypothesis Hamount : Payment.amount payment = Invoice.total invoice.

Let reverted := paymentDeleted payment paidInvoice paidInvoice.

Lemma paymentDeleted_after_payment_in_full :
  Invoice.status reverted
  = match Invoice.sentAt invoice with Some _ => sent | None => draft end
  /\ Invoice.paidAt reverted = None
  /\ Invoice.balanceDue reverted = Invoice.total invoice
  /\ Invoice.amountPaid reverted = 0.
Proof.
  destruct paymentAdded_in_full as (Hst & _ & Hpaid & _ & Htotal & Hsent & _).
  fold paidInvoice in Hst, Hpaid, Htotal, Hsent.
  subst reverted. unfold paymentDeleted.
  rewrite Hst, Hpaid, Htotal, Hsent, Hamount.
  set (t := Number (Invoice.total invoice)).
  assert (t - t == 0)%Q as Epaid by ring.
  assert (t - (t - t) == t)%Q as Ebal by ring.
  assert (Qle_bool (t - (t - t)) 0 = false) as Hgt.
  { destruct (Qle_bool (t - (t - t)) 0) eqn:B; [| reflexivity].
    apply Qle_bool_iff in B. rewrite Ebal in B. subst t.
    unfold Number, Qle in B. simpl in B. lia. }
  cbn [Invoice.status Invoice.balanceDue Invoice.amountPaid Invoice.paidAt].
  rewrite Hgt. rewrite bool_decide_eq_true_2 by reflexivity. cbn [negb andb].
  repeat split.
  - destruct (Invoice.sentAt invoice); rewrite bool_decide_eq_true_2 by discriminate;
      reflexivity.
  - rewrite (toDecimal_comp _ _ Ebal). apply toDecimal_Number.
  - apply toDecimal_zero, Math_max_0_nonpos. rewrite Epaid. apply Qle_refl.
Qed.

End RoundTrip.

(** C6.  Payment round trip.  On an invoice that is not cancelled, has
    nothing paid and owes its total, a payment of exactly the total (which
    the route accepts when it is at least 0.01) sets the status to [paid],
    the balance to zero and [paidAt]; deleting that payment then sets the
    status to [sent] if [sentAt] is set and to [draft] otherwise, clears
    [paidAt] and restores the balance to the total. *)
Theorem C6_payment_round_trip
    (now : Z) (uuid userId invoiceId : string) (d : Db) (invoice : Invoice.t) :
  findInvoice invoiceId userId d = Some invoice ->
  Invoice.status invoice <> cancelled ->
  Invoice.amountPaid invoice = 0 ->
  Invoice.balanceDue invoice = Invoice.total invoice ->
  1 <= Invoice.total invoice ->
  payments d !! uuid = None ->
  let added := addPayment now uuid userId invoiceId (Number (Invoice.total invoice)) d in
  let deleted := deletePayment userId invoiceId uuid (state added) in
  exists paidInvoice reverted,
    outcome added = Ok (Payment.mk invoiceId (Invoice.total invoice))
    /\ invoices (state added) !! invoiceId = Some paidInvoice
    /\ Invoice.status paidInvoice = paid
    /\ Invoice.balanceDue paidInvoice = 0
    /\ Invoice.paidAt paidInvoice = Some now
    /\ outcome deleted = Ok tt
    /\ invoices (state deleted) !! invoiceId = Some reverted
    /\ Invoice.status reverted
       = match Invoice.sentAt invoice with Some _ => sent | None => draft end
    /\ Invoice.paidAt reverted = None
    /\ Invoice.balanceDue reverted = Invoice.total invoice
    /\ Invoice.amountPaid reverted = 0
    /\ payments (state deleted) = payments d.
Proof.
  intros Hfind Hstatus Hunpaid _ Hpositive Hfresh added deleted.
  destruct (findInvoice_lookup _ _ _ _ Hfind) as [Hrow Huser].
  assert (isFloatMin (1 # 100) (Number (Invoice.total invoice)) = true) as Hamount.
  { apply Qle_bool_iff. unfold Number, Qle. simpl. lia. }
  pose proof (addPayment_ok userId invoiceId d now uuid _ invoice Hamount Hfind Hstatus Hfresh)
    as Hadd.
  cbv zeta in Hadd. rewrite toDecimal_Number in Hadd. fold added in Hadd.
  set (payment := Payment.mk invoiceId (Invoice.total invoice)) in *.
  set (paidInvoice := paymentAdded now (Number (Invoice.total invoice)) invoice invoice) in *.
  destruct (paymentAdded_in_full now invoice Hunpaid) as (P1 & P2 & P3 & P4 & P5 & P6 & P7).
  fold paidInvoice in P1, P2, P3, P4, P5, P6, P7.
  destruct (paymentDeleted_after_payment_in_full now invoice Hunpaid Hpositive payment eq_refl)
    as (R1 & R2 & R3 & R4).
  fold paidInvoice in R1, R2, R3, R4.
  assert (findInvoice invoiceId userId (state added) = Some paidInvoice) as Hfind'.
  { rewrite Hadd. unfold findInvoice, setInvoices. cbn [state invoices].
    rewrite lookup_insert_eq, P7, Huser, bool_decide_eq_true_2 by reflexivity. reflexivity. }
  assert (findPayment uuid invoiceId (state added) = Some payment) as Hpay'.
  { rewrite Hadd. unfold findPayment, setInvoices, setPayments. cbn [state payments].
    rewrite lookup_insert_eq. cbn [Payment.invoiceId payment].
    rewrite bool_decide_eq_true_2 by reflexivity. reflexivity. }
  pose proof (deletePayment_ok userId invoiceId (state added) uuid paidInvoice payment
                Hfind' Hpay') as Hdel.
  cbv zeta in Hdel. fold deleted in Hdel.
  exists paidInvoice, (paymentDeleted payment paidInvoice paidInvoice).
  rewrite Hdel, Hadd. unfold setInvoices, setPayments.
  cbn [outcome state invoices payments].
  rewrite !lookup_insert_eq.
  repeat split; try assumption.
  apply delete_insert_id. exact Hfresh.
Qed.

(** C6 at the invoice of 88.00 of the specification's scenarios, sent and
    unpaid. *)
Lemma C6_payment_round_trip_witness :
  let d := handleAll "u1"
             [(1, CreateInvoice "i1"
                    (CreateBody.mk "c1" (Some 10%Q) (Some "percentage") (Some 20%Q)
                       (Some [ItemInput.mk (Some "work") (Some 2%Q) (Some 50%Q)])));
              (2, SetStatus "i1" sent)]
             (mkDb {["c1"]} ∅ [] ∅ ∅) in
  let added := addPayment 3 "p1" "u1" "i1" (Number 8800) d in
  let deleted := deletePayment "u1" "i1" "p1" (state added) in
  exists paidInvoice reverted,
    invoices (state added) !! "i1" = Some paidInvoice
    /\ Invoice.status paidInvoice = paid
    /\ invoices (state deleted) !! "i1" = Some reverted
    /\ Invoice.status reverted = sent
    /\ Invoice.balanceDue reverted = 8800.
Proof.
  intros d added deleted.
  assert (exists invoice, findInvoice "i1" "u1" d = Some invoice
                          /\ Invoice.status invoice = sent
                          /\ Invoice.amountPaid invoice = 0
                          /\ Invoice.balanceDue invoice = 8800
                          /\ Invoice.total invoice = 8800
                          /\ Invoice.sentAt invoice = Some 2)
    as (invoice & F & S & A & B & T & Se).
  { eexists. split; [vm_compute; reflexivity |]. repeat split. }
  assert (payments d !! "p1" = None) as Hfresh by (vm_compute; reflexivity).
  destruct (C6_payment_round_trip 3 "p1" "u1" "i1" d invoice F) as
    (paidInvoice & reverted & _ & L1 & S1 & _ & _ & _ & L2 & S2 & _ & B2 & _).
  - rewrite S. discriminate.
  - exact A.
  - rewrite B, T. reflexivity.
  - rewrite T. lia.
  - exact Hfresh.
  - rewrite T in *. rewrite Se in S2.
    exists paidInvoice, reverted. repeat split; assumption.
Defined.

(** ** Every outcome of the payment routes *)

Section PaymentCases.

Variables (userId invoiceId : string) (d : Db).

(** [POST /:id/payments] either fails and leaves the database as it was,
    committing nothing, or records the payment in a single commit. *)
Lemma addPayment_cases (now : Z) (uuid : string) (amount : Q) :
  (exists e, addPayment now uuid userId invoiceId amount d = mkRun (Err e) d [])
  \/ (exists invoice,
        isFloatMin (1 # 100) amount = true
        /\ findInvoice invoiceId userId d = Some invoice
        /\ Invoice.status invoice <> cancelled
        /\ payments d !! uuid = None
        /\ let payment := Payment.mk invoiceId (toDecimal amount) in
           let d' := setInvoices (insert invoiceId (paymentAdded now amount invoice invoice))
                       (setPayments (insert uuid payment) d) in
           addPayment now uuid userId invoiceId amount d = mkRun (Ok payment) d' [d']).
Proof.
  destruct (isFloatMin (1 # 100) amount) eqn:Hamount; cycle 1.
  { left. eexists. unfold addPayment. rewrite Hamount. reflexivity. }
  destruct (findInvoice invoiceId userId d) as [invoice|] eqn:Hfind; cycle 1.
  { left. eexists. unfold addPayment. rewrite Hamount. cbn [negb].
    rewrite bind_select, Hfind. reflexivity. }
  destruct (decide (Invoice.status invoice = cancelled)) as [Hc|Hc].
  { left. eexists. unfold addPayment. rewrite Hamount. cbn [negb].
    rewrite bind_select, Hfind, bool_decide_eq_true_2 by exact Hc. reflexivity. }
  destruct (payments d !! uuid) as [other|] eqn:Hfresh.
  { left. eexists. unfold addPayment. rewrite Hamount. cbn [negb].
    rewrite bind_select, Hfind, bool_decide_eq_false_2 by exact Hc.
    cbv zeta.
    assert (insertPayment uuid (Payment.mk invoiceId (toDecimal amount)) d
            = Err (DbError "payments_pkey")) as Hins.
    { unfold insertPayment. rewrite Hfresh. reflexivity. }
    pose proof (tx_try_err (insertPayment uuid (Payment.mk invoiceId (toDecimal amount)))
                  (mkTx d (fun x => x)) _ Hins) as E.
    set (callback := bind (tx_try _) _).
    assert (callback (mkTx d (fun x => x))
            = mkRun (Err (DbError "payments_pkey")) (mkTx d (fun x => x)) []) as Hcb.
    { subst callback. rewrite (bind_err _ _ _ (DbError "payments_pkey"))
        by (rewrite E; reflexivity).
      rewrite E. reflexivity. }
    rewrite (withTransaction_err callback d (DbError "payments_pkey"))
      by (rewrite Hcb; reflexivity).
    rewrite Hcb. reflexivity. }
  right. exists invoice. repeat split; try assumption.
  apply addPayment_ok; assumption.
Qed.

(** [DELETE /:invoiceId/payments/:paymentId] either fails and leaves the
    database as it was, or removes the payment in a single commit. *)
Lemma deletePayment_cases (paymentId : string) :
  (exists e, deletePayment userId invoiceId paymentId d = mkRun (Err e) d [])
  \/ (exists invoice payment,
        findInvoice invoiceId userId d = Some invoice
        /\ findPayment paymentId invoiceId d = Some payment
        /\ let d' := setInvoices (insert invoiceId (paymentDeleted payment invoice invoice))
                       (setPayments (delete paymentId) d) in
           deletePayment userId invoiceId paymentId d = mkRun (Ok tt) d' [d']).
Proof.
  destruct (findInvoice invoiceId userId d) as [invoice|] eqn:Hfind; cycle 1.
  { left. eexists. unfold deletePayment. rewrite bind_select, Hfind. reflexivity. }
  destruct (findPayment paymentId invoiceId d) as [payment|] eqn:Hpay; cycle 1.
  { left. eexists. unfold deletePayment.
    rewrite bind_select, Hfind, bind_select, Hpay. reflexivity. }
  right. exists invoice, payment. repeat split.
  apply deletePayment_ok; assumption.
Qed.

End PaymentCases.

(** ** Every outcome of the update route *)

Lemma setInvoices_alter_found (f : Invoice.t -> Invoice.t) (id : string) (d : Db)
    (row : Invoice.t) :
  invoices d !! id = Some row ->
  setInvoices (alter f id) d = setInvoices (insert id (f row)) d.
Proof. intros E. unfold setInvoices. rewrite (alter_found _ _ _ _ E). reflexivity. Qed.

Section UpdateRoute.

Variables (userId invoiceId : string) (body : UpdateBody.t) (d : Db).

Local Opaque insertItems calculateInvoiceTotals.

Let callback (existing : Invoice.t) : Tx unit :=
  let* _ := tx_try (updateInvoiceRow invoiceId body existing) in
  match UpdateBody.items body with
  | None => ret tt
  | Some items =>
      let* _ := tx_execute
                  (setInvoiceItems
                     (filter (fun it => InvoiceItem.invoiceId it <> invoiceId))) in
      insertItems invoiceId items 0
  end.

Lemma updateInvoice_callback (existing : Invoice.t) :
  let r := callback existing (mkTx d (fun x => x)) in
  commits r = [] /\ outer (state r) = d
  /\ match outcome r with
     | Ok _ => exists g,
         view (state r)
         = setInvoiceItems g (setInvoices (alter (editInvoice body existing) invoiceId) d)
     | Err _ => True
     end.
Proof.
  unfold callback.
  destruct (updateInvoiceRow invoiceId body existing d) as [d1|e] eqn:Hrow.
  - assert (d1 = setInvoices (alter (editInvoice body existing) invoiceId) d) as ->.
    { unfold updateInvoiceRow in Hrow. destruct (bool_decide _); congruence. }
    destruct (tx_try_ok (updateInvoiceRow invoiceId body existing) (mkTx d (fun x => x))
                _ Hrow) as (s' & E & V & O).
    rewrite (bind_ok _ _ _ tt) by (rewrite E; reflexivity).
    rewrite E. cbn [state commits outcome app].
    destruct (UpdateBody.items body) as [items|].
    + set (s'' := mkTx (outer s')
                    (fun x => setInvoiceItems
                                (filter (fun it => InvoiceItem.invoiceId it <> invoiceId))
                                (pending s' x))).
      assert (tx_execute
                (setInvoiceItems (filter (fun it => InvoiceItem.invoiceId it <> invoiceId)))
                s' = mkRun (Ok tt) s'' []) as Hex by reflexivity.
      rewrite (bind_ok _ _ _ tt) by (rewrite Hex; reflexivity).
      rewrite Hex. cbn [state commits outcome app].
      destruct (insertItems_run invoiceId items 0 s'') as (C & O' & R).
      rewrite C, O'. split; [reflexivity |]. split; [exact O |].
      destruct (outcome (insertItems invoiceId items 0 s'')); [| exact I].
      destruct R as (rows & _ & R). rewrite R. subst s''. unfold view at 1.
      cbn [outer pending].
      change (pending s' (outer s')) with (view s'). rewrite V.
      eexists (fun old => _). unfold setInvoiceItems. cbn [invoiceItems]. reflexivity.
    + cbn [ret outcome state commits]. rewrite O. repeat split.
      exists (fun old => old). rewrite V. reflexivity.
  - pose proof (tx_try_err _ (mkTx d (fun x => x)) _ Hrow) as E.
    rewrite (bind_err _ _ _ e) by (rewrite E; reflexivity).
    rewrite E. repeat split.
Qed.

(** [PUT /:id] either fails and leaves the database as it was, or commits
    the edited invoice with its items and then writes the totals, which
    can fail in its turn. *)
Lemma updateInvoice_cases :
  (exists e, updateInvoice userId invoiceId body d = mkRun (Err e) d [])
  \/ (exists existing g,
        findInvoice invoiceId userId d = Some existing
        /\ Invoice.status existing <> paid /\ Invoice.status existing <> cancelled
        /\ let d1 := setInvoiceItems g
                       (setInvoices (insert invoiceId (editInvoice body existing existing)) d) in
           let c := calculateInvoiceTotals invoiceId d1 in
           updateInvoice userId invoiceId body d
           = mkRun (match outcome c with
                    | Ok _ => Ok (invoices (state c) !! invoiceId)
                    | Err e => Err e
                    end)
               (state c) (d1 :: commits c)).
Proof.
  unfold updateInvoice.
  destruct (validUpdate body); cycle 1.
  { left. eexists. reflexivity. }
  cbn [negb]. rewrite bind_select.
  destruct (findInvoice invoiceId userId d) as [existing|] eqn:Hfind; cycle 1.
  { left. eexists. reflexivity. }
  destruct (findInvoice_lookup _ _ _ _ Hfind) as [Hrow _].
  destruct (decide (Invoice.status existing = paid)) as [Hp|Hp].
  { left. eexists. rewrite bool_decide_eq_true_2 by exact Hp. reflexivity. }
  destruct (decide (Invoice.status existing = cancelled)) as [Hc|Hc].
  { left. eexists. rewrite (bool_decide_eq_true_2 (_ = cancelled)) by exact Hc.
    rewrite orb_true_r. reflexivity. }
  rewrite !bool_decide_eq_false_2 by assumption. cbn [orb].
  fold (callback existing).
  destruct (updateInvoice_callback existing) as (C & O & R).
  destruct (outcome (callback existing (mkTx d (fun x => x)))) as [[]|e] eqn:Hcb.
  - right. destruct R as (g & V). exists existing, g.
    split; [reflexivity |]. split; [exact Hp |]. split; [exact Hc |]. cbv zeta.
    rewrite (bind_ok _ _ _ tt) by (rewrite (withTransaction_ok _ _ _ Hcb); reflexivity).
    rewrite (withTransaction_ok _ _ _ Hcb). cbn [state commits outcome].
    rewrite C, V. rewrite (setInvoices_alter_found _ _ _ _ Hrow).
    set (d1 := setInvoiceItems g _).
    destruct (outcome (calculateInvoiceTotals invoiceId d1)) as [[]|e] eqn:Hcalc.
    + rewrite (bind_ok _ _ _ tt) by exact Hcalc. cbn [state commits outcome select app].
      rewrite app_nil_r. reflexivity.
    + rewrite (bind_err _ _ _ e) by exact Hcalc. cbn [app]. reflexivity.
  - left. exists e.
    rewrite (bind_err _ _ _ e) by (rewrite (withTransaction_err _ _ _ Hcb); reflexivity).
    rewrite (withTransaction_err _ _ _ Hcb). rewrite C, O. reflexivity.
Qed.

End UpdateRoute.

(** The totals write on an invoice that is stored commits the state it
    leaves, or fails and leaves the state it found. *)
Lemma calculateInvoiceTotals_stored (invoiceId : string) (d1 : Db) :
  is_Some (invoices d1 !! invoiceId) ->
  let c := calculateInvoiceTotals invoiceId d1 in
  (outcome c = Ok tt /\ commits c = [state c])
  \/ (exists e, outcome c = Err e /\ commits c = [] /\ state c = d1).
Proof.
  intros [row Hrow]. cbv zeta. rewrite (calculateInvoiceTotals_run _ _ _ Hrow).
  destruct (totalsFit _).
  - left. split; reflexivity.
  - right. eexists. repeat split.
Qed.

(** C10 (amended).  Payment add and payment delete are atomic: each either
    fails, committing nothing and leaving the database as it was, or commits
    exactly once.  A full update either fails the same way or commits, in
    one transaction, the edited invoice with its replaced items; the
    recomputed totals are written after that commit, by a statement of
    their own: when it succeeds it is a second commit, and when it fails (a
    total beyond the range of its column) the request fails with the first
    commit in place.  A creation either fails leaving no invoice and no
    item behind, or commits, after the number allocation, the invoice with
    all its items in one transaction, and then writes the totals in the
    same two ways.  So between the two commits of a creation or an update,
    and for good when the totals write fails, the items are stored while
    the totals are not updated. *)
Theorem C10_commits_of_the_mutations (now : Z) (userId : string) (d : Db) :
  (forall uuid invoiceId amount,
      let r := addPayment now uuid userId invoiceId amount d in
      ((exists e, outcome r = Err e) /\ state r = d /\ commits r = [])
      \/ ((exists payment, outcome r = Ok payment) /\ commits r = [state r]))
  /\ (forall invoiceId paymentId,
         let r := deletePayment userId invoiceId paymentId d in
         ((exists e, outcome r = Err e) /\ state r = d /\ commits r = [])
         \/ (outcome r = Ok tt /\ commits r = [state r]))
  /\ (forall invoiceId body,
         let r := updateInvoice userId invoiceId body d in
         ((exists e, outcome r = Err e) /\ state r = d /\ commits r = [])
         \/ (exists d1,
               let c := calculateInvoiceTotals invoiceId d1 in
               is_Some (invoices d1 !! invoiceId)
               /\ ((exists res, outcome r = Ok res /\ outcome c = Ok tt
                                /\ commits r = [d1; state r] /\ state r = state c)
                   \/ (exists e, outcome r = Err e /\ outcome c = Err e
                                 /\ commits r = [d1] /\ state r = d1))))
  /\ (forall uuid body,
         let r := createInvoice uuid userId body d in
         let allocated := commits (generateInvoiceNumber userId d) in
         ((exists e, outcome r = Err e)
          /\ invoices (state r) = invoices d /\ invoiceItems (state r) = invoiceItems d)
         \/ (exists d1,
               let c := calculateInvoiceTotals uuid d1 in
               is_Some (invoices d1 !! uuid)
               /\ ((exists res, outcome r = Ok res /\ outcome c = Ok tt
                                /\ commits r = (allocated ++ [d1; state r])%list
                                /\ state r = state c)
                   \/ (exists e, outcome r = Err e /\ outcome c = Err e
                                 /\ commits r = (allocated ++ [d1])%list
                                 /\ state r = d1)))).
Proof.
  split; [| split; [| split]].
  - intros uuid invoiceId amount r. subst r.
    destruct (addPayment_cases userId invoiceId d now uuid amount)
      as [[e E] | (invoice & _ & _ & _ & _ & E)]; rewrite E.
    + left. split; [exists e; reflexivity |]. split; reflexivity.
    + right. split; [eexists; reflexivity | reflexivity].
  - intros invoiceId paymentId r. subst r.
    destruct (deletePayment_cases userId invoiceId d paymentId)
      as [[e E] | (invoice & payment & _ & _ & E)]; rewrite E.
    + left. split; [exists e; reflexivity |]. split; reflexivity.
    + right. split; reflexivity.
  - intros invoiceId body r. subst r.
    destruct (updateInvoice_cases userId invoiceId body d)
      as [[e E] | (existing & g & _ & _ & _ & E)]; rewrite E.
    + left. split; [exists e; reflexivity |]. split; reflexivity.
    + right. cbv zeta.
      set (d1 := setInvoiceItems g _).
      assert (is_Some (invoices d1 !! invoiceId)) as Hrow.
      { subst d1. unfold setInvoiceItems, setInvoices. cbn [invoices].
        rewrite lookup_insert_eq. eexists. reflexivity. }
      exists d1. split; [exact Hrow |]. cbn [outcome state commits].
      destruct (calculateInvoiceTotals_stored invoiceId d1 Hrow)
        as [[Ho Hc] | (e & Ho & Hc & Hs)].
      * left. rewrite Ho, Hc. eexists. repeat split.
      * right. rewrite Ho, Hc, Hs. exists e. repeat split.
  - intros uuid body r allocated. subst r allocated.
    destruct (validCreate body) eqn:Hvalid.
    + destruct (createInvoice_run uuid userId body d Hvalid)
        as [(e & Ho & Hs & _) | (rows & _ & _ & _ & Hc & Hs & Ho)].
      * left. split; [exists e; exact Ho |]. rewrite Hs.
        destruct (generateInvoiceNumber_tables userId d) as (_ & Hi & Hit & _).
        split; assumption.
      * right. cbv zeta in Hc, Hs, Ho.
        set (d1 := setInvoiceItems _ _) in *.
        assert (is_Some (invoices d1 !! uuid)) as Hrow.
        { subst d1. unfold setInvoiceItems, setInvoices. cbn [invoices].
          rewrite lookup_insert_eq. eexists. reflexivity. }
        exists d1. split; [exact Hrow |].
        destruct (calculateInvoiceTotals_stored uuid d1 Hrow)
          as [[Ho' Hc'] | (e & Ho' & Hc' & Hs')].
        -- left. rewrite Ho' in Ho. rewrite Hc' in Hc. rewrite Hc, Ho, Hs.
           eexists. repeat split. exact Ho'.
        -- right. rewrite Ho' in Ho. rewrite Hc' in Hc. rewrite Hc, Ho, Hs, Hs'.
           exists e. repeat split. exact Ho'.
    + left. unfold createInvoice. rewrite Hvalid. split; [eexists; reflexivity |].
      split; reflexivity.
Qed.

(** ** The amount paid and the payments *)

Section PaymentsTotal.

Let add (invoiceId : string) : string -> Payment.t -> Z -> Z :=
  fun _ p acc =>
    if bool_decide (Payment.invoiceId p = invoiceId) then Payment.amount p + acc else acc.

Lemma add_comm (invoiceId : string) (j1 j2 : string) (z1 z2 : Payment.t) (y : Z) :
  add invoiceId j1 z1 (add invoiceId j2 z2 y) = add invoiceId j2 z2 (add invoiceId j1 z1 y).
Proof. unfold add. repeat destruct (bool_decide _); lia. Qed.

Lemma paymentsTotal_insert (d : Db) (pid : string) (p : Payment.t) (invoiceId : string) :
  payments d !! pid = None ->
  paymentsTotal (setPayments (insert pid p) d) invoiceId
  = (if bool_decide (Payment.invoiceId p = invoiceId) then Payment.amount p else 0)
    + paymentsTotal d invoiceId.
Proof.
  intros Hfresh. unfold paymentsTotal, setPayments. cbn [payments].
  rewrite map_fold_insert_L.
  - destruct (bool_decide _); lia.
  - intros j1 j2 z1 z2 y _ _ _. apply (add_comm invoiceId j1 j2).
  - exact Hfresh.
Qed.


Lemma paymentsTotal_same_payments (d d' : Db) (invoiceId : string) :
  payments d' = payments d -> paymentsTotal d' invoiceId = paymentsTotal d invoiceId.
Proof. intros E. unfold paymentsTotal. rewrite E. reflexivity. Qed.


(** No payment of the invoice, no amount. *)
Lemma paymentsTotal_none (d : Db) (invoiceId : string) :
  map_Forall (fun _ p => Payment.invoiceId p <> invoiceId) (payments d) ->
  paymentsTotal d invoiceId = 0.
Proof.
  unfold paymentsTotal. generalize (payments d). intros m.
  apply (map_fold_weak_ind
           (fun (r : Z) (m : gmap string Payment.t) =>
              map_Forall (fun _ p => Payment.invoiceId p <> invoiceId) m -> r = 0)).
  - reflexivity.
  - intros i x m' r Hfresh IH Hall.
    apply map_Forall_insert in Hall; [| exact Hfresh]. destruct Hall as [Hx Hm].
    rewrite bool_decide_eq_false_2 by exact Hx. apply IH, Hm.
Qed.


End PaymentsTotal.

Section LedgerInvariant.

(** Rewriting a stored invoice without touching its amount paid keeps the
    invariant, whatever happens to the items and the sequences. *)
Lemma ledgerInvariant_rewrite_invoice (d d' : Db) (id : string) (existing row : Invoice.t) :
  invoices d !! id = Some existing ->
  Invoice.amountPaid row = Invoice.amountPaid existing ->
  invoices d' = <[id := row]> (invoices d) ->
  payments d' = payments d ->
  ledgerInvariant d -> ledgerInvariant d'.
Proof.
  intros Hrow Hpaid Hinv Hpay (Hc & Hp & Hfk).
  unfold ledgerInvariant, amountPaidConsistent, paymentsPositive, paymentsReferToInvoices.
  rewrite Hinv, Hpay. split; [| split].
  - intros k r Hk. rewrite (paymentsTotal_same_payments d d' k Hpay).
    destruct (decide (k = id)) as [->|Hne].
    + rewrite lookup_insert_eq in Hk. injection Hk as <-. rewrite Hpaid.
      apply (Hc id existing Hrow).
    + rewrite lookup_insert_ne in Hk by congruence. apply (Hc k r Hk).
  - exact Hp.
  - intros k p Hk. specialize (Hfk k p Hk). cbn beta in Hfk |- *.
    destruct (decide (Payment.invoiceId p = id)) as [->|Hne].
    + rewrite lookup_insert_eq. eexists. reflexivity.
    + rewrite lookup_insert_ne by congruence. exact Hfk.
Qed.

Lemma ledgerInvariant_same_tables (d d' : Db) :
  invoices d' = invoices d -> payments d' = payments d ->
  ledgerInvariant d -> ledgerInvariant d'.
Proof.
  intros Hinv Hpay (Hc & Hp & Hfk).
  unfold ledgerInvariant, amountPaidConsistent, paymentsPositive, paymentsReferToInvoices.
  rewrite Hinv, Hpay. split; [| split]; try assumption.
  intros k r Hk. rewrite (paymentsTotal_same_payments d d' k Hpay). apply (Hc k r Hk).
Qed.

(** The totals write touches neither the amount paid nor the payments. *)
Lemma ledgerInvariant_calculateInvoiceTotals (invoiceId : string) (d : Db) :
  ledgerInvariant d -> ledgerInvariant (state (calculateInvoiceTotals invoiceId d)).
Proof.
  intros Hinv. destruct (invoices d !! invoiceId) as [row|] eqn:Hrow.
  - rewrite (written_state _ _ _ Hrow). cbv zeta.
    match goal with
    | |- ledgerInvariant (mkDb _ (<[_ := ?r]> _) _ _ _) =>
        apply (ledgerInvariant_rewrite_invoice d _ invoiceId row r Hrow)
    end; try reflexivity; [| exact Hinv].
    destruct (totalsFit _); reflexivity.
  - rewrite (calculateInvoiceTotals_missing _ _ Hrow). exact Hinv.
Qed.

Variables (now : Z) (userId : string) (d : Db).
Hypothesis Hinv : ledgerInvariant d.





End LedgerInvariant.

Section LedgerInvariantCreate.

(** A new invoice with nothing paid keeps the invariant: no payment can
    refer to an invoice that did not exist. *)
Lemma ledgerInvariant_insert_invoice (d d' : Db) (id : string) (row : Invoice.t) :
  invoices d !! id = None ->
  Invoice.amountPaid row = 0 ->
  invoices d' = <[id := row]> (invoices d) ->
  payments d' = payments d ->
  ledgerInvariant d -> ledgerInvariant d'.
Proof.
  intros Hfresh Hpaid Hinv Hpay (Hc & Hp & Hfk).
  unfold ledgerInvariant, amountPaidConsistent, paymentsPositive, paymentsReferToInvoices.
  rewrite Hinv, Hpay. split; [| split].
  - intros k r Hk. rewrite (paymentsTotal_same_payments d d' k Hpay).
    destruct (decide (k = id)) as [->|Hne].
    + rewrite lookup_insert_eq in Hk. injection Hk as <-. rewrite Hpaid.
      symmetry. apply paymentsTotal_none.
      intros j p Hj Heq. specialize (Hfk j p Hj). cbn beta in Hfk.
      rewrite Heq, Hfresh in Hfk. destruct Hfk as [x Hx]. discriminate.
    + rewrite lookup_insert_ne in Hk by congruence. apply (Hc k r Hk).
  - exact Hp.
  - intros k p Hk. specialize (Hfk k p Hk). cbn beta in Hfk |- *.
    destruct (decide (Payment.invoiceId p = id)) as [->|Hne].
    + rewrite lookup_insert_eq. eexists. reflexivity.
    + rewrite lookup_insert_ne by congruence. exact Hfk.
Qed.

Variables (userId : string) (d : Db).
Hypothesis Hinv : ledgerInvariant d.


End LedgerInvariantCreate.




(** * Further properties *)

(** ** Decimal strings *)

Section DecimalStrings.

Lemma to_uint_unorm (p : positive) : Decimal.unorm (Pos.to_uint p) = Pos.to_uint p.
Proof.
  rewrite <- DecimalPos.Unsigned.to_of, DecimalPos.Unsigned.of_to. reflexivity.
Qed.

Lemma to_uint_no_leading_zero (p : positive) (u : Decimal.uint) :
  Pos.to_uint p <> Decimal.D0 u.
Proof.
  intros E. pose proof (to_uint_unorm p) as U.
  destruct (Decimal.nzhead (Pos.to_uint p)) eqn:N.
  1: { apply (DecimalPos.Unsigned.to_uint_nonzero p).
       rewrite <- U. apply DecimalFacts.unorm_0. exact N. }
  all: apply (DecimalFacts.nzhead_nonzero (Pos.to_uint p) u);
    rewrite <- DecimalFacts.unorm_nzhead by (rewrite N; discriminate);
    rewrite U; exact E.
Qed.

Lemma string_of_uint_nonempty (u : Decimal.uint) : NilZero.string_of_uint u <> "".
Proof. destruct u; discriminate. Qed.

Lemma String_of_int_nonempty (n : Z) : String_of_int n <> "".
Proof.
  unfold String_of_int. destruct (Z.to_int n); simpl; [| discriminate].
  apply string_of_uint_nonempty.
Qed.

Lemma String_of_int_leading_zero (n : Z) (rest : string) :
  String_of_int n = "0" ++ rest -> n = 0.
Proof.
  simpl. destruct n as [|p|p]; [reflexivity | |].
  - unfold String_of_int. simpl. intros E. exfalso.
    destruct (Pos.to_uint p) eqn:U; try discriminate.
    + exact (DecimalPos.Unsigned.to_uint_nonnil p U).
    + exact (to_uint_no_leading_zero p _ U).
  - discriminate.
Qed.

Lemma String_of_int_inj (n m : Z) : String_of_int n = String_of_int m -> n = m.
Proof.
  unfold String_of_int. intros E.
  apply DecimalZ.to_int_inj.
  assert (forall z, Z.to_int z <> Decimal.Pos Decimal.Nil
                    /\ Z.to_int z <> Decimal.Neg Decimal.Nil) as NN.
  { intros [|p|p]; split; try discriminate;
      intros [= H]; exact (DecimalPos.Unsigned.to_uint_nonnil p H). }
  assert (Some (Z.to_int n) = Some (Z.to_int m)) as [= ->]; [| reflexivity].
  rewrite <- (NilZero.isi (Z.to_int n)) by apply NN.
  rewrite <- (NilZero.isi (Z.to_int m)) by apply NN.
  rewrite E. reflexivity.
Qed.

Lemma append_inj_l (p a b : string) : p ++ a = p ++ b -> a = b.
Proof. induction p as [|c p IH]; simpl; [auto |]. intros [= H]. auto. Qed.

Lemma padded_inj (a b : nat) (n m : Z) :
  repeatChar "0" a ++ String_of_int n = repeatChar "0" b ++ String_of_int m -> n = m.
Proof.
  revert b. induction a as [|a IH]; intros [|b]; simpl.
  - apply String_of_int_inj.
  - intros E. pose proof (String_of_int_leading_zero _ _ E) as ->.
    injection E as E. destruct (repeatChar "0" b); simpl in E.
    + symmetry in E. destruct (String_of_int_nonempty _ E).
    + discriminate.
  - intros E. symmetry in E. pose proof (String_of_int_leading_zero _ _ E) as ->.
    injection E as E. destruct (repeatChar "0" a); simpl in E.
    + symmetry in E. destruct (String_of_int_nonempty _ E).
    + discriminate.
  - intros [= E]. exact (IH _ E).
Qed.

Lemma formatInvoiceNumber_inj (prefix : string) (n m : Z) (p q : option Z) :
  formatInvoiceNumber prefix n p = formatInvoiceNumber prefix m q -> n = m.
Proof.
  unfold formatInvoiceNumber, padStart. intros E.
  apply append_inj_l in E. exact (padded_inj _ _ _ _ E).
Qed.

End DecimalStrings.

(** ** Invoice settings *)

Lemma bind_execute {B} (f : Db -> Db) (k : unit -> M B) (d : Db) :
  bind (execute f) k d
  = mkRun (outcome (k tt (f d))) (state (k tt (f d))) (f d :: commits (k tt (f d))).
Proof. reflexivity. Qed.

Section SettingsRoutes.

Variables (userId : string) (d : Db).

Lemma getInvoiceSettings_missing :
  invoiceSequences d !! userId = None ->
  let d' := setInvoiceSequences (insert userId InvoiceSequence.default) d in
  getInvoiceSettings userId d
  = mkRun (Ok (InvoiceSettings.mk "INV" 1 (Some 4) "INV0001")) d' [d'].
Proof.
  intros E. unfold getInvoiceSettings. rewrite bind_select, E. reflexivity.
Qed.

Lemma getInvoiceSettings_found (settings : InvoiceSequence.t) :
  invoiceSequences d !! userId = Some settings ->
  getInvoiceSettings userId d
  = mkRun (Ok (InvoiceSettings.mk (InvoiceSequence.prefix settings)
                 (InvoiceSequence.nextNumber settings) (InvoiceSequence.padding settings)
                 (formatInvoiceNumber (InvoiceSequence.prefix settings)
                    (InvoiceSequence.nextNumber settings)
                    (InvoiceSequence.padding settings))))
      d [].
Proof.
  intros E. unfold getInvoiceSettings. rewrite bind_select, E. reflexivity.
Qed.

(** The row [PUT /invoice] leaves for the user. *)
Lemma updateInvoiceSettings_valid (body : SettingsBody.t) :
  let prefix := trim <$> SettingsBody.prefix body in
  let padding := SettingsBody.padding body in
  validSettings prefix padding = true ->
  let settings :=
    match invoiceSequences d !! userId with
    | None => InvoiceSequence.mk (orDefaultString prefix "INV") 1
                (Some (orDefaultInt padding 4))
    | Some current => editSequence prefix padding current current
    end in
  let d' := setInvoiceSequences (insert userId settings) d in
  updateInvoiceSettings userId body d
  = mkRun (Ok (InvoiceSettings.mk (InvoiceSequence.prefix settings)
                 (InvoiceSequence.nextNumber settings) (InvoiceSequence.padding settings)
                 (formatInvoiceNumber (InvoiceSequence.prefix settings)
                    (InvoiceSequence.nextNumber settings)
                    (InvoiceSequence.padding settings))))
      d' [d'].
Proof.
  intros prefix padding Hvalid settings d'.
  unfold updateInvoiceSettings. fold prefix padding. rewrite Hvalid. cbn [negb].
  rewrite bind_select.
  destruct (invoiceSequences d !! userId) as [current|] eqn:E.
  - assert (setInvoiceSequences (alter (editSequence prefix padding current) userId) d = d')
      as Hd.
    { subst d'. unfold setInvoiceSequences. rewrite (alter_found _ _ _ _ E). reflexivity. }
    rewrite bind_execute, Hd, bind_select.
    assert (invoiceSequences d' !! userId = Some settings) as ->.
    { subst d'. unfold setInvoiceSequences. cbn [invoiceSequences]. apply lookup_insert_eq. }
    reflexivity.
  - rewrite bind_execute. fold settings. fold d'. rewrite bind_select.
    assert (invoiceSequences d' !! userId = Some settings) as ->.
    { subst d'. unfold setInvoiceSequences. cbn [invoiceSequences]. apply lookup_insert_eq. }
    reflexivity.
Qed.

Lemma updateInvoiceSettings_invalid (body : SettingsBody.t) :
  validSettings (trim <$> SettingsBody.prefix body) (SettingsBody.padding body) = false ->
  updateInvoiceSettings userId body d = mkRun (Err BadRequest) d [].
Proof. intros H. unfold updateInvoiceSettings. rewrite H. reflexivity. Qed.

End SettingsRoutes.

(** ** Deleting and duplicating *)

Section DeleteRoute.

Variables (userId invoiceId : string) (d : Db).

Lemma deleteInvoice_found (existing : Invoice.t) :
  findInvoice invoiceId userId d = Some existing ->
  deleteInvoice userId invoiceId d
  = mkRun (Ok tt) (deleteInvoiceRows invoiceId d) [deleteInvoiceRows invoiceId d].
Proof.
  intros E. unfold deleteInvoice, bind, executeReturningOld.
  cbn [outcome state commits]. rewrite E. reflexivity.
Qed.

Lemma deleteInvoice_missing :
  findInvoice invoiceId userId d = None ->
  deleteInvoice userId invoiceId d = mkRun (Err (NotFoundError "Invoice not found")) d [d].
Proof.
  intros E. unfold deleteInvoice, bind, executeReturningOld.
  cbn [outcome state commits]. rewrite E. reflexivity.
Qed.

End DeleteRoute.

Lemma copyItems_run (newId : string) (items : list InvoiceItem.t) :
  forall s : TxState,
    let r := copyItems newId items s in
    outcome r = Ok tt /\ commits r = [] /\ outer (state r) = outer s
    /\ view (state r)
       = setInvoiceItems (fun old => (old ++ map (copyItem newId) items)%list) (view s).
Proof.
  induction items as [|item rest IH]; intros s; simpl.
  - repeat split. unfold setInvoiceItems. rewrite app_nil_r. destruct (view s); reflexivity.
  - unfold bind. cbn [tx_execute outcome state commits app].
    set (s' := mkTx (outer s) _).
    destruct (IH s') as (HO & HC & HOut & HV). cbv zeta in HO, HC, HOut, HV.
    rewrite HO, HC, HOut, HV. repeat split.
    subst s'. unfold view, setInvoiceItems. cbn [outer pending invoiceItems clients invoices
      payments invoiceSequences]. rewrite <- app_assoc. reflexivity.
Qed.

Section DuplicateRoute.

Variables (uuid userId invoiceId : string) (d : Db).

Local Opaque generateInvoiceNumber copyItems insertInvoice calculateInvoiceTotals.

Lemma duplicateInvoice_missing :
  findInvoice invoiceId userId d = None ->
  duplicateInvoice uuid userId invoiceId d
  = mkRun (Err (NotFoundError "Invoice not found")) d [].
Proof. intros E. unfold duplicateInvoice. rewrite bind_select, E. reflexivity. Qed.

(** What [POST /:id/duplicate] commits: the allocator first, on its own,
    then the copy with its items in one transaction; then the totals are
    written, which can fail in its turn. *)
Lemma duplicateInvoice_found (original : Invoice.t) :
  findInvoice invoiceId userId d = Some original ->
  let g := generateInvoiceNumber userId d in
  let rows := map (copyItem uuid) (orderBySortOrder (itemsOf invoiceId (invoiceItems d))) in
  let r := duplicateInvoice uuid userId invoiceId d in
  match outcome g with
  | Ok number =>
      let row := duplicateRow userId number original in
      match insertInvoice uuid row (state g) with
      | Ok _ =>
          let d1 := setInvoiceItems (fun old => (old ++ rows)%list)
                      (setInvoices (insert uuid row) (state g)) in
          let c := calculateInvoiceTotals uuid d1 in
          r = mkRun (match outcome c with
                     | Ok _ => Ok (invoices (state c) !! uuid)
                     | Err e => Err e
                     end)
                (state c) (commits g ++ d1 :: commits c)
      | Err e => r = mkRun (Err e) (state g) (commits g)
      end
  | Err e => r = mkRun (Err e) (state g) (commits g)
  end.
Proof.
  intros Hfind g rows r. subst r.
  unfold duplicateInvoice. rewrite bind_select, Hfind, bind_select. fold rows.
  set (callback := bind (onDb _) _).
  destruct (outcome g) as [number|e] eqn:Hout; cycle 1.
  { assert (callback (mkTx d (fun x => x))
            = mkRun (Err e) (mkTx (state g) (fun x => x)) (commits g)) as Hcb.
    { subst callback. rewrite (bind_err _ _ _ e) by exact Hout. reflexivity. }
    assert (outcome (callback (mkTx d (fun x => x))) = Err e) as Hcbo
      by (rewrite Hcb; reflexivity).
    rewrite (bind_err _ _ _ e) by (rewrite (withTransaction_err _ _ _ Hcbo); reflexivity).
    rewrite (withTransaction_err _ _ _ Hcbo). rewrite Hcb. reflexivity. }
  cbv zeta. set (row := duplicateRow userId number original).
  assert (exists s1, onDb (generateInvoiceNumber userId) (mkTx d (fun x => x))
                     = mkRun (Ok number) s1 (commits g)
                     /\ s1 = mkTx (state g) (fun x => x)) as (s1 & Hon & Hs1).
  { eexists. split; [| reflexivity]. unfold onDb. cbn [outer pending]. fold g.
    rewrite Hout. reflexivity. }
  destruct (insertInvoice uuid row (state g)) as [dins|e] eqn:Hins.
  - assert (dins = setInvoices (insert uuid row) (state g)) as ->
      by apply (insertInvoice_Ok _ _ _ _ Hins).
    destruct (tx_try_ok (insertInvoice uuid row) s1 (setInvoices (insert uuid row) (state g)))
      as (s2 & E & V & O).
    { subst s1. exact Hins. }
    destruct (copyItems_run uuid (orderBySortOrder (itemsOf invoiceId (invoiceItems d))) s2)
      as (HO & HC & HOut & HV).
    cbv zeta in HO, HC, HOut, HV. fold rows in HV.
    set (c := copyItems uuid _ s2) in *.
    assert (callback (mkTx d (fun x => x)) = mkRun (Ok uuid) (state c) (commits g)) as Hcb.
    { subst callback. rewrite (bind_ok _ _ _ number) by (rewrite Hon; reflexivity).
      rewrite Hon. cbn [outcome state commits]. fold row.
      rewrite (bind_ok _ _ _ tt) by (rewrite E; reflexivity).
      rewrite E. cbn [outcome state commits].
      rewrite (bind_ok _ _ _ tt) by exact HO.
      cbn [ret outcome state commits]. fold c. rewrite HC, !app_nil_r. reflexivity. }
    assert (outcome (callback (mkTx d (fun x => x))) = Ok uuid) as Hcbo
      by (rewrite Hcb; reflexivity).
    rewrite (bind_ok _ _ _ uuid) by (rewrite (withTransaction_ok _ _ _ Hcbo); reflexivity).
    rewrite (withTransaction_ok _ _ _ Hcbo). rewrite Hcb. cbn [outcome state commits].
    rewrite HV, V.
    set (d1 := setInvoiceItems _ _).
    destruct (outcome (calculateInvoiceTotals uuid d1)) as [[]|e] eqn:Hcalc.
    + rewrite (bind_ok _ _ _ tt) by exact Hcalc. cbn [outcome state commits select].
      rewrite app_nil_r, <- !app_assoc. reflexivity.
    + rewrite (bind_err _ _ _ e) by exact Hcalc. cbn [outcome state commits].
      rewrite <- !app_assoc. reflexivity.
  - assert (tx_try (insertInvoice uuid row) s1 = mkRun (Err e) s1 []) as E
      by (apply tx_try_err; rewrite Hs1; exact Hins).
    assert (callback (mkTx d (fun x => x)) = mkRun (Err e) s1 (commits g)) as Hcb.
    { subst callback. rewrite (bind_ok _ _ _ number) by (rewrite Hon; reflexivity).
      rewrite Hon. cbn [outcome state commits]. fold row.
      rewrite (bind_err _ _ _ e) by (rewrite E; reflexivity).
      rewrite E. cbn [outcome state commits]. rewrite app_nil_r. reflexivity. }
    assert (outcome (callback (mkTx d (fun x => x))) = Err e) as Hcbo
      by (rewrite Hcb; reflexivity).
    rewrite (bind_err _ _ _ e) by (rewrite (withTransaction_err _ _ _ Hcbo); reflexivity).
    rewrite (withTransaction_err _ _ _ Hcbo). rewrite Hcb, Hs1. reflexivity.
Qed.

End DuplicateRoute.

(** ** Shared facts about the tables *)

Lemma state_bind_ret {A} (m : M A) (d : Db) :
  state (bind m (fun _ => ret tt) d) = state (m d).
Proof. unfold bind. destruct (outcome (m d)); reflexivity. Qed.

Lemma state_bind_select {A B} (m : M A) (q : Db -> B) (d : Db) :
  state (bind m (fun _ => select q) d) = state (m d).
Proof. unfold bind. destruct (outcome (m d)); reflexivity. Qed.


Lemma setInvoices_insert_same (id : string) (row : Invoice.t) (d : Db) :
  invoices d !! id = Some row -> setInvoices (insert id row) d = d.
Proof.
  intros E. unfold setInvoices. rewrite (insert_id _ _ _ E). destruct d; reflexivity.
Qed.

Lemma findInvoice_Some (invoiceId userId : string) (d : Db) (row : Invoice.t) :
  invoices d !! invoiceId = Some row -> Invoice.userId row = userId ->
  findInvoice invoiceId userId d = Some row.
Proof.
  intros E U. unfold findInvoice. rewrite E, bool_decide_eq_true_2 by exact U. reflexivity.
Qed.

Lemma findInvoice_insert (invoiceId userId : string) (d : Db) (row : Invoice.t) :
  Invoice.userId row = userId ->
  findInvoice invoiceId userId (setInvoices (insert invoiceId row) d) = Some row.
Proof.
  intros U. apply findInvoice_Some; [| exact U]. simpl. apply lookup_insert_eq.
Qed.

(** X16.  A repeated status request.  Asking again for the status an invoice
    was just given, at whatever time, is accepted when the first request
    was, and refused with the same error otherwise.  It rewrites the
    invoice (and its [updatedAt]) but leaves these columns as the first
    request left them: the status, the three timestamps [sentAt],
    [viewedAt] and [paidAt] (each is set once), the amount paid, the
    balance due, and the totals with the settings they are computed from.
    The other invoices and the other tables are not touched. *)
Theorem setStatus_repeated (now1 now2 : Z) (userId invoiceId : string)
    (status : InvoiceStatus) (d : Db) :
  let first := setStatus now1 userId invoiceId status d in
  let second := setStatus now2 userId invoiceId status (state first) in
  match outcome first with
  | Ok answer1 =>
      exists row1 row2,
        answer1 = Some row1 /\ outcome second = Ok (Some row2)
        /\ invoices (state first) !! invoiceId = Some row1
        /\ invoices (state second) !! invoiceId = Some row2
        /\ Invoice.status row2 = Invoice.status row1
        /\ Invoice.sentAt row2 = Invoice.sentAt row1
        /\ Invoice.viewedAt row2 = Invoice.viewedAt row1
        /\ Invoice.paidAt row2 = Invoice.paidAt row1
        /\ Invoice.amountPaid row2 = Invoice.amountPaid row1
        /\ Invoice.balanceDue row2 = Invoice.balanceDue row1
        /\ keptTotals row1 row2
  | Err e => outcome second = Err e
  end
  /\ (forall j, j <> invoiceId -> invoices (state second) !! j = invoices (state first) !! j)
  /\ invoiceItems (state second) = invoiceItems (state first)
  /\ payments (state second) = payments (state first)
  /\ invoiceSequences (state second) = invoiceSequences (state first).
Proof.
  intros first second. subst second first.
  destruct (findInvoice invoiceId userId d) as [existing|] eqn:Hfind.
  - destruct (findInvoice_lookup _ _ _ _ Hfind) as [Hrow Hu].
    rewrite (setStatus_found now1 _ _ status _ _ Hfind). cbn [state outcome].
    set (row := statusFields now1 status existing existing).
    assert (findInvoice invoiceId userId (setInvoices (insert invoiceId row) d) = Some row)
      as Hfind1 by (apply findInvoice_insert; exact Hu).
    rewrite (setStatus_found now2 _ _ status _ _ Hfind1). cbn [state outcome].
    assert (statusFields now2 status row row = row) as ->.
    { subst row. unfold statusFields. cbn [Invoice.paidAt Invoice.sentAt Invoice.viewedAt
        Invoice.userId Invoice.clientId Invoice.invoiceNumber Invoice.subtotal Invoice.taxRate
        Invoice.taxAmount Invoice.discountType Invoice.discountValue Invoice.discountAmount
        Invoice.total Invoice.amountPaid Invoice.balanceDue Invoice.status].
      destruct status, (Invoice.sentAt existing), (Invoice.viewedAt existing),
        (Invoice.paidAt existing); reflexivity. }
    rewrite (setInvoices_insert_same invoiceId row (setInvoices (insert invoiceId row) d))
      by (simpl; apply lookup_insert_eq).
    split; [| repeat split].
    exists row, row. cbn [setInvoices invoices]. rewrite lookup_insert_eq.
    repeat split.
  - rewrite (setStatus_missing now1 _ _ status _ Hfind). cbn [state outcome].
    rewrite (setStatus_missing now2 _ _ status _ Hfind). repeat split.
Qed.

Lemma updateInvoice_closed (userId invoiceId : string) (d : Db) (invoice : Invoice.t)
    (body : UpdateBody.t) :
  findInvoice invoiceId userId d = Some invoice ->
  Invoice.status invoice = paid \/ Invoice.status invoice = cancelled ->
  exists e, updateInvoice userId invoiceId body d = mkRun (Err e) d []
            /\ (validUpdate body = true ->
                e = ValidationError
                      ("Cannot edit " ++ statusName (Invoice.status invoice) ++ " invoices")).
Proof.
  intros Hfind Hstatus. unfold updateInvoice.
  destruct (validUpdate body).
  - cbn [negb]. rewrite bind_select, Hfind.
    destruct Hstatus as [-> | ->]; eexists; split; reflexivity.
  - eexists. split; [reflexivity | discriminate].
Qed.

Lemma addPayment_cancelled (now : Z) (uuid userId invoiceId : string) (d : Db)
    (invoice : Invoice.t) (amount : Q) :
  findInvoice invoiceId userId d = Some invoice ->
  Invoice.status invoice = cancelled ->
  exists e, addPayment now uuid userId invoiceId amount d = mkRun (Err e) d []
            /\ (isFloatMin (1 # 100) amount = true ->
                e = ValidationError "Cannot add payment to cancelled invoice").
Proof.
  intros Hfind Hstatus. unfold addPayment.
  destruct (isFloatMin (1 # 100) amount).
  - cbn [negb]. rewrite bind_select, Hfind, Hstatus. eexists. split; reflexivity.
  - eexists. split; [reflexivity | discriminate].
Qed.

(** X18.  Closed invoices are not edited.  However many updates are sent for
    a paid or cancelled invoice, with whatever bodies, each is refused (a
    well-formed one with a validation error that names the status) and the
    database stays as it was. *)
Theorem closed_invoice_refuses_updates (userId invoiceId : string) (d : Db)
    (invoice : Invoice.t) (rs : list (Z * Request)) :
  findInvoice invoiceId userId d = Some invoice ->
  Invoice.status invoice = paid \/ Invoice.status invoice = cancelled ->
  Forall (fun step => exists body, snd step = UpdateInvoice invoiceId body) rs ->
  handleAll userId rs d = d
  /\ Forall (fun step =>
               forall body, snd step = UpdateInvoice invoiceId body ->
                            validUpdate body = true ->
                            outcome (updateInvoice userId invoiceId body d)
                            = Err (ValidationError
                                     ("Cannot edit " ++ statusName (Invoice.status invoice)
                                      ++ " invoices"))) rs.
Proof.
  intros Hfind Hstatus F. induction F as [|[now r] rs [body Hr] F [IH1 IH2]].
  - split; [reflexivity | constructor].
  - cbn [snd] in Hr. subst r.
    destruct (updateInvoice_closed userId invoiceId d invoice body Hfind Hstatus)
      as (e & E & _).
    split.
    + cbn [handleAll handle]. rewrite state_bind_ret, E. exact IH1.
    + constructor; [| exact IH2]. cbn [snd]. intros body' [= <-] Hvalid.
      destruct (updateInvoice_closed userId invoiceId d invoice body Hfind Hstatus)
        as (e' & E' & He'). rewrite E'. cbn [outcome]. rewrite (He' Hvalid). reflexivity.
Qed.

(** X19.  Cancelled invoices take no payment.  However many payments are sent
    for a cancelled invoice, each is refused, no payment row is written and
    the database stays as it was. *)
Theorem cancelled_invoice_refuses_payments (userId invoiceId : string) (d : Db)
    (invoice : Invoice.t) (rs : list (Z * Request)) :
  findInvoice invoiceId userId d = Some invoice ->
  Invoice.status invoice = cancelled ->
  Forall (fun step => exists uuid amount, snd step = AddPayment uuid invoiceId amount) rs ->
  handleAll userId rs d = d.
Proof.
  intros Hfind Hstatus F. induction F as [|[now r] rs (uuid & amount & Hr) F IH].
  - reflexivity.
  - cbn [snd] in Hr. subst r.
    destruct (addPayment_cancelled now uuid userId invoiceId d invoice amount Hfind Hstatus)
      as (e & E & _).
    cbn [handleAll handle]. rewrite state_bind_ret, E. exact IH.
Qed.

(** ** Every operation is a transition *)

Lemma Db_eta (d : Db) :
  mkDb (clients d) (invoices d) (invoiceItems d) (payments d) (invoiceSequences d) = d.
Proof. destruct d; reflexivity. Qed.

Lemma transition_refl (userId : string) (d : Db) : transition userId d d.
Proof.
  rewrite <- (Db_eta d) at 2. apply transition_sequence. left. reflexivity.
Qed.

Lemma sequenceStep_allocator (userId : string) (d : Db) :
  sequenceStep userId (invoiceSequences d)
    (invoiceSequences (state (generateInvoiceNumber userId d))).
Proof.
  pose proof (generateInvoiceNumber_cases userId d) as C. cbv zeta in C.
  destruct (_ <? _)%Z.
  - destruct C as [_ ->]. right. eexists. split; [| reflexivity]. simpl. lia.
  - rewrite C. left. reflexivity.
Qed.

Lemma transition_allocator (userId : string) (d : Db) :
  transition userId d (state (generateInvoiceNumber userId d)).
Proof.
  pose proof (sequenceStep_allocator userId d) as H.
  destruct (generateInvoiceNumber_tables userId d) as (Hc & Hi & Hit & Hp).
  cbv zeta in Hc, Hi, Hit, Hp.
  rewrite <- (Db_eta (state (generateInvoiceNumber userId d))).
  rewrite Hc, Hi, Hit, Hp. apply (transition_sequence userId d _ H).
Qed.

Lemma insertInvoice_Ok_unique (id : string) (row : Invoice.t) (d d' : Db) :
  insertInvoice id row d = Ok d' ->
  Invoice.clientId row ∈ clients d
  /\ invoiceNumberTaken d (Invoice.userId row) (Invoice.invoiceNumber row) = false.
Proof.
  unfold insertInvoice. intros H.
  destruct (bool_decide (is_Some _)); [discriminate |].
  destruct (bool_decide (Invoice.clientId row ∉ clients d)) eqn:C; [discriminate |].
  destruct (invoiceNumberTaken _ _ _); [discriminate |].
  split; [| reflexivity].
  apply bool_decide_eq_false in C. destruct (decide (Invoice.clientId row ∈ clients d)); tauto.
Qed.

Lemma keptFields_refl (row : Invoice.t) : keptFields row row.
Proof. split; reflexivity. Qed.

Lemma keptTotals_refl (row : Invoice.t) : keptTotals row row.
Proof. split; reflexivity. Qed.

Lemma itemsOf_app (j : string) (l1 l2 : list InvoiceItem.t) :
  itemsOf j (l1 ++ l2) = (itemsOf j l1 ++ itemsOf j l2)%list.
Proof. unfold itemsOf. apply filter_app. Qed.

Lemma itemsOf_other (j id : string) (rows : list InvoiceItem.t) :
  j <> id -> Forall (fun it => InvoiceItem.invoiceId it = id) rows -> itemsOf j rows = [].
Proof.
  intros Hne F. unfold itemsOf. induction F as [|x l Hx F IH]; [reflexivity |].
  rewrite filter_cons_False by congruence. exact IH.
Qed.

Lemma itemsOf_own (id : string) (rows : list InvoiceItem.t) :
  Forall (fun it => InvoiceItem.invoiceId it = id) rows -> itemsOf id rows = rows.
Proof.
  intros F. unfold itemsOf. induction F as [|x l Hx F IH]; [reflexivity |].
  rewrite filter_cons_True by exact Hx. rewrite IH. reflexivity.
Qed.

Lemma itemsOf_removed (j id : string) (rows : list InvoiceItem.t) :
  itemsOf j (filter (fun it => InvoiceItem.invoiceId it <> id) rows)
  = if decide (j = id) then [] else itemsOf j rows.
Proof.
  unfold itemsOf. induction rows as [|x l IH]; [destruct (decide _); reflexivity |].
  destruct (decide (InvoiceItem.invoiceId x = id)) as [E|E].
  - rewrite (filter_cons_False (fun it => InvoiceItem.invoiceId it <> id)) by tauto.
    rewrite IH. destruct (decide (j = id)) as [->|Hne]; [reflexivity |].
    rewrite filter_cons_False by congruence. reflexivity.
  - rewrite (filter_cons_True (fun it => InvoiceItem.invoiceId it <> id)) by exact E.
    destruct (decide (InvoiceItem.invoiceId x = j)) as [Ej|Ej].
    + rewrite !filter_cons_True by exact Ej. rewrite IH.
      destruct (decide (j = id)) as [->|Hne]; [contradiction | reflexivity].
    + rewrite !filter_cons_False by exact Ej. exact IH.
Qed.

Section UpdateShape.

Variables (userId invoiceId : string) (body : UpdateBody.t) (d : Db).

Local Opaque insertItems calculateInvoiceTotals.

(** [PUT /:id] either fails and leaves the database as it was, or stores
    the edited row, replaces the items of this invoice alone when [items]
    is given, and recomputes the totals. *)
Lemma updateInvoice_shape :
  (exists e, updateInvoice userId invoiceId body d = mkRun (Err e) d [])
  \/ (exists existing items,
        findInvoice invoiceId userId d = Some existing
        /\ (forall j, j <> invoiceId -> itemsOf j items = itemsOf j (invoiceItems d))
        /\ state (updateInvoice userId invoiceId body d)
           = state (calculateInvoiceTotals invoiceId
                      (mkDb (clients d)
                         (<[invoiceId := editInvoice body existing existing]> (invoices d))
                         items (payments d) (invoiceSequences d)))).
Proof.
  unfold updateInvoice.
  destruct (validUpdate body); cycle 1.
  { left. eexists. reflexivity. }
  cbn [negb]. rewrite bind_select.
  destruct (findInvoice invoiceId userId d) as [existing|] eqn:Hfind; cycle 1.
  { left. eexists. reflexivity. }
  destruct (findInvoice_lookup _ _ _ _ Hfind) as [Hrow _].
  destruct (bool_decide (Invoice.status existing = paid)
            || bool_decide (Invoice.status existing = cancelled)).
  { left. eexists. reflexivity. }
  set (callback := bind (tx_try _) _).
  assert (match outcome (callback (mkTx d (fun x => x))) with
          | Ok _ => exists items,
              (forall j, j <> invoiceId -> itemsOf j items = itemsOf j (invoiceItems d))
              /\ view (state (callback (mkTx d (fun x => x))))
                 = mkDb (clients d)
                     (<[invoiceId := editInvoice body existing existing]> (invoices d))
                     items (payments d) (invoiceSequences d)
          | Err _ => outer (state (callback (mkTx d (fun x => x)))) = d
          end
          /\ commits (callback (mkTx d (fun x => x))) = []) as Hcb.
  { subst callback.
    destruct (updateInvoiceRow invoiceId body existing d) as [d1|e] eqn:Hupd.
    - assert (d1 = setInvoices (insert invoiceId (editInvoice body existing existing)) d) as ->.
      { unfold updateInvoiceRow in Hupd. destruct (bool_decide _); [discriminate |].
        injection Hupd as <-. apply setInvoices_alter_found, Hrow. }
      destruct (tx_try_ok (updateInvoiceRow invoiceId body existing) (mkTx d (fun x => x))
                  _ Hupd) as (s' & E & V & O).
      rewrite (bind_ok _ _ _ tt) by (rewrite E; reflexivity).
      rewrite E. cbn [state commits outcome app].
      destruct (UpdateBody.items body) as [items|].
      + set (s'' := mkTx (outer s')
                      (fun x => setInvoiceItems
                                  (filter (fun it => InvoiceItem.invoiceId it <> invoiceId))
                                  (pending s' x))).
        assert (tx_execute
                  (setInvoiceItems (filter (fun it => InvoiceItem.invoiceId it <> invoiceId)))
                  s' = mkRun (Ok tt) s'' []) as Hex by reflexivity.
        rewrite (bind_ok _ _ _ tt) by (rewrite Hex; reflexivity).
        rewrite Hex. cbn [state commits outcome app].
        destruct (insertItems_run invoiceId items 0 s'') as (C & O' & R).
        rewrite C. split; [| reflexivity].
        destruct (outcome (insertItems invoiceId items 0 s'')).
        * destruct R as (rows & F & R). rewrite R. subst s''. unfold view at 1.
          cbn [outer pending].
          change (pending s' (outer s')) with (view s'). rewrite V.
          eexists. split; [| reflexivity].
          intros j Hne. cbn [invoiceItems setInvoices setInvoiceItems].
          rewrite itemsOf_app, itemsOf_removed, (itemsOf_other j invoiceId rows Hne F).
          rewrite app_nil_r. destruct (decide (j = invoiceId)); [contradiction | reflexivity].
        * rewrite O'. subst s''. cbn [outer]. exact O.
      + cbn [ret outcome state commits]. split; [| reflexivity].
        exists (invoiceItems d). split; [reflexivity |]. rewrite V. reflexivity.
    - pose proof (tx_try_err _ (mkTx d (fun x => x)) _ Hupd) as E.
      rewrite (bind_err _ _ _ e) by (rewrite E; reflexivity).
      rewrite E. split; reflexivity. }
  destruct Hcb as [Hcb HC].
  destruct (outcome (callback (mkTx d (fun x => x)))) as [[]|e] eqn:Hout.
  - right. destruct Hcb as (items & Hitems & V). exists existing, items.
    split; [reflexivity |]. split; [exact Hitems |].
    rewrite (bind_ok _ _ _ tt) by (rewrite (withTransaction_ok _ _ _ Hout); reflexivity).
    rewrite (withTransaction_ok _ _ _ Hout). cbn [state commits outcome].
    rewrite V. apply state_bind_select.
  - left. exists e.
    rewrite (bind_err _ _ _ e) by (rewrite (withTransaction_err _ _ _ Hout); reflexivity).
    rewrite (withTransaction_err _ _ _ Hout). rewrite HC, Hcb. reflexivity.
Qed.

End UpdateShape.

Lemma invoiceNumberTaken_same_invoices (d d' : Db) (userId number : string) :
  invoices d' = invoices d ->
  invoiceNumberTaken d' userId number = invoiceNumberTaken d userId number.
Proof. intros E. unfold invoiceNumberTaken. rewrite E. reflexivity. Qed.

Section RunTransition.

Variables (now : Z) (userId : string) (d : Db).

Lemma createInvoice_transition (uuid : string) (body : CreateBody.t) :
  transition userId d (state (createInvoice uuid userId body d)).
Proof.
  destruct (validCreate body) eqn:Hvalid; cycle 1.
  { unfold createInvoice. rewrite Hvalid. apply transition_refl. }
  pose proof (sequenceStep_allocator userId d) as Hseq.
  destruct (generateInvoiceNumber_tables userId d) as (Hgc & Hgi & Hgit & Hgp).
  cbv zeta in Hgc, Hgi, Hgit, Hgp.
  destruct (createInvoice_run uuid userId body d Hvalid)
    as [(e & _ & Hs & _) | (rows & _ & Hins & F & _ & Hs & _)]; cbv zeta in Hs; rewrite Hs;
    cycle 1.
  - set (row := newInvoice _ _ _ _ _ _) in *.
    destruct (insertInvoice_Ok _ _ _ _ Hins) as [_ Hnone].
    destruct (insertInvoice_Ok_unique _ _ _ _ Hins) as [_ Htaken].
    rewrite Hgi in Hnone.
    rewrite (invoiceNumberTaken_same_invoices d) in Htaken by exact Hgi.
    match goal with
    | |- transition _ _ (state (calculateInvoiceTotals _ ?d1)) =>
        replace d1 with (mkDb (clients d) (<[uuid := row]> (invoices d))
                           (invoiceItems d ++ rows)%list (payments d)
                           (invoiceSequences (state (generateInvoiceNumber userId d))))
          by (unfold setInvoiceItems, setInvoices;
              cbn [clients invoices invoiceItems payments invoiceSequences];
              rewrite Hgc, Hgi, Hgit, Hgp; reflexivity)
    end.
    apply transition_written.
    + exact Hseq.
    + unfold writes. rewrite Hnone.
      split; [reflexivity |]. exact Htaken.
    + intros j Hne. rewrite itemsOf_app, (itemsOf_other j uuid rows Hne F).
      apply app_nil_r.
  - apply transition_allocator.
Qed.

Lemma updateInvoice_transition (invoiceId : string) (body : UpdateBody.t) :
  transition userId d (state (updateInvoice userId invoiceId body d)).
Proof.
  destruct (updateInvoice_shape userId invoiceId body d)
    as [[e E] | (existing & items & Hfind & Hitems & E)]; rewrite E.
  - apply transition_refl.
  - destruct (findInvoice_lookup _ _ _ _ Hfind) as [Hrow Hu].
    apply (transition_written userId d invoiceId _ items (invoiceSequences d)).
    + left. reflexivity.
    + unfold writes. rewrite Hrow. split; [exact Hu |].
      split; reflexivity.
    + exact Hitems.
Qed.

Lemma statusFields_kept (status : InvoiceStatus) (existing : Invoice.t) :
  keptFields existing (statusFields now status existing existing)
  /\ keptTotals existing (statusFields now status existing existing).
Proof.
  split; split; try reflexivity; unfold statusFields; cbn [Invoice.sentAt Invoice.viewedAt];
    intros H; rewrite (bool_decide_eq_false_2 (_ = None)) by exact H;
    rewrite andb_false_r; reflexivity.
Qed.

Lemma setStatus_transition (invoiceId : string) (status : InvoiceStatus) :
  transition userId d (state (setStatus now userId invoiceId status d)).
Proof.
  destruct (findInvoice invoiceId userId d) as [existing|] eqn:Hfind.
  - rewrite (setStatus_found _ _ _ _ _ _ Hfind). cbn [state].
    destruct (statusFields_kept status existing) as [K T].
    apply (transition_rewritten userId d invoiceId existing _ (payments d) Hfind K T).
    intros pid p _. reflexivity.
  - rewrite (setStatus_missing _ _ _ _ _ Hfind). apply transition_refl.
Qed.

Lemma addPayment_transition (uuid invoiceId : string) (amount : Q) :
  transition userId d (state (addPayment now uuid userId invoiceId amount d)).
Proof.
  destruct (addPayment_cases userId invoiceId d now uuid amount)
    as [[e E] | (invoice & _ & Hfind & _ & Hfresh & E)]; rewrite E; cbn [state].
  - apply transition_refl.
  - apply (transition_rewritten userId d invoiceId invoice _
             (<[uuid := Payment.mk invoiceId (toDecimal amount)]> (payments d)) Hfind).
    + split; reflexivity.
    + split; reflexivity.
    + intros pid p Hp. destruct (decide (pid = uuid)) as [->|Hne].
      * rewrite lookup_insert_eq, Hfresh. split; [| discriminate].
        intros [= <-]. contradiction Hp. reflexivity.
      * rewrite lookup_insert_ne by congruence. reflexivity.
Qed.

Lemma deletePayment_transition (invoiceId paymentId : string) :
  transition userId d (state (deletePayment userId invoiceId paymentId d)).
Proof.
  destruct (deletePayment_cases userId invoiceId d paymentId)
    as [[e E] | (invoice & payment & Hfind & Hpay & E)]; rewrite E; cbn [state].
  - apply transition_refl.
  - destruct (findPayment_lookup _ _ _ _ Hpay) as [Hprow Hpinv].
    apply (transition_rewritten userId d invoiceId invoice _
             (delete paymentId (payments d)) Hfind).
    + split; reflexivity.
    + split; reflexivity.
    + intros pid p Hp. destruct (decide (pid = paymentId)) as [->|Hne].
      * rewrite lookup_delete_eq, Hprow. split; [discriminate |].
        intros [= <-]. contradiction.
      * rewrite lookup_delete_ne by congruence. reflexivity.
Qed.

Lemma copyItem_invoiceId (uuid : string) (items : list InvoiceItem.t) :
  Forall (fun it => InvoiceItem.invoiceId it = uuid) (map (copyItem uuid) items).
Proof. apply Forall_map, Forall_forall. intros x _. reflexivity. Qed.

Lemma duplicateInvoice_transition (uuid invoiceId : string) :
  transition userId d (state (duplicateInvoice uuid userId invoiceId d)).
Proof.
  destruct (findInvoice invoiceId userId d) as [original|] eqn:Hfind; cycle 1.
  { rewrite (duplicateInvoice_missing _ _ _ _ Hfind). apply transition_refl. }
  pose proof (duplicateInvoice_found uuid userId invoiceId d original Hfind) as Hrun.
  cbv zeta in Hrun.
  pose proof (sequenceStep_allocator userId d) as Hseq.
  destruct (generateInvoiceNumber_tables userId d) as (Hgc & Hgi & Hgit & Hgp).
  cbv zeta in Hgc, Hgi, Hgit, Hgp.
  destruct (outcome (generateInvoiceNumber userId d)) as [number|e0];
    [| rewrite Hrun; apply transition_allocator].
  set (row := duplicateRow userId number original) in *.
  destruct (insertInvoice uuid row (state (generateInvoiceNumber userId d)))
    as [dins|e] eqn:Hins.
  - rewrite Hrun. cbn [state].
    destruct (insertInvoice_Ok _ _ _ _ Hins) as [_ Hnone].
    destruct (insertInvoice_Ok_unique _ _ _ _ Hins) as [_ Htaken].
    rewrite Hgi in Hnone.
    rewrite (invoiceNumberTaken_same_invoices d) in Htaken by exact Hgi.
    match goal with
    | |- transition _ _ (state (calculateInvoiceTotals _ ?d1)) =>
        replace d1 with (mkDb (clients d) (<[uuid := row]> (invoices d))
                           (invoiceItems d
                            ++ map (copyItem uuid)
                                 (orderBySortOrder (itemsOf invoiceId (invoiceItems d))))%list
                           (payments d)
                           (invoiceSequences (state (generateInvoiceNumber userId d))))
          by (unfold setInvoiceItems, setInvoices;
              cbn [clients invoices invoiceItems payments invoiceSequences];
              rewrite Hgc, Hgi, Hgit, Hgp; reflexivity)
    end.
    apply transition_written.
    + exact Hseq.
    + unfold writes. rewrite Hnone.
      split; [reflexivity |]. exact Htaken.
    + intros j Hne. rewrite itemsOf_app, (itemsOf_other j uuid _ Hne (copyItem_invoiceId _ _)).
      apply app_nil_r.
  - rewrite Hrun. cbn [state]. apply transition_allocator.
Qed.

Lemma getInvoiceSettings_transition :
  transition userId d (state (getInvoiceSettings userId d)).
Proof.
  destruct (invoiceSequences d !! userId) as [settings|] eqn:E.
  - rewrite (getInvoiceSettings_found _ _ _ E). apply transition_refl.
  - rewrite (getInvoiceSettings_missing _ _ E). cbn [state].
    apply (transition_sequence userId d). right.
    exists InvoiceSequence.default. rewrite E. split; [simpl; lia | reflexivity].
Qed.

Lemma updateInvoiceSettings_transition (body : SettingsBody.t) :
  transition userId d (state (updateInvoiceSettings userId body d)).
Proof.
  destruct (validSettings (trim <$> SettingsBody.prefix body) (SettingsBody.padding body))
    eqn:Hvalid.
  - rewrite (updateInvoiceSettings_valid _ _ _ Hvalid). cbn [state].
    apply (transition_sequence userId d). right.
    eexists. split; [| reflexivity].
    destruct (invoiceSequences d !! userId); simpl; lia.
  - rewrite (updateInvoiceSettings_invalid _ _ _ Hvalid). apply transition_refl.
Qed.

(** Every operation is a transition, or the deletion of an invoice of the
    user. *)
Lemma run_cases (op : Operation) :
  transition userId d (run now userId op d)
  \/ (exists invoiceId existing,
        op = DeleteInvoice invoiceId
        /\ findInvoice invoiceId userId d = Some existing
        /\ run now userId op d = deleteInvoiceRows invoiceId d).
Proof.
  destruct op as [[uuid body | invoiceId body | invoiceId status | uuid invoiceId amount
                  | invoiceId paymentId] | invoiceId | uuid invoiceId | | body];
    cbn [run handle]; rewrite ?state_bind_ret.
  - left. apply createInvoice_transition.
  - left. apply updateInvoice_transition.
  - left. apply setStatus_transition.
  - left. apply addPayment_transition.
  - left. apply deletePayment_transition.
  - destruct (findInvoice invoiceId userId d) as [existing|] eqn:Hfind.
    + right. exists invoiceId, existing. rewrite (deleteInvoice_found _ _ _ _ Hfind).
      split; [reflexivity |]. split; [exact Hfind | reflexivity].
    + left. rewrite (deleteInvoice_missing _ _ _ Hfind). apply transition_refl.
  - left. apply duplicateInvoice_transition.
  - left. apply getInvoiceSettings_transition.
  - left. apply updateInvoiceSettings_transition.
Qed.

End RunTransition.

(** ** The normal form of a transition *)

Lemma computeTotals_ext (subtotal : Q) (row row' : Invoice.t) :
  Invoice.taxRate row' = Invoice.taxRate row ->
  Invoice.discountType row' = Invoice.discountType row ->
  Invoice.discountValue row' = Invoice.discountValue row ->
  t_discountAmount (computeTotals subtotal row') = t_discountAmount (computeTotals subtotal row)
  /\ t_taxAmount (computeTotals subtotal row') = t_taxAmount (computeTotals subtotal row)
  /\ t_total (computeTotals subtotal row') = t_total (computeTotals subtotal row).
Proof.
  intros E1 E2 E3. unfold computeTotals. cbn [t_discountAmount t_taxAmount t_total].
  rewrite E1, E2, E3. repeat split.
Qed.

Lemma writes_stored (userId : string) (d : Db) (id : string) (row : Invoice.t)
    (subtotal : Q) (t : Totals) :
  writes userId d id row -> writes userId d id (storeTotals subtotal t row).
Proof.
  unfold writes. destruct (invoices d !! id) as [existing|].
  - intros [U [K1 K2 K3 K4]]. split; [exact U |]. split; assumption.
  - intros [U T]. split; assumption.
Qed.

(** A transition writes the sequence row of the user, and at most one
    invoice of the user, with the items and the payments of that
    invoice. *)
Lemma transition_normal (userId : string) (d d' : Db) :
  transition userId d d' ->
  exists invs items pays seqs,
    d' = mkDb (clients d) invs items pays seqs
    /\ sequenceStep userId (invoiceSequences d) seqs
    /\ ((invs = invoices d /\ items = invoiceItems d /\ pays = payments d)
        \/ exists id row,
            invs = <[id := row]> (invoices d)
            /\ writes userId d id row
            /\ (forall j, j <> id -> itemsOf j items = itemsOf j (invoiceItems d))
            /\ (forall pid p, Payment.invoiceId p <> id ->
                              pays !! pid = Some p <-> payments d !! pid = Some p)).
Proof.
  intros [seqs Hseq | id row items seqs Hseq Hw Hitems | id existing row pays Hfind K T Hpays].
  - exists (invoices d), (invoiceItems d), (payments d), seqs.
    split; [reflexivity |]. split; [exact Hseq |]. left. repeat split.
  - set (d1 := mkDb _ _ _ _ _).
    assert (invoices d1 !! id = Some row) as Hrow by apply lookup_insert_eq.
    rewrite (written_state id d1 row Hrow). cbv zeta.
    set (subtotal := Number (sumAmounts (itemsOf id (invoiceItems d1)))).
    set (stored := storeTotals subtotal (computeTotals subtotal row) row).
    set (row' := if totalsFit stored then stored else row).
    exists (<[id := row']> (invoices d)), items, (payments d), seqs.
    split; [subst d1; cbn [clients invoices invoiceItems payments invoiceSequences];
            rewrite insert_insert_eq; reflexivity |].
    split; [exact Hseq |]. right. exists id, row'.
    split; [reflexivity |]. split.
    { subst row'. destruct (totalsFit stored); [apply writes_stored |]; exact Hw. }
    split; [exact Hitems |]. intros; reflexivity.
  - destruct (findInvoice_lookup _ _ _ _ Hfind) as [Hrow Hu].
    exists (<[id := row]> (invoices d)), (invoiceItems d), pays, (invoiceSequences d).
    split; [reflexivity |]. split; [left; reflexivity |]. right. exists id, row.
    split; [reflexivity |]. split.
    { unfold writes. rewrite Hrow. split; assumption. }
    split; [intros; reflexivity |]. exact Hpays.
Qed.

(** ** Data of other users *)

Section Isolation.

Variables (userId other : string).
Hypothesis Hother : userId <> other.

Lemma writes_not_owned (d : Db) (id : string) (row : Invoice.t) :
  writes userId d id row -> ~ ownedBy d other id /\ Invoice.userId row <> other.
Proof.
  unfold writes, ownedBy. destruct (invoices d !! id) as [existing|].
  - intros [U [K _ _ _]]. split.
    + intros (r & [= <-] & Hr). congruence.
    + congruence.
  - intros [U _]. split.
    + intros (r & Hr & _). discriminate.
    + congruence.
Qed.

Lemma sequenceStep_other (m m' : gmap string InvoiceSequence.t) :
  sequenceStep userId m m' -> m' !! other = m !! other.
Proof.
  intros [-> | (s & _ & ->)]; [reflexivity |]. apply lookup_insert_ne. exact Hother.
Qed.

Lemma sameDataOf_transition (d d' : Db) : transition userId d d' -> sameDataOf other d d'.
Proof.
  intros T. destruct (transition_normal _ _ _ T)
    as (invs & items & pays & seqs & -> & Hseq & [(-> & -> & ->) | Hw]).
  - split; cbn [invoices invoiceItems payments invoiceSequences]; try reflexivity.
    apply sequenceStep_other, Hseq.
  - destruct Hw as (id & row & -> & Hw & Hitems & Hpays).
    destruct (writes_not_owned d id row Hw) as [Hno Hrow].
    split; cbn [invoices invoiceItems payments invoiceSequences].
    + intros k r Hr. destruct (decide (k = id)) as [->|Hne].
      * rewrite lookup_insert_eq. split.
        -- intros [= <-]. contradiction.
        -- intros Hk. contradiction Hno. exists r. split; assumption.
      * rewrite lookup_insert_ne by congruence. reflexivity.
    + intros j Hj. apply Hitems. intros ->. contradiction.
    + intros pid p Hp. apply Hpays. intros E. rewrite E in Hp. contradiction.
    + apply sequenceStep_other, Hseq.
Qed.

Lemma sameDataOf_deleted (d : Db) (id : string) (existing : Invoice.t) :
  findInvoice id userId d = Some existing -> sameDataOf other d (deleteInvoiceRows id d).
Proof.
  intros Hfind. destruct (findInvoice_lookup _ _ _ _ Hfind) as [Hrow Hu].
  assert (~ ownedBy d other id) as Hno.
  { intros (r & Hr & Ho). congruence. }
  split; cbn [deleteInvoiceRows invoices invoiceItems payments invoiceSequences].
  - intros k r Hr. destruct (decide (k = id)) as [->|Hne].
    + rewrite lookup_delete_eq. split; [discriminate |].
      intros Hk. contradiction Hno. exists r. split; assumption.
    + rewrite lookup_delete_ne by congruence. reflexivity.
  - intros j Hj. rewrite itemsOf_removed.
    destruct (decide (j = id)) as [->|]; [contradiction | reflexivity].
  - intros pid p Hp. rewrite map_lookup_filter_Some. cbn [snd].
    split; [tauto |]. intros Hk. split; [exact Hk |].
    intros E. rewrite E in Hp. contradiction.
  - reflexivity.
Qed.

Lemma sameDataOf_run (now : Z) (op : Operation) (d : Db) :
  sameDataOf other d (run now userId op d).
Proof.
  destruct (run_cases now userId d op) as [T | (id & existing & _ & Hfind & ->)].
  - apply sameDataOf_transition, T.
  - apply (sameDataOf_deleted d id existing Hfind).
Qed.

End Isolation.

Lemma sameDataOf_refl (userId : string) (d : Db) : sameDataOf userId d d.
Proof. split; reflexivity. Qed.

Lemma sameDataOf_ownedBy (userId : string) (d d' : Db) (id : string) :
  sameDataOf userId d d' -> ownedBy d userId id -> ownedBy d' userId id.
Proof.
  intros [H _ _ _] (row & Hrow & Hu). exists row. split; [| exact Hu].
  apply (H id row Hu), Hrow.
Qed.

Lemma sameDataOf_trans (userId : string) (d1 d2 d3 : Db) :
  sameDataOf userId d1 d2 -> sameDataOf userId d2 d3 -> sameDataOf userId d1 d3.
Proof.
  intros H12 H23. pose proof (sameDataOf_ownedBy userId d1 d2) as Hown.
  destruct H12 as [A1 B1 C1 D1]. destruct H23 as [A2 B2 C2 D2].
  assert (forall id, ownedBy d1 userId id -> ownedBy d2 userId id) as Hown'.
  { intros id. apply Hown. split; assumption. }
  split.
  - intros id row Hu. rewrite (A2 id row Hu). apply A1, Hu.
  - intros id Hid. rewrite (B2 id (Hown' id Hid)). apply B1, Hid.
  - intros pid p Hp. rewrite (C2 pid p (Hown' _ Hp)). apply C1, Hp.
  - congruence.
Qed.

(** X1.  The data of the other users.  Whatever the other users do, in any
    number of operations, a user keeps the same invoices with the same
    columns, the same items and payments on them, and the same sequence
    row. *)
Theorem operations_of_other_users_change_nothing (other : string)
    (steps : list (Z * string * Operation)) (d : Db) :
  Forall (fun step => stepUser step <> other) steps ->
  sameDataOf other d (runAll steps d).
Proof.
  intros F. revert d. induction F as [|[[now userId] op] steps Hstep F IH]; intros d.
  - apply sameDataOf_refl.
  - cbn [runAll]. apply (sameDataOf_trans other d (run now userId op d)).
    + apply sameDataOf_run. exact Hstep.
    + apply IH.
Qed.

(** ** What every operation keeps *)

Lemma keptFields_trans (r1 r2 r3 : Invoice.t) :
  keptFields r1 r2 -> keptFields r2 r3 -> keptFields r1 r3.
Proof.
  intros [A1 B1 C1 D1] [A2 B2 C2 D2]. split.
  - congruence.
  - congruence.
  - intros H. rewrite <- (C1 H). apply C2. rewrite (C1 H). exact H.
  - intros H. rewrite <- (D1 H). apply D2. rewrite (D1 H). exact H.
Qed.

Lemma run_keeps_invoice (now : Z) (userId : string) (op : Operation) (d : Db)
    (id : string) (row : Invoice.t) :
  op <> DeleteInvoice id ->
  invoices d !! id = Some row ->
  exists row', invoices (run now userId op d) !! id = Some row' /\ keptFields row row'.
Proof.
  intros Hop Hrow.
  destruct (run_cases now userId d op) as [T | (id0 & existing & -> & Hfind & ->)].
  - destruct (transition_normal _ _ _ T)
      as (invs & items & pays & seqs & -> & _ & [(-> & _ & _) | Hw]).
    + exists row. split; [exact Hrow | apply keptFields_refl].
    + destruct Hw as (id0 & row0 & -> & Hw & _). cbn [invoices].
      destruct (decide (id = id0)) as [->|Hne].
      * exists row0. split; [apply lookup_insert_eq |].
        unfold writes in Hw. rewrite Hrow in Hw. apply Hw.
      * exists row. rewrite lookup_insert_ne by congruence.
        split; [exact Hrow | apply keptFields_refl].
  - exists row. split; [| apply keptFields_refl]. cbn [deleteInvoiceRows invoices].
    rewrite lookup_delete_ne by congruence. exact Hrow.
Qed.

(** X2.  What an invoice keeps.  Through any operations of any users other
    than the deletion of the invoice, the invoice stays in the table with
    its owner and its number, and with its [sentAt] and [viewedAt]
    timestamps once they are set. *)
Theorem invoice_keeps_owner_number_and_timestamps
    (steps : list (Z * string * Operation)) (d : Db) (id : string) (row : Invoice.t) :
  Forall (fun step => stepOperation step <> DeleteInvoice id) steps ->
  invoices d !! id = Some row ->
  exists row', invoices (runAll steps d) !! id = Some row' /\ keptFields row row'.
Proof.
  intros F. revert d row.
  induction F as [|[[now userId] op] steps Hstep F IH]; intros d row Hrow.
  - exists row. split; [exact Hrow | apply keptFields_refl].
  - cbn [runAll].
    destruct (run_keeps_invoice now userId op d id row Hstep Hrow) as (row1 & Hrow1 & K1).
    destruct (IH _ _ Hrow1) as (row' & Hrow' & K').
    exists row'. split; [exact Hrow' | exact (keptFields_trans _ _ _ K1 K')].
Qed.

(** ** Unique invoice numbers *)

Lemma invoiceNumberTaken_false (d : Db) (userId number : string) (id : string)
    (row : Invoice.t) :
  invoiceNumberTaken d userId number = false ->
  invoices d !! id = Some row ->
  Invoice.userId row = userId -> Invoice.invoiceNumber row <> number.
Proof.
  unfold invoiceNumberTaken. intros H Hrow Hu Hn.
  apply bool_decide_eq_false in H. apply H. exists id, row. repeat split; assumption.
Qed.

Lemma uniqueInvoiceNumbers_run (now : Z) (userId : string) (op : Operation) (d : Db) :
  uniqueInvoiceNumbers d -> uniqueInvoiceNumbers (run now userId op d).
Proof.
  intros Hu.
  destruct (run_cases now userId d op) as [T | (id0 & existing & _ & Hfind & ->)].
  - destruct (transition_normal _ _ _ T)
      as (invs & items & pays & seqs & -> & _ & [(-> & _ & _) | Hw]); [exact Hu |].
    destruct Hw as (id & row & -> & Hw & _).
    assert (forall j r, j <> id -> invoices d !! j = Some r ->
                        Invoice.userId row = Invoice.userId r ->
                        Invoice.invoiceNumber row = Invoice.invoiceNumber r -> False) as Hnew.
    { intros j r Hne Hr U N. unfold writes in Hw.
      destruct (invoices d !! id) as [existing|] eqn:Hid.
      - destruct Hw as [_ [K1 K2 _ _]]. apply Hne. symmetry.
        apply (Hu id j existing r Hid Hr); congruence.
      - destruct Hw as [Ho Ht].
        apply (invoiceNumberTaken_false d userId _ j r Ht Hr); congruence. }
    intros i j r1 r2. cbn [invoices].
    destruct (decide (i = id)) as [->|Hi], (decide (j = id)) as [->|Hj];
      rewrite ?lookup_insert_eq, ?lookup_insert_ne by congruence.
    + reflexivity.
    + intros [= <-] H2 U N. destruct (Hnew j r2 Hj H2 U N).
    + intros H1 [= <-] U N. destruct (Hnew i r1 Hi H1); congruence.
    + apply Hu.
  - intros i j r1 r2. cbn [deleteInvoiceRows invoices].
    intros H1 H2. apply lookup_delete_Some in H1, H2. apply Hu; tauto.
Qed.

(** X3.  Unique numbers.  No sequence of operations makes two invoices of
    one user carry the same number. *)
Theorem invoice_numbers_stay_unique (steps : list (Z * string * Operation)) (d : Db) :
  uniqueInvoiceNumbers d -> uniqueInvoiceNumbers (runAll steps d).
Proof.
  revert d. induction steps as [|[[now userId] op] steps IH]; intros d Hu; [exact Hu |].
  cbn [runAll]. apply IH, uniqueInvoiceNumbers_run, Hu.
Qed.

(** ** The counter *)

Lemma run_sequenceStep (now : Z) (userId : string) (op : Operation) (d : Db) :
  sequenceStep userId (invoiceSequences d) (invoiceSequences (run now userId op d)).
Proof.
  destruct (run_cases now userId d op) as [T | (id0 & existing & _ & Hfind & ->)].
  - destruct (transition_normal _ _ _ T) as (invs & items & pays & seqs & -> & H & _).
    exact H.
  - left. reflexivity.
Qed.

Lemma counter_run (now : Z) (userId : string) (op : Operation) (d : Db) (user : string) :
  InvoiceSequence.nextNumber (sequenceOf d user)
  <= InvoiceSequence.nextNumber (sequenceOf (run now userId op d) user).
Proof.
  unfold sequenceOf.
  destruct (run_sequenceStep now userId op d) as [-> | (s & Hs & ->)]; [lia |].
  destruct (decide (user = userId)) as [->|Hne].
  - rewrite lookup_insert_eq. exact Hs.
  - rewrite lookup_insert_ne by congruence. lia.
Qed.

Lemma counter_runAll (steps : list (Z * string * Operation)) (d : Db) (user : string) :
  InvoiceSequence.nextNumber (sequenceOf d user)
  <= InvoiceSequence.nextNumber (sequenceOf (runAll steps d) user).
Proof.
  revert d. induction steps as [|[[now userId] op] steps IH]; intros d; [cbn; lia |].
  cbn [runAll]. pose proof (counter_run now userId op d user). specialize (IH (run now userId op d)).
  lia.
Qed.

(** X5.  A number is issued once.  The number of a created invoice is never
    given to a later invoice of the same user, whatever any users do in
    between (the first invoice may have been deleted), as long as the
    user's prefix at the second creation is the prefix of the first. *)
Theorem issued_number_is_not_reissued (uuid1 uuid2 userId : string)
    (body1 body2 : CreateBody.t) (steps : list (Z * string * Operation)) (d : Db)
    (invoice1 invoice2 : Invoice.t) :
  let d1 := state (createInvoice uuid1 userId body1 d) in
  let d2 := runAll steps d1 in
  outcome (createInvoice uuid1 userId body1 d) = Ok (Some invoice1) ->
  outcome (createInvoice uuid2 userId body2 d2) = Ok (Some invoice2) ->
  InvoiceSequence.prefix (sequenceOf d2 userId) = InvoiceSequence.prefix (sequenceOf d userId) ->
  Invoice.invoiceNumber invoice1 <> Invoice.invoiceNumber invoice2.
Proof.
  intros d1 d2 H1 H2 Hprefix E.
  destruct (createInvoice_ok_number uuid1 userId body1 d invoice1 H1) as [N1 S1].
  destruct (createInvoice_ok_number uuid2 userId body2 d2 invoice2 H2) as [N2 _].
  cbv zeta in N1, S1, N2. fold (sequenceOf d userId) in N1, S1.
  fold (sequenceOf d2 userId) in N2.
  rewrite N1, N2, Hprefix in E. apply formatInvoiceNumber_inj in E.
  pose proof (counter_runAll steps d1 userId) as Hle. fold d2 in Hle.
  assert (InvoiceSequence.nextNumber (sequenceOf d1 userId)
          = InvoiceSequence.nextNumber (sequenceOf d userId) + 1) as Hd1.
  { unfold sequenceOf at 1. subst d1. rewrite S1, lookup_insert_eq. reflexivity. }
  lia.
Qed.

(** ** Deleting and duplicating keep the ledger *)

Section LedgerFurther.

Lemma paymentsTotal_cascade (d : Db) (id k : string) :
  k <> id -> paymentsTotal (deleteInvoiceRows id d) k = paymentsTotal d k.
Proof.
  intros Hne.
  assert (forall m : gmap string Payment.t,
             paymentsTotal (mkDb (clients d) (invoices d) (invoiceItems d)
                              (filter (fun kv => Payment.invoiceId (snd kv) <> id) m)
                              (invoiceSequences d)) k
             = paymentsTotal (mkDb (clients d) (invoices d) (invoiceItems d) m
                                (invoiceSequences d)) k) as H.
  { intros m. induction m as [|pid p m Hfresh IH] using map_ind.
    - rewrite map_filter_empty. reflexivity.
    - pose proof (paymentsTotal_insert
                    (mkDb (clients d) (invoices d) (invoiceItems d) m (invoiceSequences d))
                    pid p k Hfresh) as R.
      unfold setPayments in R. cbn [clients invoices invoiceItems payments invoiceSequences] in R.
      rewrite R. clear R.
      destruct (decide (Payment.invoiceId p = id)) as [E|E].
      + rewrite map_filter_insert_False by (cbn [snd]; tauto).
        rewrite delete_id by exact Hfresh.
        rewrite bool_decide_eq_false_2 by congruence. rewrite IH. lia.
      + rewrite map_filter_insert_True by exact E.
        pose proof (paymentsTotal_insert
                      (mkDb (clients d) (invoices d) (invoiceItems d)
                         (filter (fun kv => Payment.invoiceId (snd kv) <> id) m)
                         (invoiceSequences d)) pid p k) as R.
        unfold setPayments in R.
        cbn [clients invoices invoiceItems payments invoiceSequences] in R.
        rewrite R by (apply map_lookup_filter_None; left; exact Hfresh).
        rewrite IH. reflexivity. }
  specialize (H (payments d)). unfold paymentsTotal in *.
  cbn [deleteInvoiceRows payments] in *. exact H.
Qed.

Lemma ledgerInvariant_deleteInvoiceRows (d : Db) (id : string) :
  ledgerInvariant d -> ledgerInvariant (deleteInvoiceRows id d).
Proof.
  intros (Hc & Hp & Hfk).
  unfold ledgerInvariant, amountPaidConsistent, paymentsPositive, paymentsReferToInvoices.
  split; [| split].
  - intros k r Hk. cbn [deleteInvoiceRows invoices] in Hk.
    apply lookup_delete_Some in Hk. destruct Hk as [Hne Hk].
    rewrite paymentsTotal_cascade by congruence. apply (Hc k r Hk).
  - intros pid p Hpid. cbn [deleteInvoiceRows payments] in Hpid.
    apply map_lookup_filter_Some in Hpid. destruct Hpid as [Hpid _]. apply (Hp pid p Hpid).
  - intros pid p Hpid. cbn [deleteInvoiceRows payments invoices] in Hpid |- *.
    apply map_lookup_filter_Some in Hpid. destruct Hpid as [Hpid Hne]. cbn [snd] in Hne.
    rewrite lookup_delete_ne by congruence. apply (Hfk pid p Hpid).
Qed.

Variables (userId : string) (d : Db).
Hypothesis Hinv : ledgerInvariant d.

Lemma ledgerInvariant_deleteInvoice (invoiceId : string) :
  ledgerInvariant (state (deleteInvoice userId invoiceId d)).
Proof.
  destruct (findInvoice invoiceId userId d) as [existing|] eqn:Hfind.
  - rewrite (deleteInvoice_found _ _ _ _ Hfind). cbn [state].
    apply ledgerInvariant_deleteInvoiceRows, Hinv.
  - rewrite (deleteInvoice_missing _ _ _ Hfind). exact Hinv.
Qed.

Lemma ledgerInvariant_duplicateInvoice (uuid invoiceId : string) :
  ledgerInvariant (state (duplicateInvoice uuid userId invoiceId d)).
Proof.
  destruct (findInvoice invoiceId userId d) as [original|] eqn:Hfind; cycle 1.
  { rewrite (duplicateInvoice_missing _ _ _ _ Hfind). exact Hinv. }
  pose proof (duplicateInvoice_found uuid userId invoiceId d original Hfind) as Hrun.
  cbv zeta in Hrun.
  destruct (generateInvoiceNumber_tables userId d) as (_ & Hgi & _ & Hgp).
  cbv zeta in Hgi, Hgp.
  assert (ledgerInvariant (state (generateInvoiceNumber userId d))) as Hallocated
    by (apply (ledgerInvariant_same_tables d); assumption).
  destruct (outcome (generateInvoiceNumber userId d)) as [number|e0];
    [| rewrite Hrun; exact Hallocated].
  set (row := duplicateRow userId number original) in *.
  destruct (insertInvoice uuid row (state (generateInvoiceNumber userId d)))
    as [dins|e] eqn:Hins; rewrite Hrun; cbn [state]; [| exact Hallocated].
  destruct (insertInvoice_Ok _ _ _ _ Hins) as [_ Hfresh]. rewrite Hgi in Hfresh.
  set (d1 := setInvoiceItems _ _).
  assert (ledgerInvariant d1) as Hinv1.
  { apply (ledgerInvariant_insert_invoice d d1 uuid row Hfresh); try reflexivity.
    - subst d1. unfold setInvoiceItems, setInvoices. cbn [invoices]. rewrite Hgi.
      reflexivity.
    - subst d1. unfold setInvoiceItems, setInvoices. cbn [payments]. exact Hgp.
    - exact Hinv. }
  apply ledgerInvariant_calculateInvoiceTotals, Hinv1.
Qed.

End LedgerFurther.

(** X10.  The ledger across deletions and copies.  If every invoice has an
    amount paid equal to the sum of its payments, every payment is
    positive and belongs to a stored invoice, then the same holds after an
    invoice is deleted (its payments go with it) and after an invoice is
    duplicated (the copy starts with nothing paid and no payment). *)
Theorem ledger_kept_by_delete_and_duplicate (uuid userId invoiceId : string) (d : Db) :
  ledgerInvariant d ->
  ledgerInvariant (state (deleteInvoice userId invoiceId d))
  /\ ledgerInvariant (state (duplicateInvoice uuid userId invoiceId d)).
Proof.
  intros Hinv. split.
  - apply ledgerInvariant_deleteInvoice, Hinv.
  - apply ledgerInvariant_duplicateInvoice, Hinv.
Qed.

(** ** The copy made by a duplication *)

Lemma sumAmounts_Permutation (l l' : list InvoiceItem.t) :
  l ≡ₚ l' -> sumAmounts l = sumAmounts l'.
Proof.
  unfold sumAmounts. induction 1; cbn [foldr]; lia.
Qed.

Lemma sumAmounts_copyItem (newId : string) (l : list InvoiceItem.t) :
  sumAmounts (map (copyItem newId) l) = sumAmounts l.
Proof.
  unfold sumAmounts. induction l as [|x l IH]; [reflexivity |].
  cbn [map foldr copyItem InvoiceItem.amount]. rewrite IH. reflexivity.
Qed.

Lemma sumAmounts_copied (newId : string) (l : list InvoiceItem.t) :
  sumAmounts (map (copyItem newId) (orderBySortOrder l)) = sumAmounts l.
Proof.
  rewrite sumAmounts_copyItem. apply sumAmounts_Permutation.
  unfold orderBySortOrder. apply merge_sort_Permutation.
Qed.

(** X11.  The copy made by [POST /:id/duplicate].  When the duplication of an
    invoice with up-to-date totals succeeds, the copy is a draft of the
    same user and client under the next number of the sequence, with no
    timestamps and nothing paid; it carries copies of the items, the same
    tax and discount settings and the same subtotal, discount, tax and
    total, and its balance due is its total.  The original and its items
    are left as they were. *)
Theorem duplicate_is_an_unpaid_draft_with_the_same_totals
    (uuid userId invoiceId : string) (d : Db) (original copy : Invoice.t) :
  findInvoice invoiceId userId d = Some original ->
  upToDate d invoiceId original ->
  itemsOf uuid (invoiceItems d) = [] ->
  outcome (duplicateInvoice uuid userId invoiceId d) = Ok (Some copy) ->
  let d' := state (duplicateInvoice uuid userId invoiceId d) in
  let seq := sequenceOf d userId in
  invoices d' !! uuid = Some copy
  /\ Invoice.userId copy = userId
  /\ Invoice.clientId copy = Invoice.clientId original
  /\ Invoice.invoiceNumber copy
     = formatInvoiceNumber (InvoiceSequence.prefix seq) (InvoiceSequence.nextNumber seq)
         (InvoiceSequence.padding seq)
  /\ Invoice.status copy = draft
  /\ Invoice.sentAt copy = None /\ Invoice.viewedAt copy = None /\ Invoice.paidAt copy = None
  /\ Invoice.amountPaid copy = 0
  /\ keptTotals original copy
  /\ Invoice.balanceDue copy = Invoice.total copy
  /\ itemsOf uuid (invoiceItems d')
     = map (copyItem uuid) (orderBySortOrder (itemsOf invoiceId (invoiceItems d)))
  /\ invoices d' !! invoiceId = Some original
  /\ itemsOf invoiceId (invoiceItems d') = itemsOf invoiceId (invoiceItems d).
Proof.
  intros Hfind Hup Hnoitems Hok d' seq. subst d'.
  destruct (findInvoice_lookup _ _ _ _ Hfind) as [Horig Hu].
  pose proof (duplicateInvoice_found uuid userId invoiceId d original Hfind) as Hrun.
  cbv zeta in Hrun.
  destruct (outcome (generateInvoiceNumber userId d)) as [number|e0] eqn:Hout;
    [| rewrite Hrun in Hok; discriminate].
  destruct (generateInvoiceNumber_ok userId d number Hout) as (_ & Hnumber & Hg).
  fold (sequenceOf d userId) in Hnumber, Hg. fold seq in Hnumber, Hg. subst number.
  set (row := duplicateRow _ _ _) in *.
  set (rows := map (copyItem uuid) _) in *.
  destruct (insertInvoice uuid row (state (generateInvoiceNumber userId d)))
    as [dins|e] eqn:Hins; rewrite Hrun in Hok |- *; cbn [state outcome] in Hok |- *;
    [| discriminate].
  destruct (insertInvoice_Ok _ _ _ _ Hins) as [_ Hfresh]. rewrite Hg in Hfresh.
  cbn [setInvoiceSequences invoices] in Hfresh.
  assert (uuid <> invoiceId) as Hne by congruence.
  set (d1 := setInvoiceItems _ _) in *.
  assert (invoices d1 !! uuid = Some row) as Hrow1 by apply lookup_insert_eq.
  assert (itemsOf uuid (invoiceItems d1) = rows) as Hitems1.
  { subst d1. rewrite Hg. cbn [setInvoiceItems setInvoices setInvoiceSequences invoiceItems].
    rewrite itemsOf_app, Hnoitems. cbn [app].
    apply itemsOf_own, copyItem_invoiceId. }
  destruct (outcome (calculateInvoiceTotals uuid d1)) as [[]|e] eqn:Hcalc; [| discriminate].
  pose proof (calculateInvoiceTotals_ok_fit uuid d1 row Hrow1 Hcalc) as Hfit.
  cbv zeta in Hfit.
  rewrite (written_state uuid d1 row Hrow1) in Hok |- *. cbv zeta in Hok |- *.
  rewrite Hfit in Hok |- *.
  rewrite Hitems1 in Hok |- *.
  cbn [invoices invoiceItems] in Hok |- *. rewrite lookup_insert_eq in Hok.
  assert (sumAmounts rows = sumAmounts (itemsOf invoiceId (invoiceItems d))) as Hsum
    by apply sumAmounts_copied.
  rewrite Hsum in Hok. injection Hok as <-.
  set (subtotal := Number (sumAmounts (itemsOf invoiceId (invoiceItems d)))).
  destruct Hup as (U1 & U2 & U3 & U4). cbv zeta in U1, U2, U3, U4.
  fold subtotal in U1, U2, U3, U4.
  destruct (computeTotals_ext subtotal original row eq_refl eq_refl eq_refl)
    as (C1 & C2 & C3).
  split; [rewrite Hsum; apply lookup_insert_eq |].
  do 8 (split; [reflexivity |]).
  split.
  { split; cbn [storeTotals Invoice.subtotal Invoice.taxRate Invoice.taxAmount
                  Invoice.discountType Invoice.discountValue Invoice.discountAmount
                  Invoice.total]; try reflexivity; congruence. }
  split.
  { cbn [storeTotals Invoice.balanceDue Invoice.total]. apply toDecimal_comp.
    rewrite computeTotals_balanceDue. cbn [row duplicateRow Invoice.amountPaid].
    rewrite Number_0. ring. }
  split; [exact Hitems1 |].
  split.
  - rewrite lookup_insert_ne by exact Hne. subst d1. rewrite Hg.
    cbn [setInvoiceItems setInvoices setInvoiceSequences invoices].
    rewrite lookup_insert_ne by exact Hne. exact Horig.
  - subst d1. rewrite Hg.
    cbn [setInvoiceItems setInvoices setInvoiceSequences invoiceItems].
    rewrite itemsOf_app. subst rows.
    rewrite (itemsOf_other invoiceId uuid _ (not_eq_sym Hne) (copyItem_invoiceId _ _)).
    apply app_nil_r.
Qed.

(** ** Settings and the allocator *)

Lemma generateInvoiceNumber_outcome (userId : string) (d : Db) :
  InvoiceSequence.nextNumber (sequenceOf d userId) < int4_max ->
  outcome (generateInvoiceNumber userId d)
  = Ok (formatInvoiceNumber (InvoiceSequence.prefix (sequenceOf d userId))
          (InvoiceSequence.nextNumber (sequenceOf d userId))
          (InvoiceSequence.padding (sequenceOf d userId))).
Proof. intros H. apply generateInvoiceNumber_run, H. Qed.

(** X7.  The preview of the settings page.  For a user whose counter is
    below the largest value of its [integer] column, the [previewNumber]
    answered by [GET /invoice] and by a successful [PUT /invoice] is the
    number the allocator gives to the next invoice of the user; a
    [PUT /invoice] that fails is a rejected body and changes nothing. *)
Theorem settings_preview_is_the_next_number (userId : string) (body : SettingsBody.t)
    (d : Db) :
  InvoiceSequence.nextNumber (sequenceOf d userId) < int4_max ->
  (let r := getInvoiceSettings userId d in
   exists settings,
     outcome r = Ok settings
     /\ outcome (generateInvoiceNumber userId (state r))
        = Ok (InvoiceSettings.previewNumber settings))
  /\ (let r := updateInvoiceSettings userId body d in
      match outcome r with
      | Ok settings =>
          outcome (generateInvoiceNumber userId (state r))
          = Ok (InvoiceSettings.previewNumber settings)
      | Err e => e = BadRequest /\ state r = d
      end).
Proof.
  intros Hbound. split.
  - cbv zeta. destruct (invoiceSequences d !! userId) as [settings|] eqn:E.
    + rewrite (getInvoiceSettings_found _ _ _ E). eexists. split; [reflexivity |].
      cbn [state outcome InvoiceSettings.previewNumber].
      rewrite generateInvoiceNumber_outcome by exact Hbound.
      unfold sequenceOf. rewrite E. reflexivity.
    + rewrite (getInvoiceSettings_missing _ _ E). eexists. split; [reflexivity |].
      cbn [state outcome InvoiceSettings.previewNumber].
      rewrite generateInvoiceNumber_outcome.
      * unfold sequenceOf. cbn [setInvoiceSequences invoiceSequences].
        rewrite lookup_insert_eq. reflexivity.
      * unfold sequenceOf. cbn [setInvoiceSequences invoiceSequences].
        rewrite lookup_insert_eq. reflexivity.
  - cbv zeta.
    destruct (validSettings (trim <$> SettingsBody.prefix body) (SettingsBody.padding body))
      eqn:Hvalid.
    + rewrite (updateInvoiceSettings_valid _ _ _ Hvalid).
      cbn [state outcome InvoiceSettings.previewNumber].
      rewrite generateInvoiceNumber_outcome.
      * unfold sequenceOf. cbn [setInvoiceSequences invoiceSequences].
        rewrite lookup_insert_eq. reflexivity.
      * unfold sequenceOf in *. cbn [setInvoiceSequences invoiceSequences].
        rewrite lookup_insert_eq. cbn [default].
        destruct (invoiceSequences d !! userId); [exact Hbound | reflexivity].
    + rewrite (updateInvoiceSettings_invalid _ _ _ Hvalid). split; reflexivity.
Qed.

(** X8.  What [PUT /invoice] changes.  An accepted update of the settings
    leaves the counter and every invoice, item and payment as they were;
    the padding becomes the one given, the prefix the one given without its
    surrounding white space, and what is not given stays.  A prefix that is
    empty after trimming is stored as the empty prefix when the user has a
    sequence row, and replaced by [INV] when the row is created by this
    request. *)
Theorem settings_update_keeps_the_counter (userId : string) (body : SettingsBody.t)
    (d : Db) :
  validSettings (trim <$> SettingsBody.prefix body) (SettingsBody.padding body) = true ->
  let d' := state (updateInvoiceSettings userId body d) in
  InvoiceSequence.nextNumber (sequenceOf d' userId)
  = InvoiceSequence.nextNumber (sequenceOf d userId)
  /\ invoices d' = invoices d /\ invoiceItems d' = invoiceItems d /\ payments d' = payments d
  /\ InvoiceSequence.padding (sequenceOf d' userId)
     = match SettingsBody.padding body with
       | Some n => Some n
       | None => InvoiceSequence.padding (sequenceOf d userId)
       end
  /\ InvoiceSequence.prefix (sequenceOf d' userId)
     = match SettingsBody.prefix body with
       | Some p =>
           if bool_decide (trim p = "") && bool_decide (invoiceSequences d !! userId = None)
           then "INV" else trim p
       | None => InvoiceSequence.prefix (sequenceOf d userId)
       end.
Proof.
  intros Hvalid d'. subst d'. rewrite (updateInvoiceSettings_valid _ _ _ Hvalid).
  cbn [state]. unfold sequenceOf. cbn [setInvoiceSequences invoiceSequences invoices
    invoiceItems payments]. rewrite lookup_insert_eq. cbn [default].
  unfold validSettings in Hvalid. apply andb_true_iff in Hvalid. destruct Hvalid as [_ Hpad].
  destruct (invoiceSequences d !! userId) as [current|] eqn:E.
  - cbn [default editSequence InvoiceSequence.nextNumber InvoiceSequence.padding
         InvoiceSequence.prefix].
    split; [reflexivity |]. do 3 (split; [reflexivity |]).
    split; [destruct (SettingsBody.padding body); reflexivity |].
    destruct (SettingsBody.prefix body) as [p|]; cbn [fmap option_fmap option_map default];
      [| reflexivity].
    rewrite (bool_decide_eq_false_2 (Some current = None)) by discriminate.
    rewrite andb_false_r. reflexivity.
  - cbn [default InvoiceSequence.nextNumber InvoiceSequence.padding InvoiceSequence.prefix
         InvoiceSequence.default].
    split; [reflexivity |]. do 3 (split; [reflexivity |]).
    split.
    + destruct (SettingsBody.padding body) as [n|]; cbn [orDefaultInt optionalOk] in *;
        [| reflexivity].
      destruct (n =? 0)%Z eqn:Z0; [| reflexivity].
      apply Z.eqb_eq in Z0. subst n. discriminate.
    + destruct (SettingsBody.prefix body) as [p|];
        cbn [fmap option_fmap option_map orDefaultString]; [| reflexivity].
      rewrite (bool_decide_eq_true_2 (None = None)) by reflexivity. rewrite andb_true_r.
      reflexivity.
Qed.

(** ** The totals calculator, repeated *)

(** X17.  Recomputing again.  A second run of the totals calculator ends as
    the first did (it succeeds, or fails with the same error).  It rewrites
    the invoice (and its [updatedAt]) but leaves these columns as the first
    run left them: the subtotal, the discount amount, the tax amount, the
    total and the balance due, which it writes again with the same values,
    and the tax and discount settings, the amount paid, the status and the
    three timestamps, which it does not write.  The other invoices and the
    other tables are not touched. *)
Theorem calculateInvoiceTotals_twice (invoiceId : string) (d : Db) :
  let first := calculateInvoiceTotals invoiceId d in
  let second := calculateInvoiceTotals invoiceId (state first) in
  outcome second = outcome first
  /\ match invoices (state first) !! invoiceId with
     | Some row1 =>
         exists row2,
           invoices (state second) !! invoiceId = Some row2
           /\ keptTotals row1 row2
           /\ Invoice.balanceDue row2 = Invoice.balanceDue row1
           /\ Invoice.amountPaid row2 = Invoice.amountPaid row1
           /\ Invoice.status row2 = Invoice.status row1
           /\ Invoice.sentAt row2 = Invoice.sentAt row1
           /\ Invoice.viewedAt row2 = Invoice.viewedAt row1
           /\ Invoice.paidAt row2 = Invoice.paidAt row1
     | None => invoices (state second) !! invoiceId = None
     end
  /\ (forall j, j <> invoiceId -> invoices (state second) !! j = invoices (state first) !! j)
  /\ invoiceItems (state second) = invoiceItems (state first)
  /\ payments (state second) = payments (state first)
  /\ invoiceSequences (state second) = invoiceSequences (state first).
Proof.
  intros first second.
  assert (outcome second = outcome first /\ state second = state first) as [Ho Hs].
  { subst second first. destruct (invoices d !! invoiceId) as [row|] eqn:Hrow.
    - rewrite (calculateInvoiceTotals_run _ _ _ Hrow). cbv zeta.
      set (subtotal := Number (sumAmounts (itemsOf invoiceId (invoiceItems d)))).
      set (row1 := storeTotals subtotal (computeTotals subtotal row) row).
      destruct (totalsFit row1) eqn:Hfit; cbn [state outcome].
      + set (d1 := setInvoices _ d).
        assert (invoices d1 !! invoiceId = Some row1) as Hrow1.
        { subst d1. unfold setInvoices. cbn [invoices].
          rewrite lookup_alter_eq, Hrow. reflexivity. }
        rewrite (calculateInvoiceTotals_run _ _ _ Hrow1). cbv zeta.
        change (invoiceItems d1) with (invoiceItems d). fold subtotal.
        change (storeTotals subtotal (computeTotals subtotal row1) row1) with row1.
        rewrite Hfit. cbn [state outcome]. split; [reflexivity |].
        subst d1. unfold setInvoices. cbn [clients invoices invoiceItems payments
          invoiceSequences]. f_equal.
        apply map_eq. intros k. destruct (decide (k = invoiceId)) as [->|Hne].
        * rewrite !lookup_alter_eq, Hrow. reflexivity.
        * rewrite !lookup_alter_ne by congruence. reflexivity.
      + rewrite (calculateInvoiceTotals_run _ _ _ Hrow). cbv zeta. fold subtotal. fold row1.
        rewrite Hfit. split; reflexivity.
    - rewrite (calculateInvoiceTotals_missing _ _ Hrow). cbn [state outcome].
      rewrite (calculateInvoiceTotals_missing _ _ Hrow). split; reflexivity. }
  split; [exact Ho |]. rewrite Hs.
  split; [| repeat split].
  destruct (invoices (state first) !! invoiceId) as [row1|]; [| reflexivity].
  exists row1. repeat split.
Qed.

(** ** Deleting an invoice *)

(** X9.  [DELETE /:id].  Deleting an invoice of the user removes it with its
    items and its payments, and nothing else: the other invoices, items and
    payments stay, and the sequence row is untouched, so the number is not
    given back.  For an id that is unknown or belongs to another user the
    answer is [NotFoundError] and nothing changes. *)
Theorem deleteInvoice_removes_the_invoice_with_its_rows (userId invoiceId : string)
    (d : Db) :
  let r := deleteInvoice userId invoiceId d in
  match findInvoice invoiceId userId d with
  | Some _ =>
      outcome r = Ok tt
      /\ invoices (state r) = delete invoiceId (invoices d)
      /\ (forall j, itemsOf j (invoiceItems (state r))
                    = if decide (j = invoiceId) then [] else itemsOf j (invoiceItems d))
      /\ (forall pid p, payments (state r) !! pid = Some p
                        <-> payments d !! pid = Some p /\ Payment.invoiceId p <> invoiceId)
      /\ invoiceSequences (state r) = invoiceSequences d
      /\ clients (state r) = clients d
  | None => outcome r = Err (NotFoundError "Invoice not found") /\ state r = d
  end.
Proof.
  cbv zeta. destruct (findInvoice invoiceId userId d) as [existing|] eqn:Hfind.
  - rewrite (deleteInvoice_found _ _ _ _ Hfind). cbn [state outcome deleteInvoiceRows
      invoices invoiceItems payments invoiceSequences clients].
    split; [reflexivity |]. split; [reflexivity |].
    split; [intros j; apply itemsOf_removed |].
    split; [| split; reflexivity].
    intros pid p. rewrite map_lookup_filter_Some. reflexivity.
  - rewrite (deleteInvoice_missing _ _ _ Hfind). split; reflexivity.
Qed.

(** ** A duplication that fails *)

(** X12.  A duplication whose insert is refused.  For a user whose counter
    is below the largest value of its [integer] column: when the row of the
    copy is refused by the table (its id is taken, the client of the
    original is gone, or the user already holds the number drawn for it),
    the duplication fails and the tables are as they were except that the
    user's counter has advanced: the number drawn for the copy is lost, as
    the allocator had committed it before the transaction was rolled
    back. *)
Theorem failed_duplication_advances_only_the_counter (uuid userId invoiceId : string)
    (d : Db) (original : Invoice.t) :
  findInvoice invoiceId userId d = Some original ->
  InvoiceSequence.nextNumber (sequenceOf d userId) < int4_max ->
  let seq := sequenceOf d userId in
  let number := formatInvoiceNumber (InvoiceSequence.prefix seq)
                  (InvoiceSequence.nextNumber seq) (InvoiceSequence.padding seq) in
  is_Some (invoices d !! uuid) \/ Invoice.clientId original ∉ clients d
  \/ invoiceNumberTaken d userId number = true ->
  let r := duplicateInvoice uuid userId invoiceId d in
  (exists e, outcome r = Err e)
  /\ state r = setInvoiceSequences (insert userId (incrementNextNumber seq)) d
  /\ commits r = commits (generateInvoiceNumber userId d).
Proof.
  intros Hfind Hbound seq number Hrefused r. subst r.
  pose proof (duplicateInvoice_found uuid userId invoiceId d original Hfind) as Hrun.
  cbv zeta in Hrun.
  destruct (generateInvoiceNumber_run userId d Hbound) as [Hout Hg].
  fold (sequenceOf d userId) in Hout, Hg. fold seq in Hout, Hg. fold number in Hout.
  rewrite Hout in Hrun.
  assert (exists e, insertInvoice uuid (duplicateRow userId number original)
                      (state (generateInvoiceNumber userId d)) = Err e) as [e Hins].
  { rewrite Hg. unfold insertInvoice.
    cbn [setInvoiceSequences invoices clients duplicateRow Invoice.clientId Invoice.userId
           Invoice.invoiceNumber].
    destruct (bool_decide (is_Some (invoices d !! uuid))) eqn:B1; [eexists; reflexivity |].
    destruct (bool_decide (Invoice.clientId original ∉ clients d)) eqn:B2;
      [eexists; reflexivity |].
    rewrite (invoiceNumberTaken_same_invoices d) by reflexivity.
    destruct (invoiceNumberTaken d userId number) eqn:B3; [eexists; reflexivity |].
    apply bool_decide_eq_false in B1. apply bool_decide_eq_false in B2.
    destruct Hrefused as [H | [H | H]]; [contradiction | contradiction | discriminate]. }
  rewrite Hins in Hrun. rewrite Hrun. cbn [outcome state commits].
  split; [exists e; reflexivity |]. split; [exact Hg | reflexivity].
Qed.

(** ** Totals that do not fit their column *)

(** X20.  A request that fails after its commit.  Creating an invoice with
    two items of 6 000 000 000.00 stores the invoice and both items in the
    transaction; the subtotal, 12 000 000 000.00, is beyond the range of
    its column, so the totals write fails and the request with it, and the
    invoice stays committed with its items and with totals of 0.00.
    Duplicating that invoice fails in the same way and leaves the copy
    and its two items behind. *)
Theorem creation_fails_after_its_commit :
  let item := ItemInput.mk (Some "work") (Some 1%Q) (Some 6000000000%Q) in
  let r := createInvoice "i1" "u1" (CreateBody.mk "c1" None None None (Some [item; item]))
             (mkDb {["c1"]} ∅ [] ∅ ∅) in
  let copy := duplicateInvoice "i2" "u1" "i1" (state r) in
  outcome r = Err (DbError "numeric field overflow")
  /\ last (commits r) = Some (state r)
  /\ (exists row, invoices (state r) !! "i1" = Some row
                  /\ Invoice.subtotal row = 0 /\ Invoice.total row = 0)
  /\ (InvoiceItem.amount <$> itemsOf "i1" (invoiceItems (state r)))
     = [600000000000; 600000000000]
  /\ outcome copy = Err (DbError "numeric field overflow")
  /\ last (commits copy) = Some (state copy)
  /\ (exists row, invoices (state copy) !! "i2" = Some row /\ Invoice.subtotal row = 0)
  /\ (InvoiceItem.amount <$> itemsOf "i2" (invoiceItems (state copy)))
     = [600000000000; 600000000000].
Proof.
  cbv zeta. split; [vm_compute; reflexivity |]. split; [vm_compute; reflexivity |].
  split; [eexists; split; [vm_compute; reflexivity |]; split; reflexivity |].
  split; [vm_compute; reflexivity |]. split; [vm_compute; reflexivity |].
  split; [vm_compute; reflexivity |].
  split; [eexists; split; [vm_compute; reflexivity |]; reflexivity |].
  vm_compute. reflexivity.
Qed.

(** ** Paging *)

Section Paging.

Context {A : Type}.

Lemma Math_ceil_div (n l : Z) :
  0 < l -> Math_ceil (inject_Z n / inject_Z l) = - ((- n) / l).
Proof.
  intros Hl. destruct l as [|p|p]; try lia.
  unfold Math_ceil, Qceiling, Qfloor, Qdiv, Qinv, Qmult, Qopp, inject_Z. simpl.
  rewrite Z.mul_1_r. reflexivity.
Qed.

Lemma ceil_bounds (n l : Z) :
  0 < l -> let t := - ((- n) / l) in (t - 1) * l < n <= t * l.
Proof.
  intros Hl t. subst t.
  pose proof (Z.div_mod (- n) l ltac:(lia)) as E.
  pose proof (Z.mod_pos_bound (- n) l Hl) as B. nia.
Qed.

Lemma pages_concat (l : nat) (rows : list A) (k : nat) :
  concat (map (fun p => take l (drop (p * l) rows)) (seq 0 k)) = take (k * l) rows.
Proof.
  induction k as [|k IH]; [reflexivity |].
  rewrite seq_S, map_app, concat_app, IH. cbn [map concat plus].
  rewrite app_nil_r, take_take_drop. f_equal. lia.
Qed.

Lemma page_empty (l o : nat) (rows : list A) :
  (0 < l)%nat -> take l (drop o rows) = [] <-> (length rows <= o)%nat.
Proof.
  intros Hl. rewrite <- length_zero_iff_nil, length_take, length_drop. lia.
Qed.

Lemma listPage_result (pageNum limitNum : Z) (rows : list A) :
  1 <= pageNum -> 1 <= limitNum ->
  listPage pageNum limitNum rows
  = Some (take (Z.to_nat limitNum) (drop (Z.to_nat ((pageNum - 1) * limitNum)) rows),
          Pagination.mk pageNum limitNum (Z.of_nat (length rows))
            (- ((- Z.of_nat (length rows)) / limitNum))).
Proof.
  intros Hp Hl. unfold listPage.
  rewrite (proj2 (Z.leb_le 1 pageNum) Hp), (proj2 (Z.leb_le 1 limitNum) Hl).
  cbn [andb]. rewrite Math_ceil_div by lia. reflexivity.
Qed.

(** X13.  The pages of [GET /].  For a limit of at least 1, the pages 1 to
    [totalPages] of a result, one after the other, are the whole result:
    every row is on exactly one page; a page holds at most [limit] rows,
    and the empty pages are exactly those after [totalPages]. *)
Theorem pages_cover_the_result (limitNum : Z) (rows : list A) :
  1 <= limitNum ->
  exists totalPages,
    (forall pageNum, 1 <= pageNum ->
       exists result,
         listPage pageNum limitNum rows
         = Some (result,
                 Pagination.mk pageNum limitNum (Z.of_nat (length rows)) totalPages)
         /\ Z.of_nat (length result) <= limitNum
         /\ (result = [] <-> totalPages < pageNum))
    /\ concat (map (fun p => default [] (fst <$> listPage (Z.of_nat p) limitNum rows))
                 (seq 1 (Z.to_nat totalPages)))
       = rows.
Proof.
  intros Hl. set (n := Z.of_nat (length rows)).
  exists (- ((- n) / limitNum)).
  pose proof (ceil_bounds n limitNum ltac:(lia)) as B. cbv zeta in B.
  set (t := - ((- n) / limitNum)) in *.
  split.
  - intros pageNum Hp. eexists. split; [apply listPage_result; assumption |].
    split.
    + rewrite length_take. lia.
    + rewrite page_empty by lia. subst n. split; intros H; nia.
  - rewrite <- seq_shift, map_map.
    rewrite (map_ext _ (fun p => take (Z.to_nat limitNum)
                                   (drop (p * Z.to_nat limitNum) rows))).
    + rewrite pages_concat. apply take_ge. assert (0 <= t) by nia.
      apply Nat2Z.inj_le. rewrite Nat2Z.inj_mul, !Z2Nat.id by lia. subst n. lia.
    + intros p. rewrite listPage_result by lia. cbn [fmap option_fmap option_map fst default].
      unfold id. do 2 f_equal. apply Nat2Z.inj. rewrite Nat2Z.inj_mul, !Z2Nat.id by nia. lia.
Qed.

End Paging.

(** ** Payments in whole hundredths *)

Lemma Number_add (a b : Z) : (Number (a + b) == Number a + Number b)%Q.
Proof. unfold Number, Qeq, Qplus. simpl. lia. Qed.

Lemma wholeHundredths_Number (x : Q) : wholeHundredths x -> (x == Number (toDecimal x))%Q.
Proof. intros H. symmetry. exact H. Qed.

Lemma Number_le_0 (z : Z) : Qle_bool (Number z) 0 = (z <=? 0)%Z.
Proof.
  unfold Number. destruct (z <=? 0)%Z eqn:E.
  - apply Qle_bool_iff. unfold Qle. simpl. apply Z.leb_le in E. lia.
  - destruct (Qle_bool (z # 100) 0) eqn:B; [| reflexivity].
    apply Qle_bool_iff in B. unfold Qle in B. simpl in B. apply Z.leb_gt in E. lia.
Qed.

(** X15.  A payment with at most two decimals.  Such a payment on an invoice
    that is not cancelled, with amounts that fit the columns, is recorded
    as it is; the amount paid grows by it and the balance due becomes what
    is left, not below zero.  The invoice is marked paid when the payments
    exceed the total, and keeps its status when something is left; the
    time of the payment is written to [paidAt] whenever the resulting
    status is paid.  The totals are not touched.  (When exactly nothing is
    left the route decides on a floating-point difference, which is left
    open here.) *)
Theorem payment_in_whole_hundredths (now : Z) (uuid userId invoiceId : string) (amount : Q)
    (d : Db) (invoice : Invoice.t) :
  findInvoice invoiceId userId d = Some invoice ->
  Invoice.status invoice <> cancelled ->
  payments d !! uuid = None ->
  isFloatMin (1 # 100) amount = true ->
  wholeHundredths amount ->
  let remaining := Invoice.total invoice - Invoice.amountPaid invoice - toDecimal amount in
  toDecimal amount <= decimal12_max ->
  Z.abs (Invoice.amountPaid invoice + toDecimal amount) <= decimal12_max ->
  remaining <= decimal12_max ->
  let r := addPayment now uuid userId invoiceId amount d in
  exists row,
    outcome r = Ok (Payment.mk invoiceId (toDecimal amount))
    /\ payments (state r) = <[uuid := Payment.mk invoiceId (toDecimal amount)]> (payments d)
    /\ invoices (state r) = <[invoiceId := row]> (invoices d)
    /\ Invoice.amountPaid row = Invoice.amountPaid invoice + toDecimal amount
    /\ Invoice.balanceDue row = Z.max 0 remaining
    /\ (remaining < 0 -> Invoice.status row = paid)
    /\ (0 < remaining -> Invoice.status row = Invoice.status invoice)
    /\ Invoice.paidAt row
       = (if bool_decide (Invoice.status row = paid) then Some now
          else Invoice.paidAt invoice)
    /\ keptTotals invoice row.
Proof.
  intros Hfind Hstatus Hfresh Hamount Hwhole remaining _ _ _ r. subst r.
  rewrite (addPayment_ok userId invoiceId d now uuid amount invoice Hamount Hfind Hstatus
             Hfresh).
  cbn [outcome state setInvoices setPayments invoices payments].
  eexists. split; [reflexivity |]. split; [reflexivity |]. split; [reflexivity |].
  pose proof (wholeHundredths_Number amount Hwhole) as Ea.
  set (cents := toDecimal amount) in *.
  assert (Number (Invoice.amountPaid invoice) + amount
          == Number (Invoice.amountPaid invoice + cents))%Q as Hpaid
    by (rewrite Number_add, <- Ea; reflexivity).
  assert (Number (Invoice.total invoice) - (Number (Invoice.amountPaid invoice) + amount)
          == Number remaining)%Q as Hleft.
  { rewrite Hpaid, Number_minus. subst remaining.
    replace (Invoice.total invoice - (Invoice.amountPaid invoice + cents))
      with (Invoice.total invoice - Invoice.amountPaid invoice - cents) by lia.
    reflexivity. }
  assert (Qle_bool (Number (Invoice.total invoice)
                    - (Number (Invoice.amountPaid invoice) + amount)) 0
          = (remaining <=? 0)%Z) as Hle.
  { rewrite (Qleb_comp _ _ Hleft 0%Q 0%Q (Qeq_refl 0%Q)). apply Number_le_0. }
  unfold paymentAdded. cbn [Invoice.amountPaid Invoice.balanceDue Invoice.status
    Invoice.paidAt]. rewrite Hle.
  split; [rewrite (toDecimal_comp _ _ Hpaid); apply toDecimal_Number |].
  split.
  { destruct (remaining <=? 0)%Z eqn:E.
    - apply Z.leb_le in E. rewrite Z.max_l by lia. apply toDecimal_zero.
      apply Math_max_0_nonpos. rewrite Hleft. unfold Number, Qle. simpl. lia.
    - apply Z.leb_gt in E. rewrite Z.max_r by lia.
      rewrite Math_max_0_nonneg by (rewrite Hleft; unfold Number, Qle; simpl; lia).
      rewrite (toDecimal_comp _ _ Hleft). apply toDecimal_Number. }
  split.
  { intros Hneg. rewrite (proj2 (Z.leb_le remaining 0)) by lia. reflexivity. }
  split.
  { intros Hpos. rewrite (proj2 (Z.leb_gt remaining 0)) by lia. reflexivity. }
  split; [reflexivity |].
  split; reflexivity.
Qed.

(** ** Invoice numbers *)

(** X6.  One number for one counter value.  Under one prefix, two different
    values of the counter never give the same invoice number, whatever the
    paddings are. *)
Theorem different_counters_give_different_numbers (prefix : string) (n m : Z)
    (p q : option Z) :
  n <> m -> formatInvoiceNumber prefix n p <> formatInvoiceNumber prefix m q.
Proof. intros Hne E. apply Hne. exact (formatInvoiceNumber_inj _ _ _ _ _ E). Qed.

(** A paid invoice: the updates are refused. *)
Lemma closed_invoice_refuses_updates_witness :
  let d := handleAll "u1"
             [(1, CreateInvoice "i1"
                    (CreateBody.mk "c1" None None None
                       (Some [ItemInput.mk (Some "work") (Some 1%Q) (Some 100%Q)])));
              (2, AddPayment "p1" "i1" 100)]
             (mkDb {["c1"]} ∅ [] ∅ ∅) in
  let body := UpdateBody.mk None (Some 20%Q) None None None in
  handleAll "u1" [(3, UpdateInvoice "i1" body);
                  (4, UpdateInvoice "i1" (UpdateBody.mk None None None None (Some [])))] d
  = d
  /\ outcome (updateInvoice "u1" "i1" body d)
     = Err (ValidationError "Cannot edit paid invoices").
Proof.
  intros d body.
  assert (exists invoice, findInvoice "i1" "u1" d = Some invoice
                          /\ Invoice.status invoice = paid) as (invoice & Hfind & Hpaid)
    by (eexists; split; vm_compute; reflexivity).
  destruct (closed_invoice_refuses_updates "u1" "i1" d invoice
              [(3, UpdateInvoice "i1" body);
               (4, UpdateInvoice "i1" (UpdateBody.mk None None None None (Some [])))]
              Hfind (or_introl Hpaid)) as [Hsame Herr].
  - repeat constructor; eexists; reflexivity.
  - split; [exact Hsame |].
    apply Forall_cons in Herr. destruct Herr as [Herr _].
    rewrite (Herr body eq_refl eq_refl), Hpaid. reflexivity.
Defined.

(** A cancelled invoice: the payments are refused. *)
Lemma cancelled_invoice_refuses_payments_witness :
  let d := handleAll "u1"
             [(1, CreateInvoice "i1"
                    (CreateBody.mk "c1" None None None
                       (Some [ItemInput.mk (Some "work") (Some 1%Q) (Some 100%Q)])));
              (2, SetStatus "i1" cancelled)]
             (mkDb {["c1"]} ∅ [] ∅ ∅) in
  handleAll "u1" [(3, AddPayment "p1" "i1" 50); (4, AddPayment "p2" "i1" 100)] d = d.
Proof.
  intros d.
  assert (exists invoice, findInvoice "i1" "u1" d = Some invoice
                          /\ Invoice.status invoice = cancelled)
    as (invoice & Hfind & Hcancelled)
    by (eexists; split; vm_compute; reflexivity).
  apply (cancelled_invoice_refuses_payments "u1" "i1" d invoice _ Hfind Hcancelled).
  repeat constructor; eexists _, _; reflexivity.
Defined.

(** Two users: what the first user does leaves the second user's data. *)
Lemma operations_of_other_users_change_nothing_witness :
  let d := runAll
             [(1, "u2", Engine (CreateInvoice "j1"
                                  (CreateBody.mk "c2" None None None
                                     (Some [ItemInput.mk (Some "audit") (Some 1%Q)
                                              (Some 80%Q)]))));
              (2, "u2", Engine (AddPayment "q1" "j1" 30))]
             (mkDb {["c1"; "c2"]} ∅ [] ∅ ∅) in
  let steps :=
    [(3, "u1", Engine (CreateInvoice "i1"
                         (CreateBody.mk "c1" None None None
                            (Some [ItemInput.mk (Some "work") (Some 1%Q) (Some 100%Q)]))));
     (4, "u1", Engine (SetStatus "j1" cancelled));
     (5, "u1", Engine (DeletePayment "j1" "q1"));
     (6, "u1", DeleteInvoice "j1");
     (7, "u1", DuplicateInvoice "i2" "j1");
     (8, "u1", UpdateInvoiceSettings (SettingsBody.mk (Some "A") (Some 2)))] in
  sameDataOf "u2" d (runAll steps d).
Proof.
  intros d steps.
  apply (operations_of_other_users_change_nothing "u2" steps d).
  repeat constructor; discriminate.
Defined.

(** An invoice that is sent, paid, edited by nobody and copied keeps its
    number and its [sentAt]. *)
Lemma invoice_keeps_owner_number_and_timestamps_witness :
  let d := runAll
             [(1, "u1", Engine (CreateInvoice "i1"
                                  (CreateBody.mk "c1" None None None
                                     (Some [ItemInput.mk (Some "work") (Some 1%Q)
                                              (Some 100%Q)]))));
              (2, "u1", Engine (SetStatus "i1" sent))]
             (mkDb {["c1"]} ∅ [] ∅ ∅) in
  let steps :=
    [(3, "u1", Engine (SetStatus "i1" draft));
     (4, "u1", Engine (SetStatus "i1" sent));
     (5, "u1", Engine (AddPayment "p1" "i1" 100));
     (6, "u1", DuplicateInvoice "i2" "i1");
     (7, "u1", DeleteInvoice "i2");
     (8, "u1", UpdateInvoiceSettings (SettingsBody.mk (Some "A") None))] in
  exists row row',
    invoices d !! "i1" = Some row
    /\ Invoice.sentAt row = Some 2
    /\ invoices (runAll steps d) !! "i1" = Some row'
    /\ Invoice.invoiceNumber row' = "INV0001"
    /\ Invoice.sentAt row' = Some 2.
Proof.
  intros d steps.
  assert (exists row, invoices d !! "i1" = Some row
                      /\ Invoice.sentAt row = Some 2
                      /\ Invoice.invoiceNumber row = "INV0001")
    as (row & Hrow & Hsent & Hnumber)
    by (eexists; repeat split; vm_compute; reflexivity).
  destruct (invoice_keeps_owner_number_and_timestamps steps d "i1" row) as (row' & Hrow' & K).
  - repeat constructor; discriminate.
  - exact Hrow.
  - exists row, row'. destruct K as [_ Kn Ks _].
    split; [exact Hrow |]. split; [exact Hsent |]. split; [exact Hrow' |].
    split; [congruence |]. rewrite Ks by congruence. exact Hsent.
Defined.

(** From an empty table, creations, copies and a change of the prefix. *)
Lemma invoice_numbers_stay_unique_witness :
  let body := CreateBody.mk "c1" None None None
                (Some [ItemInput.mk (Some "work") (Some 1%Q) (Some 100%Q)]) in
  uniqueInvoiceNumbers
    (runAll
       [(1, "u1", Engine (CreateInvoice "i1" body));
        (2, "u1", DuplicateInvoice "i2" "i1");
        (3, "u1", UpdateInvoiceSettings (SettingsBody.mk (Some "INV000") (Some 1)));
        (4, "u1", Engine (CreateInvoice "i3" body));
        (5, "u2", Engine (CreateInvoice "j1" body))]
       (mkDb {["c1"]} ∅ [] ∅ ∅)).
Proof.
  intros body. apply invoice_numbers_stay_unique.
  intros i j r1 r2 H. cbn [invoices] in H. rewrite lookup_empty in H. discriminate.
Defined.

(** The first invoice is deleted; the next one does not take its number. *)
Lemma issued_number_is_not_reissued_witness :
  let body := CreateBody.mk "c1" None None None
                (Some [ItemInput.mk (Some "work") (Some 1%Q) (Some 100%Q)]) in
  let d := mkDb {["c1"]} ∅ [] ∅ ∅ in
  let d1 := state (createInvoice "i1" "u1" body d) in
  let d2 := runAll [(2, "u1", DeleteInvoice "i1");
                    (3, "u1", UpdateInvoiceSettings (SettingsBody.mk None (Some 6)))] d1 in
  exists invoice1 invoice2,
    outcome (createInvoice "i1" "u1" body d) = Ok (Some invoice1)
    /\ invoices d2 !! "i1" = None
    /\ outcome (createInvoice "i2" "u1" body d2) = Ok (Some invoice2)
    /\ Invoice.invoiceNumber invoice1 <> Invoice.invoiceNumber invoice2.
Proof.
  intros body d d1 d2.
  eassert (outcome (createInvoice "i1" "u1" body d) = Ok (Some _)) as H1
    by (vm_compute; reflexivity).
  eassert (outcome (createInvoice "i2" "u1" body d2) = Ok (Some _)) as H2
    by (vm_compute; reflexivity).
  eexists _, _. split; [exact H1 |]. split; [vm_compute; reflexivity |].
  split; [exact H2 |].
  apply (issued_number_is_not_reissued "i1" "i2" "u1" body body
           [(2, "u1", DeleteInvoice "i1");
            (3, "u1", UpdateInvoiceSettings (SettingsBody.mk None (Some 6)))] d _ _ H1 H2).
  vm_compute. reflexivity.
Defined.

(** An invoice with a payment is copied, then deleted. *)
Lemma ledger_kept_by_delete_and_duplicate_witness :
  let d := handleAll "u1"
             [(1, CreateInvoice "i1"
                    (CreateBody.mk "c1" None None None
                       (Some [ItemInput.mk (Some "work") (Some 1%Q) (Some 100%Q)])));
              (2, AddPayment "p1" "i1" 30)]
             (mkDb {["c1"]} ∅ [] ∅ ∅) in
  ledgerInvariant d
  /\ ledgerInvariant (state (deleteInvoice "u1" "i1" d))
  /\ ledgerInvariant (state (duplicateInvoice "i2" "u1" "i1" d)).
Proof.
  intros d.
  assert (ledgerInvariant d) as Hinv.
  { unfold ledgerInvariant, amountPaidConsistent, paymentsPositive, paymentsReferToInvoices.
    repeat split; refine (bool_decide_unpack _ _); vm_compute; exact I. }
  split; [exact Hinv |].
  exact (ledger_kept_by_delete_and_duplicate "i2" "u1" "i1" d Hinv).
Defined.

(** A paid invoice of 88.00 is copied: the copy owes 88.00. *)
Lemma duplicate_is_an_unpaid_draft_with_the_same_totals_witness :
  let d := handleAll "u1"
             [(1, CreateInvoice "i1"
                    (CreateBody.mk "c1" (Some 10%Q) (Some "percentage") (Some 20%Q)
                       (Some [ItemInput.mk (Some "work") (Some 2%Q) (Some 50%Q)])));
              (2, AddPayment "p1" "i1" 88)]
             (mkDb {["c1"]} ∅ [] ∅ ∅) in
  exists original copy,
    findInvoice "i1" "u1" d = Some original
    /\ Invoice.status original = paid
    /\ outcome (duplicateInvoice "i2" "u1" "i1" d) = Ok (Some copy)
    /\ Invoice.status copy = draft
    /\ Invoice.invoiceNumber copy = "INV0002"
    /\ Invoice.amountPaid copy = 0
    /\ Invoice.total copy = 8800
    /\ Invoice.balanceDue copy = 8800.
Proof.
  intros d.
  eassert (findInvoice "i1" "u1" d = Some _) as Hfind by (vm_compute; reflexivity).
  eassert (outcome (duplicateInvoice "i2" "u1" "i1" d) = Ok (Some _)) as Hok
    by (vm_compute; reflexivity).
  match type of Hfind with
  | _ = Some ?original =>
      assert (upToDate d "i1" original) as Hup by (repeat split; vm_compute; reflexivity)
  end.
  assert (itemsOf "i2" (invoiceItems d) = []) as Hnone by (vm_compute; reflexivity).
  destruct (duplicate_is_an_unpaid_draft_with_the_same_totals "i2" "u1" "i1" d _ _ Hfind
              Hup Hnone Hok)
    as (_ & _ & _ & Hnumber & Hstatus & _ & _ & _ & Hpaid & K & Hdue & _).
  destruct K as [_ _ _ _ _ _ Kt].
  eexists _, _. split; [exact Hfind |]. split; [vm_compute; reflexivity |].
  split; [exact Hok |]. split; [exact Hstatus |].
  split; [rewrite Hnumber; vm_compute; reflexivity |].
  split; [exact Hpaid |].
  split; [rewrite Kt; vm_compute; reflexivity |].
  rewrite Hdue, Kt. vm_compute. reflexivity.
Defined.

(** A new prefix and padding for a user who has issued two numbers. *)
Lemma settings_update_keeps_the_counter_witness :
  let body := CreateBody.mk "c1" None None None
                (Some [ItemInput.mk (Some "work") (Some 1%Q) (Some 100%Q)]) in
  let d := handleAll "u1" [(1, CreateInvoice "i1" body); (2, CreateInvoice "i2" body)]
             (mkDb {["c1"]} ∅ [] ∅ ∅) in
  let d' := state (updateInvoiceSettings "u1" (SettingsBody.mk (Some " FA- ") (Some 6)) d) in
  InvoiceSequence.nextNumber (sequenceOf d' "u1") = 3
  /\ InvoiceSequence.prefix (sequenceOf d' "u1") = "FA-"
  /\ InvoiceSequence.padding (sequenceOf d' "u1") = Some 6
  /\ invoices d' = invoices d.
Proof.
  intros body d d'.
  destruct (settings_update_keeps_the_counter "u1" (SettingsBody.mk (Some " FA- ") (Some 6)) d)
    as (Hn & Hi & _ & _ & Hpad & Hpre); [vm_compute; reflexivity |].
  fold d' in Hn, Hi, Hpad, Hpre.
  split; [rewrite Hn; vm_compute; reflexivity |].
  split; [rewrite Hpre; vm_compute; reflexivity |].
  split; [exact Hpad | exact Hi].
Defined.

(** A user whose counter stands at 7 under the prefix [AB] and a padding of
    3: the settings page previews [AB007] and the next invoice gets it. *)
Lemma settings_preview_is_the_next_number_witness :
  let d := mkDb {["c1"]} ∅ [] ∅ {["u1" := InvoiceSequence.mk "AB" 7 (Some 3)]} in
  let r := getInvoiceSettings "u1" d in
  InvoiceSequence.nextNumber (sequenceOf d "u1") < int4_max
  /\ exists settings,
       outcome r = Ok settings
       /\ InvoiceSettings.previewNumber settings = "AB007"
       /\ outcome (generateInvoiceNumber "u1" (state r)) = Ok "AB007".
Proof.
  intros d r.
  assert (InvoiceSequence.nextNumber (sequenceOf d "u1") < int4_max) as Hbound
    by (vm_compute; reflexivity).
  split; [exact Hbound |].
  destruct (settings_preview_is_the_next_number "u1" (SettingsBody.mk None None) d Hbound)
    as [(settings & Hok & Hnext) _].
  fold r in Hok, Hnext.
  assert (InvoiceSettings.previewNumber settings = "AB007") as Hpreview.
  { assert (outcome r = Ok (InvoiceSettings.mk "AB" 7 (Some 3) "AB007")) as E
      by (vm_compute; reflexivity).
    rewrite E in Hok. injection Hok as <-. reflexivity. }
  exists settings. split; [exact Hok |]. split; [exact Hpreview |].
  rewrite Hnext, Hpreview. reflexivity.
Defined.

(** After a change of the prefix from [X1] to [X] the eleventh number is
    [X11], which the first invoice holds: the copy fails and the number is
    lost. *)
Lemma failed_duplication_advances_only_the_counter_witness :
  let body := CreateBody.mk "c1" None None None
                (Some [ItemInput.mk (Some "work") (Some 1%Q) (Some 100%Q)]) in
  let d := runAll
             [(1, "u1", UpdateInvoiceSettings (SettingsBody.mk (Some "X1") (Some 1)));
              (2, "u1", Engine (CreateInvoice "i1" body));
              (3, "u1", UpdateInvoiceSettings (SettingsBody.mk (Some "X") None));
              (4, "u1", Engine (CreateInvoice "i2" body));
              (5, "u1", Engine (CreateInvoice "i3" body));
              (6, "u1", Engine (CreateInvoice "i4" body));
              (7, "u1", Engine (CreateInvoice "i5" body));
              (8, "u1", Engine (CreateInvoice "i6" body));
              (9, "u1", Engine (CreateInvoice "i7" body));
              (10, "u1", Engine (CreateInvoice "i8" body));
              (11, "u1", Engine (CreateInvoice "i9" body));
              (12, "u1", Engine (CreateInvoice "i10" body))]
             (mkDb {["c1"]} ∅ [] ∅ ∅) in
  let r := duplicateInvoice "i11" "u1" "i1" d in
  InvoiceSequence.nextNumber (sequenceOf d "u1") = 11
  /\ invoiceNumberTaken d "u1" "X11" = true
  /\ (exists e, outcome r = Err e)
  /\ invoices (state r) = invoices d
  /\ invoiceItems (state r) = invoiceItems d
  /\ InvoiceSequence.nextNumber (sequenceOf (state r) "u1") = 12.
Proof.
  intros body d r.
  eassert (findInvoice "i1" "u1" d = Some _) as Hfind by (vm_compute; reflexivity).
  assert (InvoiceSequence.nextNumber (sequenceOf d "u1") = 11) as Hcounter
    by (vm_compute; reflexivity).
  assert (invoiceNumberTaken d "u1" "X11" = true) as Htaken by (vm_compute; reflexivity).
  destruct (failed_duplication_advances_only_the_counter "i11" "u1" "i1" d _ Hfind)
    as (Herr & Hstate & _).
  - rewrite Hcounter. reflexivity.
  - right. right. rewrite <- Htaken. f_equal.
  - fold r in Herr, Hstate.
    split; [exact Hcounter |]. split; [exact Htaken |]. split; [exact Herr |].
    rewrite Hstate.
    split; [reflexivity |]. split; [reflexivity |].
    vm_compute. reflexivity.
Defined.

(** Five rows in pages of two. *)
Lemma pages_cover_the_result_witness :
  exists totalPages,
    (forall pageNum, 1 <= pageNum ->
       exists result,
         listPage pageNum 2 ["a"; "b"; "c"; "d"; "e"]
         = Some (result, Pagination.mk pageNum 2 5 totalPages)
         /\ Z.of_nat (length result) <= 2
         /\ (result = [] <-> totalPages < pageNum))
    /\ concat (map (fun p => default [] (fst <$> listPage (Z.of_nat p) 2
                                           ["a"; "b"; "c"; "d"; "e"]))
                 (seq 1 (Z.to_nat totalPages)))
       = ["a"; "b"; "c"; "d"; "e"].
Proof.
  apply (pages_cover_the_result 2 ["a"; "b"; "c"; "d"; "e"]). lia.
Defined.

(** A payment of 30.00 on 100.00, then one of 80.00: the invoice is paid. *)
Lemma payment_in_whole_hundredths_witness :
  let d := handleAll "u1"
             [(1, CreateInvoice "i1"
                    (CreateBody.mk "c1" None None None
                       (Some [ItemInput.mk (Some "work") (Some 1%Q) (Some 100%Q)])));
              (2, AddPayment "p1" "i1" 30)]
             (mkDb {["c1"]} ∅ [] ∅ ∅) in
  exists row,
    invoices (state (addPayment 3 "p2" "u1" "i1" 80 d)) = <["i1" := row]> (invoices d)
    /\ Invoice.amountPaid row = 11000
    /\ Invoice.balanceDue row = 0
    /\ Invoice.status row = paid
    /\ Invoice.paidAt row = Some 3.
Proof.
  intros d.
  eassert (findInvoice "i1" "u1" d = Some _) as Hfind by (vm_compute; reflexivity).
  destruct (payment_in_whole_hundredths 3 "p2" "u1" "i1" 80 d _ Hfind)
    as (row & _ & _ & Hrow & Hpaid & Hdue & Hover & _ & Hat & _).
  - discriminate.
  - vm_compute. reflexivity.
  - reflexivity.
  - vm_compute. reflexivity.
  - vm_compute. discriminate.
  - vm_compute. discriminate.
  - vm_compute. discriminate.
  - exists row. split; [exact Hrow |].
    split; [rewrite Hpaid; vm_compute; reflexivity |].
    split; [rewrite Hdue; vm_compute; reflexivity |].
    assert (Invoice.status row = paid) as Hp by (apply Hover; vm_compute; reflexivity).
    split; [exact Hp |]. rewrite Hat, Hp. reflexivity.
Defined.

(** [INV0009] and [INV0010], and a counter that outgrows its padding. *)
Lemma different_counters_give_different_numbers_witness :
  formatInvoiceNumber "INV" 9 (Some 4) <> formatInvoiceNumber "INV" 10 (Some 4)
  /\ formatInvoiceNumber "INV" 99 (Some 1) <> formatInvoiceNumber "INV" 990 (Some 4).
Proof.
  split; apply different_counters_give_different_numbers; lia.
Defined.
